(** * Record reconciliation and identity matching for the exoplanet pipeline

    A shallow embedding of the reconciliation core of the repository:

    - [normalize_object_name], [load_standard_data] and
      [match_predictions_with_data] (generate_final_output.py),
    - [convert_kepler_to_standard], [convert_tess_to_standard],
      [convert_k2_to_standard] and [combine_all_data]
      (convert_to_standard_format.py),
    - [fetch_table_with_retry], [normalize_disposition_extended] and the
      combination and deduplication steps of [main_fixed_fetch]
      (tests/script.py).

    Python exceptions are values of [exn] carried by the [result] monad;
    pandas tables are [DataFrame]s whose rows are dictionaries ([gmap]);
    numbers are IEEE 754 binary64 floats, as in Python.  Reading and
    writing CSV files, the archive queries and the console output are
    left out: every function takes the table it would read and returns
    the table it would write.

    Text is modelled on the ASCII range.  A statement about names whose
    truth depends on the class of a character (digit, whitespace, letter
    case) is made for [Py.isascii] names; the integer conversion has
    CPython's limit on the number of digits ([Py.int_max_str_digits]). *)

From Stdlib Require Import ZArith NArith String Ascii List Floats.
From Stdlib Require Import Decimal DecimalString DecimalN DecimalFacts.
From stdpp Require Import base option list gmap strings sorting.

Open Scope string_scope.

(** ** Exceptions *)

Inductive exn : Type :=
  | ValueError            (* int() on text it refuses, pd.concat([]) *)
  | IndexError            (* parts[0] on an empty list *)
  | KeyError (missing : list string).   (* absent column label(s) *)

Inductive result (A : Type) : Type :=
  | Ok (a : A)
  | Raise (e : exn).
Arguments Ok {A} a.
Arguments Raise {A} e.

#[global] Instance result_ret : MRet result := λ A a, Ok a.
#[global] Instance result_bind : MBind result := λ A B k m,
  match m with
  | Ok a => k a
  | Raise e => Raise e
  end.
#[global] Instance result_fmap : FMap result := λ A B f m,
  match m with
  | Ok a => Ok (f a)
  | Raise e => Raise e
  end.

(** ** Python's [str] methods, on the ASCII range

    An object name is a catalogue identifier.  Characters are Rocq's
    [ascii], and a string of the model stands for the Python string of
    the same code points when these are all below 128 ([isascii]).
    [isspace], [isdigit] and [upper] are Python's on that range.  Python's
    own methods also act on code points from 128 on (the superscript two
    is a digit for [isdigit] that [int] refuses, the no-break space is
    whitespace for [strip], a dotless i upper-cases to I), which no
    string of the model stands for: the model leaves a character from
    128 on alone, and the statements on names below assume [isascii]. *)

Module Py.

(** [c.isascii()] *)
Definition isascii_char (c : ascii) : bool := (nat_of_ascii c <? 128)%nat.

(** [s.isascii()] *)
Fixpoint isascii (s : string) : bool :=
  match s with
  | EmptyString => true
  | String c s => isascii_char c && isascii s
  end.

(** [c * n] for a one-character [c] *)
Fixpoint repeat (c : ascii) (n : nat) : string :=
  match n with
  | O => EmptyString
  | S n => String c (repeat c n)
  end.

(** [c.isspace()]: TAB, LF, VT, FF, CR, the separators FS, GS, RS, US
    and the space. *)
Definition isspace (c : ascii) : bool :=
  let n := nat_of_ascii c in
  (((9 <=? n) && (n <=? 13)) || ((28 <=? n) && (n <=? 32)))%nat.

Definition isdigit_char (c : ascii) : bool :=
  let n := nat_of_ascii c in ((48 <=? n) && (n <=? 57))%nat.

Definition upper_char (c : ascii) : ascii :=
  let n := nat_of_ascii c in
  if ((97 <=? n) && (n <=? 122))%nat then ascii_of_nat (n - 32) else c.

Fixpoint upper (s : string) : string :=
  match s with
  | EmptyString => EmptyString
  | String c s => String (upper_char c) (upper s)
  end.

Fixpoint lstrip (s : string) : string :=
  match s with
  | EmptyString => EmptyString
  | String c s' => if isspace c then lstrip s' else s
  end.

Fixpoint rstrip (s : string) : string :=
  match s with
  | EmptyString => EmptyString
  | String c s' =>
      match rstrip s' with
      | EmptyString => if isspace c then EmptyString else String c EmptyString
      | r => String c r
      end
  end.

Definition strip (s : string) : string := rstrip (lstrip s).

(** [s.startswith(p)] *)
Definition startswith (s p : string) : bool := String.prefix p s.

(** [s[n:]] *)
Fixpoint slice_from (n : nat) (s : string) : string :=
  match n, s with
  | O, _ => s
  | S n, String _ s => slice_from n s
  | S _, EmptyString => EmptyString
  end.

(** [c in s] for a one-character [c] *)
Fixpoint contains (c : ascii) (s : string) : bool :=
  match s with
  | EmptyString => false
  | String a s => Ascii.eqb a c || contains c s
  end.

(** [s.split(c)] for a one-character separator: never the empty list. *)
Fixpoint split (c : ascii) (s : string) : list string :=
  match s with
  | EmptyString => [EmptyString]
  | String a s' =>
      if Ascii.eqb a c then EmptyString :: split c s'
      else match split c s' with
           | p :: parts => String a p :: parts
           | [] => [String a EmptyString]
           end
  end.

(** [sep.join(parts)] *)
Definition join (sep : string) (parts : list string) : string :=
  String.concat sep parts.

Fixpoint all_digits (s : string) : bool :=
  match s with
  | EmptyString => true
  | String c s => isdigit_char c && all_digits s
  end.

(** [s.isdigit()]: at least one character, and digits only. *)
Definition isdigit (s : string) : bool :=
  match s with
  | EmptyString => false
  | _ => all_digits s
  end.

(** [sys.get_int_max_str_digits()]: the most digits [int] converts, in
    CPython's default setting. *)
Definition int_max_str_digits : nat := 4300.

(** [int(s)] on a string of decimal digits, which is all that the
    normalizer passes to it: [ValueError] when [s] has more than
    [int_max_str_digits] digits, leading zeros counted.  Other text is
    refused here. *)
Definition int (s : string) : result N :=
  if (int_max_str_digits <? String.length s)%nat then Raise ValueError
  else match NilZero.uint_of_string s with
       | Some d => Ok (N.of_uint d)
       | None => Raise ValueError
       end.

(** [str(n)] for a non-negative integer *)
Definition str_of_int (n : N) : string :=
  NilZero.string_of_uint (N.to_uint n).

End Py.

(** ** Identifier normalizer (generate_final_output.py) *)

Definition prefixes : list string :=
  ["K"; "KOI-"; "KOI "; "TOI-"; "TOI "; "EPIC "; "EPIC-"].

(** The [for prefix in prefixes: ... break] loop. *)
Fixpoint remove_prefix (ps : list string) (name : string) : string :=
  match ps with
  | [] => name
  | prefix :: ps =>
      if Py.startswith (Py.upper name) (Py.upper prefix)
      then Py.slice_from (String.length prefix) name
      else remove_prefix ps name
  end.

(** The [if '.' in name] block: leading zeros of a numeric first part. *)
Definition normalize_head (name : string) : result string :=
  if Py.contains "." name then
    match Py.split "." name with
    | p0 :: parts =>
        p0' ← (if Py.isdigit p0 then Py.str_of_int <$> Py.int p0 else Ok p0);
        Ok (Py.join "." (p0' :: parts))
    | [] => Raise IndexError
    end
  else Ok name.

(** [name] is [None] when [pd.isna(name)], and [Some (str(name))]
    otherwise. *)
Definition normalize_object_name (name : option string) : result string :=
  match name with
  | None => Ok ""
  | Some name =>
      let name := Py.strip name in
      let name := remove_prefix prefixes name in
      name ← normalize_head name;
      Ok (Py.strip name)
  end.

(** The canonical key of a name, for the statements: the value that
    [normalize_object_name] returns, and the empty string when it
    raises (the matcher is then not reached, see [within_int_limit]). *)
Definition canonical_key (name : option string) : string :=
  match normalize_object_name name with
  | Ok key => key
  | Raise _ => ""
  end.

(** Some recognised prefix starts [name], case-insensitively. *)
Definition has_prefix (name : string) : bool :=
  existsb (λ prefix, Py.startswith (Py.upper name) (Py.upper prefix)) prefixes.

(** A digit string without its redundant leading zeros *)
Fixpoint drop_zeros (s : string) : string :=
  match s with
  | String "0" (String _ _ as s') => drop_zeros s'
  | _ => s
  end.

(** The part of [name] before its first point is a digit string with a
    redundant leading zero. *)
Definition zero_padded_head (name : string) : bool :=
  Py.contains "." name &&
  match Py.split "." name with
  | p0 :: _ => Py.isdigit p0 && negb (String.eqb (drop_zeros p0) p0)
  | [] => false
  end.

(** The digit string that [normalize_object_name] passes to [int]: the
    part before the first point of the trimmed name without its prefix,
    when the name has a point and that part is made of digits. *)
Definition int_argument (name : string) : option string :=
  let name := remove_prefix prefixes (Py.strip name) in
  if Py.contains "." name then
    match Py.split "." name with
    | p0 :: _ => if Py.isdigit p0 then Some p0 else None
    | [] => None
    end
  else None.

(** [int] accepts what the normalizer passes to it. *)
Definition within_int_limit (name : string) : bool :=
  match int_argument name with
  | Some p0 => (String.length p0 <=? Py.int_max_str_digits)%nat
  | None => true
  end.

(** The names on which the statements below are made: a missing name,
    or ASCII text that keeps [int] within its limit. *)
Definition regular (name : option string) : bool :=
  match name with
  | None => true
  | Some name => Py.isascii name && within_int_limit name
  end.

(** ** Table cells and frames *)

(** A cell of a pandas table: text, a float ([np.nan] is [Num nan]) or
    the missing marker [pd.NA]. *)
Inductive cell : Type :=
  | Str (s : string)
  | Num (x : float)
  | NA.

(** [pd.isna(c)] *)
Definition isna (c : cell) : bool :=
  match c with
  | Str _ => false
  | Num x => PrimFloat.is_nan x
  | NA => true
  end.

(** A frame: its column labels and its rows, one dictionary per row.  A
    label of [columns] that a row does not bind reads as NaN. *)
Record DataFrame : Type := mkDataFrame {
  columns : list string;
  rows : list (gmap string cell)
}.

Definition at_column (c : string) (row : gmap string cell) : cell :=
  default (Num nan) (row !! c).

(** [df[c]]: the column as a series, [KeyError] when the label is absent. *)
Definition getitem (df : DataFrame) (c : string) : result (list cell) :=
  if decide (c ∈ columns df) then Ok (at_column c <$> rows df)
  else Raise (KeyError [c]).

(** A row reindexed by the labels [cols] *)
Definition project (cols : list string) (row : gmap string cell) : gmap string cell :=
  list_to_map ((λ c, (c, at_column c row)) <$> cols).

(** [df[cols]] for a list of labels: [KeyError] with the absent ones. *)
Definition select (df : DataFrame) (cols : list string) : result DataFrame :=
  match filter (λ c, c ∉ columns df) cols with
  | [] => Ok {| columns := cols; rows := project cols <$> rows df |}
  | missing => Raise (KeyError missing)
  end.

(** [pd.DataFrame(records)] for a list of dictionaries: the labels are the
    keys that occur (their order is immaterial below, every use reindexes
    the frame with [select]). *)
Definition DataFrame_of_records (records : list (gmap string cell)) : DataFrame :=
  {| columns := elements (⋃ (dom <$> records) : gset string);
     rows := records |}.

(** A value of the dictionary given to [pd.DataFrame({...})]: a series,
    or a scalar broadcast over the index. *)
Inductive column_data : Type :=
  | Series (s : list cell)
  | Scalar (c : cell).

Definition column_at (i : nat) (d : column_data) : cell :=
  match d with
  | Series s => default (Num nan) (s !! i)
  | Scalar c => c
  end.

(** [pd.DataFrame({label: data, ...})] over an index of [n] rows *)
Definition DataFrame_of_columns (n : nat) (data : list (string * column_data))
    : DataFrame :=
  {| columns := data.*1;
     rows := (λ i, list_to_map (prod_map id (column_at i) <$> data)) <$> seq 0 n |}.

(** [s.map(mapping)] on one cell: NaN for a value that is not a key. *)
Definition series_map (mapping : gmap string string) (c : cell) : cell :=
  match c with
  | Str s => match mapping !! s with Some v => Str v | None => Num nan end
  | _ => Num nan
  end.

(** [s.fillna(other)] on one cell *)
Definition fillna (c other : cell) : cell :=
  if isna c then other else c.

(** ** Schema mapper (convert_to_standard_format.py) *)

Definition convert_kepler_to_standard (df : DataFrame) : result DataFrame :=
  object_name ← getitem df "kepoi_name";
  disposition ← getitem df "koi_disposition";
  period ← getitem df "koi_period";
  planet_radius ← getitem df "koi_prad";
  star_temp ← getitem df "koi_steff";
  star_radius ← getitem df "koi_srad";
  star_mass ← getitem df "koi_smass";
  Ok (DataFrame_of_columns (length (rows df))
        [("mission", Scalar (Str "Kepler"));
         ("object_name", Series object_name);
         ("disposition", Series disposition);
         ("period", Series period);
         ("planet_radius", Series planet_radius);
         ("star_temp", Series star_temp);
         ("star_radius", Series star_radius);
         ("star_mass", Series star_mass);
         ("discovery_facility", Scalar (Str "Kepler"))]).

(** [df[c] if c in df.columns else pd.NA] *)
Definition optional_column (df : DataFrame) (c : string) : result column_data :=
  if decide (c ∈ columns df) then Series <$> getitem df c else Ok (Scalar NA).

(** The [disposition_map] of [convert_tess_to_standard] *)
Definition disposition_map : gmap string string :=
  list_to_map
    [("CP", "CANDIDATE"); ("FP", "FALSE POSITIVE"); ("PC", "CANDIDATE");
     ("APC", "CANDIDATE"); ("KP", "CONFIRMED")].

(** [df['tfopwg_disp'].map(disposition_map).fillna(df['tfopwg_disp'])],
    cell by cell *)
Definition tess_disposition (c : cell) : cell :=
  fillna (series_map disposition_map c) c.

Definition convert_k2_to_standard (df : DataFrame) : result DataFrame :=
  object_name ← (if decide ("epic_name" ∈ columns df) then getitem df "epic_name"
                 else getitem df "epic_candname");
  disposition ← getitem df "k2c_disp";
  period ← optional_column df "pl_orbper";
  planet_radius ← optional_column df "pl_rade";
  star_temp ← optional_column df "st_teff";
  star_radius ← optional_column df "st_rad";
  star_mass ← optional_column df "st_mass";
  Ok (DataFrame_of_columns (length (rows df))
        [("mission", Scalar (Str "K2"));
         ("object_name", Series object_name);
         ("disposition", Series disposition);
         ("period", period);
         ("planet_radius", planet_radius);
         ("star_temp", star_temp);
         ("star_radius", star_radius);
         ("star_mass", star_mass);
         ("discovery_facility", Scalar (Str "K2"))]).

Section Stringify.

(** Python's [str] of a float (its shortest round-trip literal) is not
    repository code: it is a parameter of whatever stringifies a cell. *)
Variable float_str : float → string.

(** [str(c)], as [astype(str)] applies it *)
Definition cell_str (c : cell) : string :=
  match c with
  | Str s => s
  | Num x => float_str x
  | NA => "<NA>"
  end.

Definition convert_tess_to_standard (df : DataFrame) : result DataFrame :=
  toi ← getitem df "toi";
  tfopwg_disp ← getitem df "tfopwg_disp";
  period ← optional_column df "pl_orbper";
  planet_radius ← optional_column df "pl_rade";
  star_temp ← optional_column df "st_teff";
  star_radius ← optional_column df "st_rad";
  star_mass ← optional_column df "st_mass";
  Ok (DataFrame_of_columns (length (rows df))
        [("mission", Scalar (Str "TESS"));
         ("object_name", Series ((Str ∘ cell_str) <$> toi));
         ("disposition", Series (tess_disposition <$> tfopwg_disp));
         ("period", period);
         ("planet_radius", planet_radius);
         ("star_temp", star_temp);
         ("star_radius", star_radius);
         ("star_mass", star_mass);
         ("discovery_facility", Scalar (Str "TESS"))]).

(** *** Disposition reconciler (tests/script.py) *)

Definition disposition_mapping (mission : string) : gmap string string :=
  if decide (mission = "TESS") then
    list_to_map
      [("PC", "CANDIDATE"); ("CP", "CONFIRMED"); ("KP", "CONFIRMED");
       ("FP", "FALSE POSITIVE"); ("APC", "CANDIDATE"); ("FA", "FALSE POSITIVE");
       ("NTP", "FALSE POSITIVE"); ("EB", "FALSE POSITIVE");
       ("IS", "FALSE POSITIVE"); ("V", "FALSE POSITIVE");
       ("BEB", "FALSE POSITIVE")]
  else if decide (mission = "Kepler") then
    list_to_map
      [("CONFIRMED", "CONFIRMED"); ("FALSE POSITIVE", "FALSE POSITIVE");
       ("CANDIDATE", "CANDIDATE")]
  else if decide (mission = "K2") then
    list_to_map
      [("C", "CONFIRMED"); ("K", "CONFIRMED"); ("F", "FALSE POSITIVE");
       ("P", "CANDIDATE"); ("U", "CANDIDATE")]
  else
    list_to_map
      [("CONFIRMED", "CONFIRMED"); ("PLANET", "CONFIRMED");
       ("FALSE POSITIVE", "FALSE POSITIVE"); ("FP", "FALSE POSITIVE");
       ("CANDIDATE", "CANDIDATE"); ("BINARY", "FALSE POSITIVE");
       ("VARIABLE", "FALSE POSITIVE")].

(** [df[c] = series] *)
Definition setitem (df : DataFrame) (c : string) (s : list cell) : DataFrame :=
  {| columns := if decide (c ∈ columns df) then columns df else columns df ++ [c];
     rows := imap (λ i row, <[c := default (Num nan) (s !! i)]> row) (rows df) |}.

(** The contract of the reconciler on one raw value (§4.3): upper-case
    its text, map it, and pass an unmapped value through upper-cased.
    [normalize_disposition_extended_rows] compares the source with it. *)
Definition reconcile (mission : string) (c : cell) : cell :=
  let upper := Str (Py.upper (cell_str c)) in
  fillna (series_map (disposition_mapping mission) upper) upper.

Definition normalize_disposition_extended (df : DataFrame) (mission : string)
    : result DataFrame :=
  original ← getitem df "disposition";
  let df := setitem df "disposition_original" original in
  disposition ← getitem df "disposition";
  let df := setitem df "disposition" ((Str ∘ Py.upper ∘ cell_str) <$> disposition) in
  disposition ← getitem df "disposition";
  Ok (setitem df "disposition"
        ((λ c, fillna (series_map (disposition_mapping mission) c) c) <$> disposition)).

End Stringify.

(** ** Canonical records *)

(** A row of a standard-format table.  [object_name] is [None] when the
    cell is missing and [Some (str(cell))] otherwise; an unknown physical
    measurement is NaN. *)
Record CanonicalRecord : Type := mkCanonicalRecord {
  mission : string;
  object_name : option string;
  disposition : string;
  period : float;
  planet_radius : float;
  star_temp : float;
  star_radius : float;
  star_mass : float;
  discovery_facility : string
}.

Definition name_cell (name : option string) : cell :=
  match name with
  | Some s => Str s
  | None => Num nan
  end.

(** ** Deduplication engine (tests/script.py, [main_fixed_fetch])

    The step works on the cells of [all_data] as they are: the names of
    the Kepler and archive rows are text, those of the TESS rows (the
    [toi] column) are numbers, and a number is never the same name as a
    text. *)

(** The dictionary of [all_data['disposition'].map({'CONFIRMED': 1, ...})] *)
Definition priority_map : gmap string float :=
  list_to_map [("CONFIRMED", 1%float); ("CANDIDATE", 2%float);
               ("FALSE POSITIVE", 3%float)].

(** [s.map(priority_map)] on one cell: NaN for a value outside the
    dictionary. *)
Definition priority (c : cell) : cell :=
  match c with
  | Str s => Num (default nan (priority_map !! s))
  | _ => Num nan
  end.

(** The row after [all_data['priority'] = ...] *)
Definition with_priority (row : gmap string cell) : gmap string cell :=
  <["priority" := priority (at_column "disposition" row)]> row.

(** Ascending order of the cells of a sort key, as [sort_values] on
    several keys has it ([na_position='last']): numbers in numeric order,
    before text in code point order, before the missing cells. *)
Definition cell_le (c1 c2 : cell) : bool :=
  if isna c2 then true
  else if isna c1 then false
  else match c1, c2 with
       | Num x, Num y => (x <=? y)%float
       | Num _, Str _ => true
       | Str _, Num _ => false
       | Str s, Str t => String.leb s t
       | _, _ => true
       end.

(** Two cells that [sort_values] gives the same place: two missing
    cells, two equal numbers or twice the same text. *)
Definition cell_eqb (c1 c2 : cell) : bool :=
  if isna c1 then isna c2
  else match c1, c2 with
       | Num x, Num y => (x =? y)%float
       | Str s, Str t => String.eqb s t
       | _, _ => false
       end.

(** Two cells that [drop_duplicates] takes for the same value, as the
    hash table of pandas 2 compares the objects of a column: two equal
    numbers, NaN being the same value as NaN, twice the same text, or
    twice [pd.NA].  NaN and [pd.NA] are two values here, though they share
    the last place of the sort order. *)
Definition cell_same (c1 c2 : cell) : bool :=
  match c1, c2 with
  | Str s, Str t => String.eqb s t
  | Num x, Num y => (x =? y)%float || (is_nan x && is_nan y)
  | NA, NA => true
  | _, _ => false
  end.

(** The order of the rows under the sort keys [keys], the first key
    first. *)
Fixpoint lex_le (keys : list string) (r1 r2 : gmap string cell) : bool :=
  match keys with
  | [] => true
  | c :: keys =>
      if cell_eqb (at_column c r1) (at_column c r2) then lex_le keys r1 r2
      else cell_le (at_column c r1) (at_column c r2)
  end.

Section Sorting.
Context {A : Type} (le : A → A → bool).

Fixpoint insert_sorted (x : A) (l : list A) : list A :=
  match l with
  | [] => [x]
  | y :: l' => if le x y then x :: l else y :: insert_sorted x l'
  end.

(** A stable sort, as pandas' sort on several keys is. *)
Fixpoint stable_sort (l : list A) : list A :=
  match l with
  | [] => []
  | x :: l' => insert_sorted x (stable_sort l')
  end.
End Sorting.

(** [df.sort_values(keys)] for a list of labels: [KeyError] for the first
    label that is no column. *)
Definition sort_values (df : DataFrame) (keys : list string) : result DataFrame :=
  match filter (λ c, c ∉ columns df) keys with
  | [] => Ok {| columns := columns df;
                rows := stable_sort (lex_le keys) (rows df) |}
  | c :: _ => Raise (KeyError [c])
  end.

(** The rows that [drop_duplicates(subset=[c], keep='first')] keeps:
    [seen] holds the cells under [c] of the rows kept so far. *)
Fixpoint keep_first (c : string) (seen : list cell) (l : list (gmap string cell))
    : list (gmap string cell) :=
  match l with
  | [] => []
  | r :: l' =>
      if existsb (cell_same (at_column c r)) seen then keep_first c seen l'
      else r :: keep_first c (at_column c r :: seen) l'
  end.

(** [df.drop_duplicates(subset=[c], keep='first')] *)
Definition drop_duplicates (df : DataFrame) (c : string) : result DataFrame :=
  if decide (c ∈ columns df)
  then Ok {| columns := columns df; rows := keep_first c [] (rows df) |}
  else Raise (KeyError [c]).

(** [df.drop(columns=[c])] *)
Definition drop (df : DataFrame) (c : string) : result DataFrame :=
  if decide (c ∈ columns df)
  then Ok {| columns := filter (λ c', c' ≠ c) (columns df);
             rows := delete c <$> rows df |}
  else Raise (KeyError [c]).

(** The rows that the step keeps, before it drops their [priority]
    cells *)
Definition kept_rows (all_data : DataFrame) : list (gmap string cell) :=
  keep_first "object_name" []
    (stable_sort (lex_le ["object_name"; "priority"])
       (with_priority <$> rows all_data)).

(** The deduplication step of [main_fixed_fetch] *)
Definition deduplicate (all_data : DataFrame) : result DataFrame :=
  disposition ← getitem all_data "disposition";
  let all_data := setitem all_data "priority" (priority <$> disposition) in
  all_data ← sort_values all_data ["object_name"; "priority"];
  all_data ← drop_duplicates all_data "object_name";
  drop all_data "priority".

(** ** Prediction matcher (generate_final_output.py) *)

Record PredictionRecord : Type := mkPredictionRecord {
  pred_object_name : option string;
  predicted_probability : float
}.

Definition column_order : list string :=
  ["mission"; "object_name"; "disposition"; "period"; "planet_radius";
   "star_temp"; "star_radius"; "star_mass"; "discovery_facility"].

(** [row.to_dict()] for a row of [all_data], which by then carries the
    [normalized_name] column. *)
Definition to_dict (row : CanonicalRecord) (normalized_name : string)
    : gmap string cell :=
  list_to_map
    [("mission", Str (mission row));
     ("object_name", name_cell (object_name row));
     ("disposition", Str (disposition row));
     ("period", Num (period row));
     ("planet_radius", Num (planet_radius row));
     ("star_temp", Num (star_temp row));
     ("star_radius", Num (star_radius row));
     ("star_mass", Num (star_mass row));
     ("discovery_facility", Str (discovery_facility row));
     ("normalized_name", Str normalized_name)].

(** One iteration of the loop that fills [data_lookup] *)
Definition lookup_step (data_lookup : gmap string (gmap string cell))
    (row : CanonicalRecord * string) : gmap string (gmap string cell) :=
  let norm_name := row.2 in
  if bool_decide (norm_name ≠ "") && bool_decide (data_lookup !! norm_name = None)
  then <[norm_name := to_dict row.1 norm_name]> data_lookup
  else data_lookup.

Definition build_lookup (all_data : list (CanonicalRecord * string))
    : gmap string (gmap string cell) :=
  foldl lookup_step ∅ all_data.

(** ['CONFIRMED' if prob >= threshold else 'FALSE POSITIVE'] *)
Definition predicted_disposition (prob threshold : float) : string :=
  if (threshold <=? prob)%float then "CONFIRMED" else "FALSE POSITIVE".

(** The record of an unmatched prediction *)
Definition placeholder (idx : nat) (predicted : string) : gmap string cell :=
  list_to_map
    [("mission", Str "ARCHIVE");
     ("object_name", Str ("PLANET_" ++ Py.str_of_int (N.of_nat idx)));
     ("disposition", Str predicted);
     ("period", Num nan);
     ("planet_radius", Num nan);
     ("star_temp", Num nan);
     ("star_radius", Num nan);
     ("star_mass", Num nan);
     ("discovery_facility", Str "UNKNOWN")].

(** The body of the loop over [predictions.iterrows()]: the record
    appended to [matched_data], and the name appended to [unmatched] when
    the prediction has no archival row. *)
Definition match_step (data_lookup : gmap string (gmap string cell))
    (threshold : float) (idx : nat) (pred_row : PredictionRecord)
    (norm_name : string) : gmap string cell * option (option string) :=
  let predicted :=
    predicted_disposition (predicted_probability pred_row) threshold in
  match data_lookup !! norm_name with
  | Some data_row => (<["disposition" := Str predicted]> data_row, None)
  | None => (placeholder idx predicted, Some (pred_object_name pred_row))
  end.

(** The loop from index [idx] on: [matched_data] and [unmatched]. *)
Fixpoint match_loop (data_lookup : gmap string (gmap string cell))
    (threshold : float) (idx : nat) (predictions : list (PredictionRecord * string))
    : list (gmap string cell) * list (option string) :=
  match predictions with
  | [] => ([], [])
  | (pred_row, norm_name) :: predictions =>
      let step := match_step data_lookup threshold idx pred_row norm_name in
      let rest := match_loop data_lookup threshold (S idx) predictions in
      (step.1 :: rest.1, (option_list step.2 ++ rest.2)%list)
  end.

(** [predictions] is a table read by [load_predictions], indexed from 0;
    [all_data] a standard-format table. *)
Definition match_predictions_with_data (predictions : list PredictionRecord)
    (all_data : list CanonicalRecord) (threshold : float) : result DataFrame :=
  pred_names ← mapM (normalize_object_name ∘ pred_object_name) predictions;
  data_names ← mapM (normalize_object_name ∘ object_name) all_data;
  let data_lookup := build_lookup (zip all_data data_names) in
  let matched_data :=
    (match_loop data_lookup threshold 0 (zip predictions pred_names)).1 in
  select (DataFrame_of_records matched_data) column_order.

(** ** The matcher as the specification words it (§4.5)

    These definitions follow the specification, not the source; the
    source is compared with them in [match_predictions_with_data_spec]. *)

(** The first record, in input order, whose canonical key is [key] *)
Definition first_seen (key : string) (records : list CanonicalRecord)
    : option CanonicalRecord :=
  snd <$> list_find (λ r, canonical_key (object_name r) = key) records.

(** A copy of [r] with its disposition overwritten *)
Definition with_disposition (r : CanonicalRecord) (d : string) : CanonicalRecord :=
  {| mission := mission r;
     object_name := object_name r;
     disposition := d;
     period := period r;
     planet_radius := planet_radius r;
     star_temp := star_temp r;
     star_radius := star_radius r;
     star_mass := star_mass r;
     discovery_facility := discovery_facility r |}.

(** A canonical record as a row of nine cells *)
Definition record_row (r : CanonicalRecord) : gmap string cell :=
  list_to_map
    [("mission", Str (mission r));
     ("object_name", name_cell (object_name r));
     ("disposition", Str (disposition r));
     ("period", Num (period r));
     ("planet_radius", Num (planet_radius r));
     ("star_temp", Num (star_temp r));
     ("star_radius", Num (star_radius r));
     ("star_mass", Num (star_mass r));
     ("discovery_facility", Str (discovery_facility r))].

(** The output row of the prediction at position [i]: the empty key
    matches nothing. *)
Definition spec_row (records : list CanonicalRecord) (threshold : float)
    (i : nat) (p : PredictionRecord) : gmap string cell :=
  let predicted := predicted_disposition (predicted_probability p) threshold in
  let key := canonical_key (pred_object_name p) in
  match (if decide (key = "") then None else first_seen key records) with
  | Some r => record_row (with_disposition r predicted)
  | None => placeholder i predicted
  end.

(** ** Auxiliary notions of the statements *)

(** A dictionary that binds the nine canonical labels *)
Definition complete (row : gmap string cell) : Prop :=
  list_to_set column_order ⊆ dom row.

(** The source column of each physical measurement, for TESS and K2 *)
Definition physical_sources : list (string * string) :=
  [("pl_orbper", "period"); ("pl_rade", "planet_radius");
   ("st_teff", "star_temp"); ("st_rad", "star_radius");
   ("st_mass", "star_mass")].

(** The Kepler source columns of the physical measurements *)
Definition kepler_physical_sources : list string :=
  ["koi_period"; "koi_prad"; "koi_steff"; "koi_srad"; "koi_smass"].

(** ** Sample tables

    Rows in the style of the sample data of test_final_output.py and of
    the scenarios of the specification (§8). *)

Definition kepler_711 : CanonicalRecord :=
  {| mission := "Kepler"; object_name := Some "K00711.03";
     disposition := "CANDIDATE"; period := 124.5; planet_radius := 2.5;
     star_temp := 5497; star_radius := 1; star_mass := 1;
     discovery_facility := "Kepler" |}.

(** A later row with the same canonical key as [kepler_711] *)
Definition tess_711 : CanonicalRecord :=
  {| mission := "TESS"; object_name := Some "711.03";
     disposition := "FALSE POSITIVE"; period := 3.5; planet_radius := 7;
     star_temp := 6640; star_radius := 2.5; star_mass := 1;
     discovery_facility := "TESS" |}.

(** A row without a name *)
Definition nameless : CanonicalRecord :=
  {| mission := "K2"; object_name := None;
     disposition := "CANDIDATE"; period := 8.5; planet_radius := 2;
     star_temp := 5400; star_radius := 1; star_mass := 1;
     discovery_facility := "K2" |}.

(** The colliding pair of the specification's scenario *)
Definition kepler_1_01 : CanonicalRecord :=
  {| mission := "Kepler"; object_name := Some "K00001.01";
     disposition := "CANDIDATE"; period := 2.5; planet_radius := 13;
     star_temp := 5800; star_radius := 1; star_mass := 1;
     discovery_facility := "Kepler" |}.

Definition tess_1_01 : CanonicalRecord :=
  {| mission := "TESS"; object_name := Some "1.01";
     disposition := "CONFIRMED"; period := 2.5; planet_radius := 13;
     star_temp := 5800; star_radius := 1; star_mass := 1;
     discovery_facility := "TESS" |}.

(** The colliding pair as a table, the TESS name as text *)
Definition colliding_pair : DataFrame :=
  {| columns := column_order;
     rows := [record_row kepler_1_01; record_row tess_1_01] |}.

(** The colliding pair with the TESS name as the number that the [toi]
    column of the archive holds: the float 1.01 *)
Definition colliding_pair_toi : DataFrame :=
  {| columns := column_order;
     rows := [record_row kepler_1_01;
              <["object_name" := Num 0x1.028f5c28f5c29p+0]> (record_row tess_1_01)] |}.

(** Three rows under one raw name *)
Definition triple_711 : DataFrame :=
  {| columns := column_order;
     rows := record_row <$> [with_disposition kepler_711 "FALSE POSITIVE";
                             with_disposition kepler_711 "CONFIRMED";
                             kepler_711] |}.

(** A Kepler table in which the [koi_smass] column is absent *)
Definition kepler_without_smass : DataFrame :=
  {| columns := ["kepoi_name"; "koi_disposition"; "koi_period"; "koi_prad";
                 "koi_steff"; "koi_srad"];
     rows := [list_to_map
                [("kepoi_name", Str "K00711.03");
                 ("koi_disposition", Str "CANDIDATE");
                 ("koi_period", Num 124.5); ("koi_prad", Num 2.5);
                 ("koi_steff", Num 5497); ("koi_srad", Num 1)]] |}.

(** A K2 table in which the [st_mass] column is absent *)
Definition k2_without_mass : DataFrame :=
  {| columns := ["epic_name"; "k2c_disp"; "pl_orbper"; "pl_rade"; "st_teff";
                 "st_rad"];
     rows := [list_to_map
                [("epic_name", Str "EPIC 201367065");
                 ("k2c_disp", Str "CANDIDATE");
                 ("pl_orbper", Num 8.5); ("pl_rade", Num 2);
                 ("st_teff", Num 5400); ("st_rad", Num 1)]] |}.

(** A fetched TESS table, its disposition column already renamed *)
Definition tess_fetched : DataFrame :=
  {| columns := ["toi"; "disposition"];
     rows := [list_to_map [("toi", Str "1468.01"); ("disposition", Str "cp")]] |}.

(** * Further notions *)

(** ** Identifier normalizer *)

(** The prefixes the loop of [normalize_object_name] can remove: [K] is
    tried first, so it is found for every name that starts with [KOI-]
    or [KOI␣]. *)
Definition effective_prefixes : list string :=
  ["K"; "TOI-"; "TOI "; "EPIC "; "EPIC-"].

Definition shadowed_prefixes : list string := ["KOI-"; "KOI "].

(** ** Prediction matcher *)

(** The predictions the loop of [match_predictions_with_data] reports in
    [unmatched]: those whose key is empty or belongs to no record. *)
Definition unmatched_prediction (records : list CanonicalRecord)
    (p : PredictionRecord) : bool :=
  let key := canonical_key (pred_object_name p) in
  match (if decide (key = "") then None else first_seen key records) with
  | Some _ => false
  | None => true
  end.

(** A prediction for [kepler_711], under its bare number *)
Definition prediction_711 : PredictionRecord :=
  {| pred_object_name := Some "711.03"; predicted_probability := 0.875 |}.

(** A prediction that no sample record matches *)
Definition prediction_999 : PredictionRecord :=
  {| pred_object_name := Some "999.99"; predicted_probability := 0.25 |}.

(** The table the matcher returns for [prediction_711] *)
Definition output_711 : DataFrame :=
  {| columns := column_order;
     rows := [record_row (with_disposition kepler_711 "CONFIRMED")] |}.

(** ** Schema mapper, row by row

    What each mapper makes of one raw row, as its docstring lists the
    column mappings; the source builds the table column by column and is
    compared with these in [convert_kepler_rows], [convert_tess_rows]
    and [convert_k2_rows]. *)

Definition kepler_columns : list string :=
  ["kepoi_name"; "koi_disposition"; "koi_period"; "koi_prad"; "koi_steff";
   "koi_srad"; "koi_smass"].

Definition kepler_row (row : gmap string cell) : gmap string cell :=
  list_to_map
    [("mission", Str "Kepler");
     ("object_name", at_column "kepoi_name" row);
     ("disposition", at_column "koi_disposition" row);
     ("period", at_column "koi_period" row);
     ("planet_radius", at_column "koi_prad" row);
     ("star_temp", at_column "koi_steff" row);
     ("star_radius", at_column "koi_srad" row);
     ("star_mass", at_column "koi_smass" row);
     ("discovery_facility", Str "Kepler")].

(** The cell of an optional source column: [pd.NA] when the table has no
    such column. *)
Definition optional_cell (df : DataFrame) (c : string) (row : gmap string cell)
    : cell :=
  if decide (c ∈ columns df) then at_column c row else NA.

Definition tess_row (float_str : float → string) (df : DataFrame)
    (row : gmap string cell) : gmap string cell :=
  list_to_map
    [("mission", Str "TESS");
     ("object_name", Str (cell_str float_str (at_column "toi" row)));
     ("disposition", tess_disposition (at_column "tfopwg_disp" row));
     ("period", optional_cell df "pl_orbper" row);
     ("planet_radius", optional_cell df "pl_rade" row);
     ("star_temp", optional_cell df "st_teff" row);
     ("star_radius", optional_cell df "st_rad" row);
     ("star_mass", optional_cell df "st_mass" row);
     ("discovery_facility", Str "TESS")].

Definition k2_row (df : DataFrame) (row : gmap string cell) : gmap string cell :=
  list_to_map
    [("mission", Str "K2");
     ("object_name",
      if decide ("epic_name" ∈ columns df) then at_column "epic_name" row
      else at_column "epic_candname" row);
     ("disposition", at_column "k2c_disp" row);
     ("period", optional_cell df "pl_orbper" row);
     ("planet_radius", optional_cell df "pl_rade" row);
     ("star_temp", optional_cell df "st_teff" row);
     ("star_radius", optional_cell df "st_rad" row);
     ("star_mass", optional_cell df "st_mass" row);
     ("discovery_facility", Str "K2")].

(** The three values of a reconciled disposition *)
Definition canonical_dispositions : list string :=
  ["CONFIRMED"; "CANDIDATE"; "FALSE POSITIVE"].

(** A full Kepler table of one row *)
Definition kepler_full : DataFrame :=
  {| columns := kepler_columns;
     rows := [list_to_map
                [("kepoi_name", Str "K00711.03");
                 ("koi_disposition", Str "CANDIDATE");
                 ("koi_period", Num 124.5); ("koi_prad", Num 2.5);
                 ("koi_steff", Num 5497); ("koi_srad", Num 1);
                 ("koi_smass", Num 1)]] |}.

(** A TESS table with the two required columns and one optional column *)
Definition tess_raw : DataFrame :=
  {| columns := ["toi"; "tfopwg_disp"; "pl_orbper"];
     rows := [list_to_map
                [("toi", Str "1468.01"); ("tfopwg_disp", Str "CP");
                 ("pl_orbper", Num 15.5)];
              list_to_map
                [("toi", Str "5150.01"); ("tfopwg_disp", Str "FA");
                 ("pl_orbper", Num 1.75)]] |}.

(** ** Concatenation of tables *)

(** The frame that [pd.concat(frames, ignore_index=True)] builds from a
    non-empty list: the labels in order of first appearance and the rows
    of each frame in turn, each row with the cells of its own frame's
    columns (under any other label it reads as NaN). *)
Definition concat_frames (frames : list DataFrame) : DataFrame :=
  {| columns := foldl (λ (acc : list string) df, (acc ++ filter (λ c, c ∉ acc) (columns df))%list)
                      [] frames;
     rows := frames ≫= (λ df, project (columns df) <$> rows df) |}.

(** [pd.concat(frames, ignore_index=True)]: [ValueError] on an empty
    list. *)
Definition concat (frames : list DataFrame) : result DataFrame :=
  match frames with
  | [] => Raise ValueError
  | _ => Ok (concat_frames frames)
  end.

(** [combine_all_data] (convert_to_standard_format.py).  [files] holds,
    for each input path in turn, the table read from it, or [None] when
    the path does not exist.  The result is the table written to the
    output path, if any, and what the function returns or raises. *)
Definition combine_all_data (files : list (option DataFrame))
    : option DataFrame * result (option DataFrame) :=
  match omap id files with
  | [] => (None, Ok None)
  | all_data =>
      match concat all_data with
      | Raise e => (None, Raise e)
      | Ok combined_df =>
          (Some combined_df,
           _ ← getitem combined_df "disposition";
           _ ← getitem combined_df "mission";
           Ok (Some combined_df))
      end
  end.

(** [pd.DataFrame()] *)
Definition empty_frame : DataFrame := {| columns := []; rows := [] |}.

(** [load_standard_data] (generate_final_output.py): each argument is the
    table read from the file, or [None] when the file does not exist. *)
Definition load_standard_data (candidates false_positives : option DataFrame)
    : result DataFrame :=
  concat [default empty_frame candidates; default empty_frame false_positives].

(** The standard-format table whose rows are the records [records] *)
Definition standard_frame (records : list CanonicalRecord) : DataFrame :=
  {| columns := column_order; rows := record_row <$> records |}.

(** A table in the standard format *)
Definition standard_table : DataFrame :=
  {| columns := column_order; rows := [record_row kepler_711; record_row tess_711] |}.

(** ** Order of the deduplicated table *)

(** Ascending order of [object_name] *)
Definition name_le (r1 r2 : gmap string cell) : Prop :=
  cell_le (at_column "object_name" r1) (at_column "object_name" r2) = true.

(** A table with a conflict on one name and a row outside the priority
    dictionary *)
Definition conflicting : DataFrame :=
  {| columns := column_order;
     rows := record_row <$> [with_disposition kepler_711 "FALSE POSITIVE";
                             with_disposition kepler_711 "CONFIRMED";
                             with_disposition tess_711 "PC"] |}.

(** What the deduplication keeps of [conflicting] *)
Definition conflicting_deduplicated : DataFrame :=
  {| columns := column_order;
     rows := [record_row (with_disposition tess_711 "PC");
              record_row (with_disposition kepler_711 "CONFIRMED")] |}.

(** Names of both kinds, and one missing *)
Definition mixed_names : DataFrame :=
  {| columns := ["object_name"; "disposition"];
     rows := [list_to_map [("object_name", Str "K1"); ("disposition", Str "CANDIDATE")];
              list_to_map [("object_name", Num nan); ("disposition", Str "CANDIDATE")];
              list_to_map [("object_name", Num 10.25); ("disposition", Str "CANDIDATE")];
              list_to_map [("object_name", Str "5"); ("disposition", Str "CANDIDATE")];
              list_to_map [("object_name", Num 9.5); ("disposition", Str "CANDIDATE")]] |}.

(** The same rows in the order of the deduplicated table *)
Definition mixed_names_sorted : DataFrame :=
  {| columns := ["object_name"; "disposition"];
     rows := [list_to_map [("object_name", Num 9.5); ("disposition", Str "CANDIDATE")];
              list_to_map [("object_name", Num 10.25); ("disposition", Str "CANDIDATE")];
              list_to_map [("object_name", Str "5"); ("disposition", Str "CANDIDATE")];
              list_to_map [("object_name", Str "K1"); ("disposition", Str "CANDIDATE")];
              list_to_map [("object_name", Num nan); ("disposition", Str "CANDIDATE")]] |}.

(** ** Reconciled tables *)

(** A fetched table with a column beside the disposition *)
Definition tess_fetched_named : DataFrame :=
  {| columns := ["object_name"; "disposition"];
     rows := [list_to_map [("object_name", Str "711.03"); ("disposition", Str "cp")];
              list_to_map [("object_name", Str "712.01"); ("disposition", Str "Ambiguous")]] |}.

(** ** Download with retries (tests/script.py, [fetch_table_with_retry]) *)

Module Fetch.

(** What one [requests.get] of the archive gives: status 200 with the
    table that [pd.read_csv] parses from the body, another status, or an
    exception (of the request or of the parser) with its message. *)
Inductive response : Type :=
  | Status200 (df : DataFrame)
  | StatusOther (status_code : nat)
  | RequestRaises (e : string).

(** The exceptions that leave the function *)
Inductive exn : Type :=
  | ValueError
  | ConnectionError
  | Exception (e : string).

(** What the caller observes, in order *)
Inductive event : Type :=
  | Request
  | Sleep (seconds : nat).

(** [Return (Some (df, dispo_col))] stands for the table
    [df.rename(columns={dispo_col: 'disposition'})] with the column
    [mission] set; [Return None] for the [return None] after the loop. *)
Inductive outcome : Type :=
  | Return (v : option (DataFrame * string))
  | Raises (e : exn).

Definition lower_char (c : ascii) : ascii :=
  let n := nat_of_ascii c in
  if ((65 <=? n) && (n <=? 90))%nat then ascii_of_nat (n + 32) else c.

Fixpoint lower (s : string) : string :=
  match s with
  | EmptyString => EmptyString
  | String c s => String (lower_char c) (lower s)
  end.

(** [sub in s] *)
Fixpoint contains_str (sub s : string) : bool :=
  String.prefix sub s ||
  match s with
  | EmptyString => false
  | String _ s' => contains_str sub s'
  end.

(** The disposition column of a downloaded table: the first of
    [possible_dispo_cols] that the table has, else its first column whose
    lower-cased label contains [disp]. *)
Definition find_dispo_col (possible_dispo_cols : list string) (df : DataFrame)
    : option string :=
  match list_find (λ c, c ∈ columns df) possible_dispo_cols with
  | Some (_, c) => Some c
  | None =>
      head (filter (λ col, contains_str "disp" (lower col) = true) (columns df))
  end.

Section Loop.
Variable server : nat → response.
Variable possible_dispo_cols : list string.
Variable max_retries : nat.

(** The loop [for attempt in range(max_retries)] from [attempt] on, with
    [remaining] iterations to go.  [server attempt] is the archive's
    answer to the request of that attempt. *)
Fixpoint attempts (remaining attempt : nat) : list event * outcome :=
  match remaining with
  | 0 => ([], Return None)
  | S remaining' =>
      let continue :=
        let '(log, r) := attempts remaining' (S attempt) in
        (Request :: Sleep (2 ^ attempt) :: log, r) in
      (* [except Exception as e] *)
      let except (e : exn) :=
        if decide (attempt = max_retries - 1) then ([Request], Raises e)
        else continue in
      match server attempt with
      | Status200 df =>
          match find_dispo_col possible_dispo_cols df with
          | Some dispo_col => ([Request], Return (Some (df, dispo_col)))
          | None => except ValueError
          end
      | StatusOther _ =>
          if decide (attempt = max_retries - 1) then except ConnectionError
          else continue
      | RequestRaises e => except (Exception e)
      end
  end.

Definition fetch_table_with_retry : list event * outcome :=
  attempts max_retries 0.

End Loop.

(** The function for any Python integer [max_retries]:
    [range(max_retries)] is empty when it is negative, and for a
    positive one the loop is the one above. *)
Definition fetch_table_with_retry_Z (server : nat → response)
    (possible_dispo_cols : list string) (max_retries : Z)
    : list event * outcome :=
  fetch_table_with_retry server possible_dispo_cols (Z.to_nat max_retries).

(** A response that ends the loop with a table *)
Definition usable (possible_dispo_cols : list string) (r : response) : bool :=
  match r with
  | Status200 df => bool_decide (is_Some (find_dispo_col possible_dispo_cols df))
  | _ => false
  end.

(** The exception of a response that is not usable *)
Definition failure (r : response) : exn :=
  match r with
  | Status200 _ => ValueError
  | StatusOther _ => ConnectionError
  | RequestRaises e => Exception e
  end.

(** The requests and pauses of [k] failed attempts before a last one *)
Definition backoff (k : nat) : list event :=
  (seq 0 k ≫= λ attempt, [Request; Sleep (2 ^ attempt)]) ++ [Request].

Definition slept (log : list event) : nat :=
  sum_list ((λ ev, match ev with Sleep s => s | Request => 0%nat end) <$> log).

Definition requests (log : list event) : nat :=
  sum_list ((λ ev, match ev with Sleep _ => 0%nat | Request => 1%nat end) <$> log).

(** An archive that is down twice and then answers *)
Definition flaky (attempt : nat) : response :=
  match attempt with
  | 0 => StatusOther 503
  | 1 => RequestRaises "timeout"
  | _ => Status200 tess_raw
  end.

End Fetch.

(** ** Combination of the fetched sources (tests/script.py, [main_fixed_fetch]) *)

Definition base_cols : list string := ["mission"; "object_name"; "disposition"].

Definition optional_cols : list string :=
  ["period"; "planet_radius"; "star_temp"; "star_radius"; "star_mass";
   "discovery_facility"].

(** [base_cols + [col for col in optional_cols if col in df.columns]] *)
Definition available_cols (df : DataFrame) : list string :=
  base_cols ++ filter (λ col, col ∈ columns df) optional_cols.

(** Step 5 of [main_fixed_fetch], after the check that some source was
    fetched: the loop over [all_dataframes] and the concatenation. *)
Definition combine_sources (all_dataframes : list DataFrame) : result DataFrame :=
  match all_dataframes with
  | [] => Raise ValueError
  | _ =>
      combined_dfs ← mapM (λ df, select df (available_cols df)) all_dataframes;
      concat combined_dfs
  end.

(** A source with one optional column and a column outside the format *)
Definition archive_source : DataFrame :=
  {| columns := ["object_name"; "disposition"; "mission"; "period"; "pl_name"];
     rows := [list_to_map [("object_name", Str "Kepler-22 b"); ("disposition", Str "CONFIRMED");
                           ("mission", Str "ARCHIVE"); ("period", Num 289.5);
                           ("pl_name", Str "Kepler-22 b")]] |}.

(** * Properties *)

(** Close a conjunction of equations between convertible terms: by
    evaluation in the virtual machine when the terms are closed, by
    conversion when they hold variables. *)
Ltac by_compute := vm_compute; repeat split; reflexivity.
Ltac by_conversion := repeat split; reflexivity.

(** Close [Forall (λ x, regular (name x) = true) l] on a closed list. *)
Ltac regular_names := repeat (constructor; try reflexivity).

(** ** The [result] monad *)

Lemma mapM_Ok {A B} (f : A → result B) (g : A → B) (l : list A) :
  (∀ x, f x = Ok (g x)) → mapM f l = Ok (g <$> l).
Proof.
  intros Hf. induction l as [|x l IH]; [done|].
  cbn [mapM]. fold (mapM f l). rewrite Hf, IH. reflexivity.
Qed.

Lemma mapM_Ok_Forall {A B} (f : A → result B) (g : A → B) (l : list A) :
  Forall (λ x, f x = Ok (g x)) l → mapM f l = Ok (g <$> l).
Proof.
  induction 1 as [|x l Hx _ IH]; [done|].
  cbn [mapM]. fold (mapM f l). rewrite Hx, IH. reflexivity.
Qed.

Lemma mapM_Ok_inv {A B} (f : A → result B) (g : A → B) (l : list A) ks :
  (∀ x k, f x = Ok k → k = g x) → mapM f l = Ok ks → ks = g <$> l.
Proof.
  intros Hg. revert ks. induction l as [|x l IH]; intros ks.
  { by intros [= <-]. }
  cbn [mapM]. fold (mapM f l).
  destruct (f x) as [k|] eqn:Hx; [|done]. cbn [mbind result_bind].
  destruct (mapM f l) as [ks'|]; [|done]. cbn [mbind result_bind].
  intros [= <-]. by rewrite (Hg _ _ Hx), (IH ks').
Qed.

(** [mapM] over an appended list whose elements all succeed fails as
    [mapM] over the list itself does. *)
Lemma mapM_app_Ok {A B C} (f : A → result B) (g : A → B) (l extra : list A)
    (k : result C) :
  Forall (λ x, f x = Ok (g x)) extra →
  (_ ← mapM f (l ++ extra); k) = (_ ← mapM f l; k).
Proof.
  intros Hextra. induction l as [|x l IH].
  { cbn [app]. by rewrite (mapM_Ok_Forall _ _ _ Hextra). }
  cbn [app mapM]. fold (mapM f (l ++ extra)) (mapM f l).
  destruct (f x) as [y|]; [|done]. cbn [mbind result_bind].
  destruct (mapM f (l ++ extra)), (mapM f l); cbn [mbind result_bind] in *;
    done.
Qed.

(** ** Python strings *)

Section PyFacts.
Import Py.

Lemma lstrip_head s :
  lstrip s = "" ∨ ∃ c r, lstrip s = String c r ∧ isspace c = false.
Proof.
  induction s as [|c s IH]; [by left|].
  cbn [lstrip]. destruct (isspace c) eqn:Hc; [done|]. right. eauto.
Qed.

Lemma rstrip_idemp s : rstrip (rstrip s) = rstrip s.
Proof.
  induction s as [|c s IH]; [done|].
  cbn [rstrip]. destruct (rstrip s) as [|a r] eqn:Hr.
  - destruct (isspace c) eqn:Hc; [done|]. cbn [rstrip]. by rewrite Hc.
  - cbn [rstrip]. cbn [rstrip] in IH. by rewrite IH.
Qed.

Lemma lstrip_rstrip c r :
  isspace c = false → lstrip (rstrip (String c r)) = rstrip (String c r).
Proof.
  intros Hc. cbn [rstrip]. destruct (rstrip r); rewrite ?Hc; cbn [lstrip];
    by rewrite Hc.
Qed.

Lemma strip_idemp s : strip (strip s) = strip s.
Proof.
  unfold strip. destruct (lstrip_head s) as [->|(c & r & -> & Hc)]; [done|].
  by rewrite lstrip_rstrip, rstrip_idemp.
Qed.

Lemma lstrip_length s : (String.length (lstrip s) ≤ String.length s)%nat.
Proof.
  induction s as [|c s IH]; cbn [lstrip String.length]; [lia|].
  destruct (isspace c); cbn [String.length]; lia.
Qed.

Lemma rstrip_length s : (String.length (rstrip s) ≤ String.length s)%nat.
Proof.
  induction s as [|c s IH]; cbn [rstrip String.length]; [lia|].
  destruct (rstrip s); [destruct (isspace c)|];
    cbn [String.length] in *; lia.
Qed.

Lemma strip_length s : (String.length (strip s) ≤ String.length s)%nat.
Proof.
  unfold strip. pose proof (rstrip_length (lstrip s)).
  pose proof (lstrip_length s). lia.
Qed.

Lemma split_nonempty c s : ∃ p parts, split c s = p :: parts.
Proof.
  induction s as [|a s (p & parts & IH)]; cbn [split]; [eauto|].
  destruct (Ascii.eqb a c); [eauto|]. rewrite IH. eauto.
Qed.

Lemma join_cons sep p q parts :
  join sep (p :: q :: parts) = p ++ sep ++ join sep (q :: parts).
Proof. reflexivity. Qed.

(** [c.join(s.split(c)) == s] *)
Lemma join_split c s : join (String c "") (split c s) = s.
Proof.
  induction s as [|a s IH]; [done|].
  cbn [split]. destruct (split_nonempty c s) as (p & parts & Hs).
  rewrite Hs in IH |- *. destruct (Ascii.eqb_spec a c) as [->|_].
  - rewrite join_cons, IH. reflexivity.
  - destruct parts as [|q parts].
    + cbn in IH |- *. by rewrite IH.
    + rewrite join_cons in IH |- *. cbn. by rewrite <- IH.
Qed.

Lemma length_append s t :
  String.length (s ++ t) = (String.length s + String.length t)%nat.
Proof.
  induction s as [|a s IH]; [done|].
  change (S (String.length (s ++ t)) = S (String.length s + String.length t)).
  by rewrite IH.
Qed.

Lemma join_length sep p p' parts :
  (String.length p' < String.length p)%nat →
  (String.length (join sep (p' :: parts)) < String.length (join sep (p :: parts)))%nat.
Proof.
  intros Hlt. destruct parts as [|q parts]; [done|].
  rewrite !join_cons, !length_append. lia.
Qed.

Lemma all_digits_contains s : all_digits s = true → contains "." s = false.
Proof.
  induction s as [|a s IH]; [done|].
  cbn [all_digits contains]. intros [Ha Hs]%andb_prop.
  rewrite (IH Hs), orb_false_r. apply Ascii.eqb_neq. intros ->. discriminate.
Qed.

Lemma split_append_dot s t :
  contains "." s = false → split "." (s ++ "." ++ t) = s :: split "." t.
Proof.
  induction s as [|a s IH]; [done|].
  cbn [contains]. intros [Ha Hs]%orb_false_elim.
  change (String a s ++ "." ++ t) with (String a (s ++ "." ++ t)).
  cbn [split]. by rewrite Ha, (IH Hs).
Qed.

Lemma contains_append_dot s t : contains "." (s ++ "." ++ t) = true.
Proof.
  induction s as [|a s IH]; [done|].
  change (String a s ++ "." ++ t) with (String a (s ++ "." ++ t)).
  cbn [contains]. by rewrite IH, orb_true_r.
Qed.

Lemma join_split_tail p t : join "." (p :: split "." t) = p ++ "." ++ t.
Proof.
  destruct (split_nonempty "." t) as (q & parts & Hs).
  pose proof (join_split "." t) as Hj. rewrite Hs in Hj |- *.
  by rewrite join_cons, Hj.
Qed.

Lemma isdigit_char_uint a d :
  isdigit_char a = true → ∃ d', uint_of_char a (Some d) = Some d'.
Proof.
  destruct a as [[] [] [] [] [] [] [] []]; intros Ha; vm_compute in Ha;
    try discriminate Ha; cbn; eauto.
Qed.

Lemma all_digits_uint s :
  all_digits s = true → ∃ d, NilEmpty.uint_of_string s = Some d.
Proof.
  induction s as [|a s IH]; [by eexists|].
  cbn [all_digits NilEmpty.uint_of_string]. intros [Ha Hs]%andb_prop.
  destruct (IH Hs) as [d ->]. by apply isdigit_char_uint.
Qed.

Lemma int_within_limit s :
  (String.length s ≤ int_max_str_digits)%nat →
  int s = match NilZero.uint_of_string s with
          | Some d => Ok (N.of_uint d)
          | None => Raise ValueError
          end.
Proof.
  intros Hlen. unfold int.
  by rewrite (proj2 (Nat.ltb_ge _ _) Hlen).
Qed.

(** [int] refuses a string of more than [int_max_str_digits]
    characters. *)
Lemma int_over_limit s :
  (int_max_str_digits < String.length s)%nat → int s = Raise ValueError.
Proof.
  intros Hlen. unfold int. by rewrite (proj2 (Nat.ltb_lt _ _) Hlen).
Qed.

(** Within its limit, [int] accepts whatever [isdigit] does. *)
Lemma int_isdigit s :
  isdigit s = true → (String.length s ≤ int_max_str_digits)%nat →
  ∃ n, int s = Ok n.
Proof.
  intros Hs Hlen. rewrite (int_within_limit _ Hlen).
  destruct s as [|a s]; [done|].
  destruct (all_digits_uint _ Hs) as [d Hd].
  cbn [NilZero.uint_of_string]. rewrite Hd. eauto.
Qed.

Lemma drop_zeros_cases s :
  drop_zeros s = s ∨ (String.length (drop_zeros s) < String.length s)%nat.
Proof.
  induction s as [|a s IH]; [by left|].
  destruct a as [[] [] [] [] [] [] [] []]; try (by left).
  destruct s as [|b s]; [by left|].
  right. change (drop_zeros (String "0" (String b s)))
    with (drop_zeros (String b s)).
  destruct IH as [-> | IH]; cbn [String.length] in *; lia.
Qed.

Lemma string_of_unorm d :
  d ≠ Nil →
  NilZero.string_of_uint (unorm d) = drop_zeros (NilEmpty.string_of_uint d).
Proof.
  induction d as [|d IH| | | | | | | | |]; intros Hd; try done.
  rewrite unorm_D0. destruct d; try done; by rewrite IH.
Qed.

(** [str(int(s))] removes the redundant leading zeros of a digit string
    that [int] accepts. *)
Lemma str_int_isdigit s :
  isdigit s = true → (String.length s ≤ int_max_str_digits)%nat →
  str_of_int <$> int s = Ok (drop_zeros s).
Proof.
  intros Hs Hlen. rewrite (int_within_limit _ Hlen).
  unfold str_of_int. destruct s as [|a s]; [done|].
  destruct (all_digits_uint _ Hs) as [d Hd].
  cbn [NilZero.uint_of_string]. rewrite Hd. cbn [fmap result_fmap].
  rewrite Unsigned.to_of. apply NilEmpty.sus in Hd.
  rewrite <- Hd. f_equal. apply string_of_unorm. by intros ->.
Qed.

End PyFacts.

(** ** Identifier normalizer *)

Example normalize_blank : normalize_object_name (Some "  ") = Ok "".
Proof. reflexivity. Qed.

Example normalize_bare_prefix : normalize_object_name (Some "K") = Ok "".
Proof. reflexivity. Qed.

Example normalize_non_numeric_head :
  normalize_object_name (Some "EPIC-2113 b.01") = Ok "2113 b.01".
Proof. reflexivity. Qed.

Example normalize_several_points :
  normalize_object_name (Some "TOI-000.1.2.") = Ok "0.1.2.".
Proof. reflexivity. Qed.

Example normalize_no_point :
  normalize_object_name (Some "K00711") = Ok "00711".
Proof. reflexivity. Qed.

Lemma remove_prefix_find ps name :
  remove_prefix ps name =
  match find (λ prefix, Py.startswith (Py.upper name) (Py.upper prefix)) ps with
  | Some prefix => Py.slice_from (String.length prefix) name
  | None => name
  end.
Proof.
  induction ps as [|p ps IH]; [done|].
  cbn [remove_prefix find]. by destruct (Py.startswith _ _).
Qed.

Lemma remove_prefix_none name :
  has_prefix name = false → remove_prefix prefixes name = name.
Proof.
  unfold has_prefix. generalize prefixes. intros ps.
  induction ps as [|p ps IH]; [done|].
  cbn [existsb remove_prefix]. intros [-> Hps]%orb_false_elim. auto.
Qed.

(** On a numeric first part that [int] accepts, the point-separated name
    loses exactly the redundant leading zeros of that part. *)
Lemma normalize_head_digits p0 tail :
  Py.isdigit p0 = true → (String.length p0 ≤ Py.int_max_str_digits)%nat →
  normalize_head (p0 ++ "." ++ tail) = Ok (drop_zeros p0 ++ "." ++ tail).
Proof.
  intros Hd Hlen. unfold normalize_head.
  rewrite contains_append_dot, split_append_dot.
  - rewrite Hd, (str_int_isdigit _ Hd Hlen). cbn [mbind result_bind].
    by rewrite join_split_tail.
  - apply all_digits_contains. by destruct p0.
Qed.

(** On a numeric first part of more digits, [int] raises. *)
Lemma normalize_head_over_limit p0 tail :
  Py.isdigit p0 = true → (Py.int_max_str_digits < String.length p0)%nat →
  normalize_head (p0 ++ "." ++ tail) = Raise ValueError.
Proof.
  intros Hd Hlen. unfold normalize_head.
  rewrite contains_append_dot, split_append_dot.
  - by rewrite Hd, (int_over_limit _ Hlen).
  - apply all_digits_contains. by destruct p0.
Qed.

(** What the normalizer returns is the canonical key. *)
Lemma normalize_Ok_canonical_key name key :
  normalize_object_name name = Ok key → canonical_key name = key.
Proof. intros Hn. unfold canonical_key. by rewrite Hn. Qed.

(** [normalize_object_name] returns exactly when [int] accepts what the
    [isdigit] guard lets through, and raises [ValueError] otherwise. *)
Lemma normalize_object_name_cases name :
  normalize_object_name (Some name) =
  if within_int_limit name then Ok (canonical_key (Some name))
  else Raise ValueError.
Proof.
  unfold canonical_key, within_int_limit, int_argument, normalize_object_name.
  generalize (remove_prefix prefixes (Py.strip name)). intros s.
  unfold normalize_head. destruct (Py.contains "." s); [|done].
  destruct (split_nonempty "." s) as (p0 & parts & ->).
  destruct (Py.isdigit p0) eqn:Hd; [|done].
  destruct (String.length p0 <=? Py.int_max_str_digits)%nat eqn:Hlen.
  - apply Nat.leb_le in Hlen. by rewrite (str_int_isdigit _ Hd Hlen).
  - apply Nat.leb_gt in Hlen. by rewrite (int_over_limit _ Hlen).
Qed.

(** A regular name has a key. *)
Lemma normalize_regular name :
  regular name = true → normalize_object_name name = Ok (canonical_key name).
Proof.
  destruct name as [name|]; [|done]. cbn [regular].
  intros [_ Hlim]%andb_prop. by rewrite normalize_object_name_cases, Hlim.
Qed.

Lemma canonical_key_stripped name :
  Py.strip (canonical_key name) = canonical_key name.
Proof.
  unfold canonical_key, normalize_object_name.
  destruct name as [name|]; [|done].
  destruct (normalize_head _) as [name'|]; [|done].
  cbn. apply strip_idemp.
Qed.

(** The second pass over a key that starts with no prefix: it returns the
    key unless the key has a numeric head that is zero-padded or that
    [int] refuses. *)
Lemma normalize_stripped_key key :
  Py.strip key = key → has_prefix key = false →
  normalize_object_name (Some key) = Ok key ↔
  zero_padded_head key = false ∧ within_int_limit key = true.
Proof.
  intros Hs Hp.
  unfold normalize_object_name, zero_padded_head, within_int_limit, int_argument.
  rewrite Hs, (remove_prefix_none _ Hp). unfold normalize_head.
  destruct (Py.contains "." key); [|by cbn; rewrite Hs].
  destruct (split_nonempty "." key) as (p0 & parts & Hsplit).
  pose proof (join_split "." key) as Hj. rewrite Hsplit in Hj |- *.
  destruct (Py.isdigit p0) eqn:Hd;
    [|by cbn [mbind result_bind andb]; rewrite Hj, Hs].
  destruct (String.length p0 <=? Py.int_max_str_digits)%nat eqn:Hlen.
  2: { apply Nat.leb_gt in Hlen. rewrite (int_over_limit _ Hlen).
       cbn [fmap result_fmap mbind result_bind]. split; [done|by intros [_ ?]]. }
  apply Nat.leb_le in Hlen.
  rewrite (str_int_isdigit _ Hd Hlen). cbn [mbind result_bind andb].
  destruct (drop_zeros_cases p0) as [Heq|Hlt].
  - rewrite Heq, Hj, Hs, String.eqb_refl. done.
  - split.
    + intros Hk. exfalso.
      assert (Py.strip (Py.join "." (drop_zeros p0 :: parts)) = key) as Hk'
        by congruence.
      clear Hk. rename Hk' into Hk.
      pose proof (join_length "." _ _ parts Hlt) as Hlen'.
      pose proof (strip_length (Py.join "." (drop_zeros p0 :: parts))) as Hle.
      rewrite Hk in Hle. rewrite Hj in Hlen'. lia.
    + intros [Hz%negb_false_iff%String.eqb_eq _]. rewrite Hz in Hlt. lia.
Qed.

(** ** Frames *)

Lemma select_present df cols :
  (∀ c, c ∈ cols → c ∈ columns df) →
  select df cols = Ok {| columns := cols; rows := project cols <$> rows df |}.
Proof.
  intros Hin. unfold select.
  assert (filter (λ c, c ∉ columns df) cols = []) as ->; [|done].
  induction cols as [|c cols IH]; [done|].
  rewrite filter_cons. destruct (decide (c ∉ columns df)) as [Hc|_].
  - destruct Hc. apply Hin. by left.
  - apply IH. intros c' Hc'. apply Hin. by right.
Qed.

Lemma select_complete r records :
  Forall complete (r :: records) →
  select (DataFrame_of_records (r :: records)) column_order =
  Ok {| columns := column_order; rows := project column_order <$> r :: records |}.
Proof.
  intros Hc. apply select_present. intros c Hin. cbn [columns DataFrame_of_records].
  apply elem_of_elements, elem_of_union_list. exists (dom r). split.
  - rewrite fmap_cons. by left.
  - apply Forall_cons in Hc as [Hr _]. apply Hr. by apply elem_of_list_to_set.
Qed.

Lemma DataFrame_eq (d1 d2 : DataFrame) :
  columns d1 = columns d2 → rows d1 = rows d2 → d1 = d2.
Proof. destruct d1, d2. cbn. by intros -> ->. Qed.

Lemma in_columns_if (c c' : string) (cols : list string) :
  c ∈ cols → c ∈ (if decide (c' ∈ cols) then cols else (cols ++ [c'])%list).
Proof. intros Hc. destruct (decide _); [done|]. apply elem_of_app. by left. Qed.

Lemma added_column_if (c' : string) (cols : list string) :
  c' ∈ (if decide (c' ∈ cols) then cols else (cols ++ [c'])%list).
Proof. destruct (decide _); [done|]. apply elem_of_app. right. by left. Qed.

(** ** Prediction matcher *)

Lemma complete_to_dict r key : complete (to_dict r key).
Proof.
  unfold complete.
  assert (dom (to_dict r key) = list_to_set ("normalized_name" :: column_order))
    as -> by reflexivity.
  rewrite list_to_set_cons. apply union_subseteq_r.
Qed.

Lemma complete_placeholder idx predicted : complete (placeholder idx predicted).
Proof.
  unfold complete.
  assert (dom (placeholder idx predicted) = list_to_set column_order)
    as -> by reflexivity.
  done.
Qed.

Lemma complete_insert c v row : complete row → complete (<[c := v]> row).
Proof.
  unfold complete. rewrite dom_insert_L. intros Hrow.
  etrans; [exact Hrow | apply union_subseteq_r].
Qed.

Lemma list_find_cons_spec {A} (P : A → Prop) `{∀ x, Decision (P x)} x l :
  snd <$> list_find P (x :: l) =
  if decide (P x) then Some x else snd <$> list_find P l.
Proof.
  cbn [list_find]. destruct (decide (P x)); [done|].
  by destruct (list_find P l) as [[]|].
Qed.

(** The dictionary after the loop, from any starting dictionary: a key
    already bound keeps its record; another key gets the first row that
    normalizes to it, unless it is empty. *)
Lemma foldl_lookup_step rows m key :
  foldl lookup_step m rows !! key =
  match m !! key with
  | Some d => Some d
  | None =>
      if decide (key = "") then None
      else (λ rn : CanonicalRecord * string, to_dict rn.1 rn.2) <$>
             (snd <$> list_find (λ rn, rn.2 = key) rows)
  end.
Proof.
  revert m. induction rows as [|[r n] rows IH]; intros m.
  { cbn. destruct (m !! key); [done|]. by destruct (decide (key = "")). }
  cbn [foldl]. rewrite IH, list_find_cons_spec. unfold lookup_step at 1.
  cbn [fst snd]. destruct (decide (n = key)) as [->|Hne].
  - destruct (decide (key = "")) as [->|Hk].
    + rewrite bool_decide_eq_false_2 by (by intros []). cbn [andb].
      by destruct (m !! "").
    + rewrite bool_decide_eq_true_2 by done. cbn [andb].
      destruct (m !! key) as [d|] eqn:Hm.
      * rewrite bool_decide_eq_false_2 by done. by rewrite Hm.
      * rewrite bool_decide_eq_true_2 by done. by rewrite lookup_insert_eq.
  - destruct (bool_decide (n ≠ "") && bool_decide (m !! n = None)); [|done].
    by rewrite lookup_insert_ne.
Qed.

Lemma zip_fmap_self {A B} (f : A → B) (l : list A) :
  zip l (f <$> l) = (λ x, (x, f x)) <$> l.
Proof. induction l as [|x l IH]; [done|]. cbn. by rewrite IH. Qed.

(** [data_lookup] maps every non-empty key to the first-seen record. *)
Lemma data_lookup_spec records key :
  build_lookup (zip records ((canonical_key ∘ object_name) <$> records)) !! key =
  if decide (key = "") then None
  else (λ r, to_dict r key) <$> first_seen key records.
Proof.
  unfold build_lookup, first_seen. rewrite foldl_lookup_step, lookup_empty.
  destruct (decide (key = "")); [done|].
  rewrite zip_fmap_self, list_find_fmap.
  destruct (list_find _ records) as [[i r]|] eqn:Hf; [|done].
  cbn. apply list_find_Some in Hf as (_ & Hr & _). cbn in Hr. by rewrite Hr.
Qed.

Lemma match_loop_rows data_lookup threshold idx predictions :
  (match_loop data_lookup threshold idx predictions).1 =
  imap (λ i pn, (match_step data_lookup threshold (idx + i) pn.1 pn.2).1)
       predictions.
Proof.
  revert idx. induction predictions as [|[p n] predictions IH]; intros idx; [done|].
  cbn [match_loop imap fst snd]. rewrite IH, Nat.add_0_r. f_equal.
  apply imap_ext. intros i pn _. cbn. by rewrite Nat.add_succ_r.
Qed.

Lemma complete_match_step records threshold idx p :
  complete
    (match_step
       (build_lookup (zip records ((canonical_key ∘ object_name) <$> records)))
       threshold idx p (canonical_key (pred_object_name p))).1.
Proof.
  unfold match_step. rewrite data_lookup_spec.
  destruct (decide _); [apply complete_placeholder|].
  destruct (first_seen _ _); cbn;
    [apply complete_insert, complete_to_dict | apply complete_placeholder].
Qed.

(** One iteration of the loop, reindexed, is the row of the
    specification. *)
Lemma match_step_spec records threshold idx p :
  project column_order
    (match_step
       (build_lookup (zip records ((canonical_key ∘ object_name) <$> records)))
       threshold idx p (canonical_key (pred_object_name p))).1 =
  spec_row records threshold idx p.
Proof.
  unfold match_step, spec_row. rewrite data_lookup_spec.
  generalize (predicted_disposition (predicted_probability p) threshold).
  intros predicted. destruct (decide _); [by_conversion|].
  generalize (canonical_key (pred_object_name p)). intros key.
  destruct (first_seen _ _); cbn [fmap option_fmap option_map fst];
    by_conversion.
Qed.

(** The keys that the matcher computes are the canonical keys. *)
Lemma mapM_normalize_Ok {A} (name_of : A → option string) (l : list A) keys :
  mapM (normalize_object_name ∘ name_of) l = Ok keys →
  keys = (canonical_key ∘ name_of) <$> l.
Proof.
  apply mapM_Ok_inv. intros x k Hk. symmetry.
  by apply normalize_Ok_canonical_key.
Qed.

Lemma mapM_normalize_regular {A} (name_of : A → option string) (l : list A) :
  Forall (λ x, regular (name_of x) = true) l →
  mapM (normalize_object_name ∘ name_of) l = Ok ((canonical_key ∘ name_of) <$> l).
Proof.
  intros Hl. apply mapM_Ok_Forall. eapply Forall_impl; [exact Hl|].
  intros x Hx. by apply normalize_regular.
Qed.

(** The source against the specification: the matcher normalizes the
    names of the predictions and then those of the records, raising what
    the normalizer raises; after that, without a prediction there is no
    record, hence no column to select, and with at least one prediction
    it returns the nine columns and, row by row, what §4.5 prescribes. *)
Lemma match_predictions_with_data_eq predictions records threshold :
  match_predictions_with_data predictions records threshold =
  (_ ← mapM (normalize_object_name ∘ pred_object_name) predictions;
   _ ← mapM (normalize_object_name ∘ object_name) records;
   match predictions with
   | [] => Raise (KeyError column_order)
   | _ => Ok {| columns := column_order;
                rows := imap (spec_row records threshold) predictions |}
   end).
Proof.
  unfold match_predictions_with_data.
  destruct (mapM _ predictions) as [pred_names|] eqn:Hp; [|done].
  destruct (mapM _ records) as [data_names|] eqn:Hr; [|done].
  apply mapM_normalize_Ok in Hp as ->. apply mapM_normalize_Ok in Hr as ->.
  cbn [mbind result_bind]. destruct predictions as [|p predictions]; [done|].
  rewrite match_loop_rows, (zip_fmap_self _ (p :: predictions)), imap_fmap.
  set (rows := imap _ _).
  assert (Forall complete rows ∧
          project column_order <$> rows =
          imap (spec_row records threshold) (p :: predictions)) as [Hc Hrows].
  { subst rows. split.
    - apply Forall_lookup. intros i row [q [Hq ->]]%list_lookup_imap_Some.
      apply complete_match_step.
    - rewrite fmap_imap. apply imap_ext. intros i q _. apply match_step_spec. }
  destruct rows as [|r rows]; [done|].
  by rewrite select_complete, Hrows.
Qed.

Lemma match_predictions_with_data_spec p predictions records threshold :
  Forall (λ p, regular (pred_object_name p) = true) (p :: predictions) →
  Forall (λ r, regular (object_name r) = true) records →
  match_predictions_with_data (p :: predictions) records threshold =
  Ok {| columns := column_order;
        rows := imap (spec_row records threshold) (p :: predictions) |}.
Proof.
  intros Hp Hr. rewrite match_predictions_with_data_eq.
  by rewrite (mapM_normalize_regular _ _ Hp), (mapM_normalize_regular _ _ Hr).
Qed.

(** Without a prediction the matcher raises, whatever the records. *)
Lemma match_predictions_with_data_nil records threshold :
  ∃ e, match_predictions_with_data [] records threshold = Raise e ∧
       (Forall (λ r, regular (object_name r) = true) records →
        e = KeyError column_order).
Proof.
  rewrite match_predictions_with_data_eq. cbn [mapM mbind result_bind mret result_ret].
  destruct (mapM _ records) as [keys|e] eqn:Hr.
  - exists (KeyError column_order). done.
  - exists e. split; [done|]. intros Hreg.
    by rewrite (mapM_normalize_regular _ _ Hreg) in Hr.
Qed.

Lemma match_predictions_rows predictions records threshold out :
  match_predictions_with_data predictions records threshold = Ok out →
  columns out = column_order ∧
  rows out = imap (spec_row records threshold) predictions.
Proof.
  rewrite match_predictions_with_data_eq.
  destruct (mapM _ predictions); [|done].
  destruct (mapM _ records); [|done]. cbn [mbind result_bind].
  destruct predictions; [done|]. by intros [= <-].
Qed.

(** ** Float comparisons *)

Lemma SFcompare_antisym a b :
  SFcompare b a = option_map CompOpp (SFcompare a b).
Proof.
  destruct a as [sa|sa| |sa ma ea], b as [sb|sb| |sb mb eb]; cbn;
    try done; try (by destruct sa); try (by destruct sb);
    try (by destruct sa, sb).
  destruct sa, sb; try done; f_equal; rewrite (Z.compare_antisym ea eb);
    destruct (ea ?= eb)%Z; cbn; try done;
    change (PosDef.Pos.compare_cont Eq) with Pos.compare;
    by rewrite (Pos.compare_antisym ma mb), ?CompOpp_involutive.
Qed.

(** In Python's words: [x < y] excludes [x >= y]. *)
Lemma ltb_not_leb (x y : float) :
  (x <? y)%float = true → (y <=? x)%float = false.
Proof.
  rewrite ltb_spec, leb_spec. unfold SFltb, SFleb.
  rewrite (SFcompare_antisym (Prim2SF x) (Prim2SF y)).
  by destruct (SFcompare (Prim2SF x) (Prim2SF y)) as [[]|].
Qed.

(** [x == y] gives [x >= y]. *)
Lemma eqb_leb (x y : float) :
  (x =? y)%float = true → (y <=? x)%float = true.
Proof.
  rewrite FloatAxioms.eqb_spec, leb_spec. unfold SFeqb, SFleb.
  rewrite (SFcompare_antisym (Prim2SF x) (Prim2SF y)).
  by destruct (SFcompare (Prim2SF x) (Prim2SF y)) as [[]|].
Qed.

Lemma SFcompare_None a b :
  SFcompare a b = None → a = S754_nan ∨ b = S754_nan.
Proof.
  destruct a as [sa|sa| |sa ma ea], b as [sb|sb| |sb mb eb]; cbn; auto;
    try discriminate; try (by destruct sa); try (by destruct sb).
Qed.

Lemma SFleb_trans a b c :
  SFleb a b = true → SFleb b c = true → SFleb a c = true.
Proof.
  unfold SFleb.
  destruct a as [sa|sa| |sa ma ea], b as [sb|sb| |sb mb eb],
           c as [sc|sc| |sc mc ec]; cbn;
    try done; try (by destruct sa); try (by destruct sb); try (by destruct sc);
    try (by destruct sa, sb); try (by destruct sb, sc); try (by destruct sa, sc);
    try (by destruct sa, sb, sc).
  change (PosDef.Pos.compare_cont Eq) with Pos.compare.
  destruct sa, sb, sc; try done;
    destruct (Z.compare_spec ea eb), (Z.compare_spec eb ec), (Z.compare_spec ea ec);
    try done; try lia; subst;
    destruct (Pos.compare_spec ma mb), (Pos.compare_spec mb mc),
             (Pos.compare_spec ma mc); cbn; try done; try lia.
Qed.

Lemma SFleb_total a b :
  a ≠ S754_nan → b ≠ S754_nan → SFleb a b = true ∨ SFleb b a = true.
Proof.
  intros Ha Hb. unfold SFleb. rewrite (SFcompare_antisym a b).
  destruct (SFcompare a b) as [[]|] eqn:H; cbn; auto.
  by destruct (SFcompare_None _ _ H).
Qed.

Lemma SFeqb_leb a b : SFeqb a b = SFleb a b && SFleb b a.
Proof.
  unfold SFeqb, SFleb. rewrite (SFcompare_antisym a b).
  by destruct (SFcompare a b) as [[]|].
Qed.

(** [x == y] is [x <= y and y <= x]. *)
Lemma float_eqb_leb (x y : float) :
  (x =? y)%float = (x <=? y)%float && (y <=? x)%float.
Proof. rewrite FloatAxioms.eqb_spec, !leb_spec. apply SFeqb_leb. Qed.

Lemma is_nan_false (x : float) : is_nan x = false ↔ Prim2SF x ≠ S754_nan.
Proof.
  unfold is_nan. rewrite FloatAxioms.eqb_spec, SFeqb_leb. split.
  - intros H Hn. by rewrite Hn in H.
  - intros Hn. by destruct (SFleb_total _ _ Hn Hn) as [-> | ->].
Qed.

Lemma float_leb_trans (x y z : float) :
  (x <=? y)%float = true → (y <=? z)%float = true → (x <=? z)%float = true.
Proof. rewrite !leb_spec. apply SFleb_trans. Qed.

(** Numbers other than NaN are totally ordered. *)
Lemma float_leb_total (x y : float) :
  is_nan x = false → is_nan y = false →
  (x <=? y)%float = true ∨ (y <=? x)%float = true.
Proof. rewrite !is_nan_false, !leb_spec. apply SFleb_total. Qed.

(** NaN is below nothing and above nothing. *)
Lemma float_leb_nan (x y : float) :
  is_nan x = true ∨ is_nan y = true → (x <=? y)%float = false.
Proof.
  intros Hnan. rewrite leb_spec.
  assert (∀ z : float, is_nan z = true → Prim2SF z = S754_nan) as Hspec.
  { intros z Hz. destruct (Prim2SF z) eqn:Hsf; try done;
      assert (is_nan z = false) as Hf
        by (apply is_nan_false; by rewrite Hsf); congruence. }
  destruct Hnan as [Hx%Hspec|Hy%Hspec].
  - by rewrite Hx.
  - rewrite Hy. by destruct (Prim2SF x).
Qed.

(** ** Sorting *)

Section SortFacts.
Context {A : Type} (le : A → A → bool).
Hypothesis le_total : ∀ x y, le x y = true ∨ le y x = true.
Hypothesis le_trans : ∀ x y z, le x y = true → le y z = true → le x z = true.

Local Abbreviation R := (λ x y, le x y = true).

Lemma insert_sorted_perm x l : insert_sorted le x l ≡ₚ x :: l.
Proof.
  induction l as [|y l IH]; [done|].
  cbn [insert_sorted]. destruct (le x y); [done|].
  rewrite IH. apply Permutation_swap.
Qed.

Lemma stable_sort_perm l : stable_sort le l ≡ₚ l.
Proof.
  induction l as [|x l IH]; [done|].
  cbn [stable_sort]. by rewrite insert_sorted_perm, IH.
Qed.

Lemma insert_sorted_HdRel z x l :
  le z x = true → HdRel R z l → HdRel R z (insert_sorted le x l).
Proof.
  intros Hzx Hz. destruct l as [|y l]; cbn [insert_sorted].
  - by constructor.
  - destruct (le x y); constructor; [done|]. by inversion Hz.
Qed.

Lemma insert_sorted_Sorted x l : Sorted R l → Sorted R (insert_sorted le x l).
Proof.
  induction 1 as [|y l Hl IH Hy]; cbn [insert_sorted].
  - by repeat constructor.
  - destruct (le x y) eqn:Hxy.
    + by repeat constructor.
    + constructor; [done|]. apply insert_sorted_HdRel; [|done].
      destruct (le_total x y); congruence.
Qed.

Lemma stable_sort_Sorted l : Sorted R (stable_sort le l).
Proof.
  induction l as [|x l IH]; [constructor|]. by apply insert_sorted_Sorted.
Qed.

Lemma stable_sort_StronglySorted l : StronglySorted R (stable_sort le l).
Proof.
  apply Sorted_StronglySorted; [|apply stable_sort_Sorted].
  intros x y z. apply le_trans.
Qed.

(** Sorting a sorted list leaves it as it is. *)
Lemma stable_sort_sorted l : StronglySorted R l → stable_sort le l = l.
Proof.
  induction 1 as [|x l Hs IH Hx]; [done|].
  cbn [stable_sort]. rewrite IH. destruct l as [|y l]; [done|].
  cbn [insert_sorted]. apply Forall_cons in Hx as [-> _]. done.
Qed.
End SortFacts.

(** ** The order of the deduplication sort *)

Lemma string_leb_trans x y z :
  String.leb x y = true → String.leb y z = true → String.leb x z = true.
Proof.
  intros Hxy%Is_true_true Hyz%Is_true_true. apply Is_true_true.
  change (String.le x z). by trans y.
Qed.

Lemma string_eqb_leb x y : String.eqb x y = String.leb x y && String.leb y x.
Proof.
  destruct (String.eqb_spec x y) as [->|Hne].
  - by destruct (String.leb_total y y) as [-> | ->].
  - destruct (String.leb x y) eqn:Hxy, (String.leb y x) eqn:Hyx; try done.
    destruct Hne. by apply String.leb_antisym.
Qed.

Lemma cell_le_total a b : cell_le a b = true ∨ cell_le b a = true.
Proof.
  unfold cell_le. destruct (isna b) eqn:Hb; [by left|].
  destruct (isna a) eqn:Ha; [by right|].
  destruct a as [s|x|], b as [t|y|]; cbn [isna] in Ha, Hb; try done.
  - apply String.leb_total.
  - by right.
  - by left.
  - by apply float_leb_total.
Qed.

Lemma cell_le_trans a b c :
  cell_le a b = true → cell_le b c = true → cell_le a c = true.
Proof.
  unfold cell_le. destruct (isna c) eqn:Hc; [done|].
  destruct (isna b) eqn:Hb; [done|]. destruct (isna a) eqn:Ha; [done|].
  destruct a as [s|x|], b as [t|y|], c as [u|z|]; cbn [isna] in Ha, Hb, Hc;
    try done.
  - apply string_leb_trans.
  - apply float_leb_trans.
Qed.

(** Two cells are the same value when each is below the other. *)
Lemma cell_eqb_le a b : cell_eqb a b = cell_le a b && cell_le b a.
Proof.
  unfold cell_eqb, cell_le.
  destruct (isna a) eqn:Ha, (isna b) eqn:Hb; try done.
  - destruct a as [s|x|], b as [t|y|]; cbn [isna] in Ha, Hb; try done.
    rewrite float_eqb_leb, (float_leb_nan x y) by by right. done.
  - destruct a as [s|x|], b as [t|y|]; cbn [isna] in Ha, Hb; try done.
    + apply string_eqb_leb.
    + apply float_eqb_leb.
Qed.

Lemma cell_eqb_refl a : cell_eqb a a = true.
Proof. rewrite cell_eqb_le. by destruct (cell_le_total a a) as [-> | ->]. Qed.

Lemma cell_eqb_sym a b : cell_eqb a b = cell_eqb b a.
Proof. rewrite !cell_eqb_le. apply andb_comm. Qed.

Lemma cell_eqb_trans a b c :
  cell_eqb a b = true → cell_eqb b c = true → cell_eqb a c = true.
Proof.
  rewrite !cell_eqb_le. intros [Hab Hba]%andb_prop [Hbc Hcb]%andb_prop.
  by rewrite (cell_le_trans _ _ _ Hab Hbc), (cell_le_trans _ _ _ Hcb Hba).
Qed.

Lemma cell_same_refl a : cell_same a a = true.
Proof.
  destruct a as [s|x|]; cbn [cell_same]; [apply String.eqb_refl| |done].
  unfold is_nan. by destruct (x =? x)%float.
Qed.

Lemma cell_same_sym a b : cell_same a b = cell_same b a.
Proof.
  destruct a as [s|x|], b as [t|y|]; cbn [cell_same]; try done.
  - apply String.eqb_sym.
  - by rewrite (float_eqb_leb x y), (float_eqb_leb y x),
      (andb_comm (x <=? y)%float), (andb_comm (is_nan x)).
Qed.

(** What [drop_duplicates] takes for one value has one place in the
    sort order. *)
Lemma cell_same_eqb a b : cell_same a b = true → cell_eqb a b = true.
Proof.
  destruct a as [s|x|], b as [t|y|]; cbn [cell_same]; try done.
  unfold cell_eqb. cbn [isna]. destruct (is_nan x) eqn:Hx.
  - rewrite float_eqb_leb, (float_leb_nan x y) by by left. by cbn.
  - by rewrite andb_false_l, orb_false_r.
Qed.

Lemma cell_same_trans a b c :
  cell_same a b = true → cell_same b c = true → cell_same a c = true.
Proof.
  destruct a as [s|x|], b as [t|y|], c as [u|z|]; cbn [cell_same]; try done.
  - by intros ->%String.eqb_eq.
  - destruct (is_nan y) eqn:Hy.
    + rewrite (float_eqb_leb x y), (float_eqb_leb y z),
        (float_leb_nan x y), (float_leb_nan y z) by auto.
      cbn. rewrite !andb_true_r. intros -> ->. apply orb_true_r.
    + rewrite !andb_false_r, andb_false_l, !orb_false_r.
      rewrite (float_eqb_leb x y), (float_eqb_leb y z), (float_eqb_leb x z).
      intros [Hxy Hyx]%andb_prop [Hyz Hzy]%andb_prop.
      by rewrite (float_leb_trans _ _ _ Hxy Hyz), (float_leb_trans _ _ _ Hzy Hyx).
Qed.

Lemma lex_le_total keys r1 r2 :
  lex_le keys r1 r2 = true ∨ lex_le keys r2 r1 = true.
Proof.
  induction keys as [|c keys IH]; [by left|]. cbn [lex_le].
  rewrite (cell_eqb_sym (at_column c r2)).
  destruct (cell_eqb _ _); [done|]. apply cell_le_total.
Qed.

Lemma lex_le_trans keys r1 r2 r3 :
  lex_le keys r1 r2 = true → lex_le keys r2 r3 = true →
  lex_le keys r1 r3 = true.
Proof.
  induction keys as [|c keys IH]; [done|]. cbn [lex_le].
  generalize (at_column c r1), (at_column c r2), (at_column c r3).
  intros a b d. rewrite !cell_eqb_le.
  pose proof (cell_le_trans a b d) as T1.
  pose proof (cell_le_trans b d a) as T2.
  pose proof (cell_le_trans d a b) as T3.
  pose proof (cell_le_trans d b a) as T4.
  pose proof (cell_le_trans b a d) as T5.
  pose proof (cell_le_trans a d b) as T6.
  destruct (cell_le a b), (cell_le b a), (cell_le b d), (cell_le d b),
    (cell_le a d), (cell_le d a); cbn [andb]; try done; auto;
    intros; exfalso;
    first [by discriminate T1 | by discriminate T2 | by discriminate T3
          | by discriminate T4 | by discriminate T5 | by discriminate T6].
Qed.

(** Rows that the first key takes for the same are ordered by the
    second one. *)
Lemma lex_le_same_name r1 r2 :
  cell_eqb (at_column "object_name" r1) (at_column "object_name" r2) = true →
  lex_le ["object_name"; "priority"] r1 r2 = true →
  cell_le (at_column "priority" r1) (at_column "priority" r2) = true.
Proof.
  intros Heq. cbn [lex_le]. rewrite Heq.
  destruct (cell_eqb (at_column "priority" r1) _) eqn:Hp; [|by intros H].
  intros _. rewrite cell_eqb_le in Hp. by apply andb_prop in Hp as [? _].
Qed.

Lemma lex_le_name r1 r2 :
  lex_le ["object_name"; "priority"] r1 r2 = true →
  cell_le (at_column "object_name" r1) (at_column "object_name" r2) = true.
Proof.
  cbn [lex_le]. destruct (cell_eqb (at_column "object_name" r1) _) eqn:Heq;
    [|by intros H].
  intros _. rewrite cell_eqb_le in Heq. by apply andb_prop in Heq as [? _].
Qed.

(** ** Deduplication engine *)

Section KeepFirst.
Variable c : string.

Local Abbreviation seen_in r seen := (existsb (cell_same (at_column c r)) seen).

Lemma keep_first_elem_of seen l r :
  r ∈ keep_first c seen l → r ∈ l ∧ seen_in r seen = false.
Proof.
  revert seen. induction l as [|x l IH]; intros seen; cbn [keep_first].
  { by intros ?%elem_of_nil. }
  destruct (seen_in x seen) eqn:Hx.
  - intros [? ?]%IH. split; [by right|done].
  - intros [->|[? Hn]%IH]%elem_of_cons; [split; [by left|done]|].
    split; [by right|]. cbn [existsb] in Hn. by apply orb_false_elim in Hn as [_ ?].
Qed.

(** No two kept rows hold the same value under [c]. *)
Lemma keep_first_unique seen l i j r1 r2 :
  keep_first c seen l !! i = Some r1 → keep_first c seen l !! j = Some r2 →
  cell_same (at_column c r1) (at_column c r2) = true → i = j.
Proof.
  revert seen i j. induction l as [|x l IH]; intros seen i j; cbn [keep_first].
  { done. }
  destruct (seen_in x seen) eqn:Hx; [apply IH|].
  destruct i as [|i], j as [|j]; cbn [lookup list_lookup]; [done| | |].
  - intros [= ->] Hj%list_elem_of_lookup_2 Heq.
    apply keep_first_elem_of in Hj as [_ Hn]. cbn [existsb] in Hn.
    apply orb_false_elim in Hn as [Hn _]. rewrite cell_same_sym in Hn. congruence.
  - intros Hi%list_elem_of_lookup_2 [= ->] Heq.
    apply keep_first_elem_of in Hi as [_ Hn]. cbn [existsb] in Hn.
    apply orb_false_elim in Hn as [Hn _]. congruence.
  - intros Hi Hj Heq. f_equal. by eapply IH.
Qed.

(** In a sorted table, the row kept for a value is no later in the order
    than any row of that value. *)
Lemma keep_first_first (R : relation (gmap string cell)) seen l r :
  StronglySorted R l → r ∈ l → seen_in r seen = false →
  ∃ r', r' ∈ keep_first c seen l ∧
        cell_same (at_column c r') (at_column c r) = true ∧ (r' = r ∨ R r' r).
Proof.
  intros Hs. revert seen. induction Hs as [|x l Hs IH Hx]; intros seen Hr Hn.
  { by apply elem_of_nil in Hr. }
  cbn [keep_first]. destruct (seen_in x seen) eqn:Hseen.
  - apply elem_of_cons in Hr as [->|Hr]; [congruence|]. by apply IH.
  - destruct (cell_same (at_column c x) (at_column c r)) eqn:Heq.
    + exists x. split; [by left|]. split; [done|].
      apply elem_of_cons in Hr as [->|Hr]; [by left|right].
      by eapply Forall_forall in Hx.
    + apply elem_of_cons in Hr as [->|Hr]; [by rewrite cell_same_refl in Heq|].
      destruct (IH (at_column c x :: seen) Hr) as (r' & ? & ? & ?).
      { cbn [existsb]. by rewrite cell_same_sym, Heq, Hn. }
      exists r'. split; [by right|done].
Qed.

Lemma keep_first_StronglySorted (R : relation (gmap string cell)) seen l :
  StronglySorted R l → StronglySorted R (keep_first c seen l).
Proof.
  intros Hs. revert seen. induction Hs as [|x l Hs IH Hx]; intros seen.
  { constructor. }
  cbn [keep_first]. destruct (seen_in x seen); [apply IH|].
  constructor; [apply IH|]. apply Forall_forall. intros y Hy.
  apply keep_first_elem_of in Hy as [Hy _].
  by apply (proj1 (Forall_forall _ _) Hx).
Qed.

(** A table without two rows of one value is kept as it is. *)
Lemma keep_first_id seen l :
  (∀ i j r1 r2, l !! i = Some r1 → l !! j = Some r2 →
     cell_same (at_column c r1) (at_column c r2) = true → i = j) →
  (∀ r, r ∈ l → seen_in r seen = false) →
  keep_first c seen l = l.
Proof.
  revert seen. induction l as [|x l IH]; intros seen Huniq Hseen; [done|].
  cbn [keep_first]. rewrite (Hseen x) by by left. f_equal. apply IH.
  - intros i j r1 r2 Hi Hj Heq.
    assert (S i = S j) as [= ->]; [|done]. by eapply Huniq.
  - intros r Hr. cbn [existsb]. rewrite (Hseen r) by by right.
    destruct (cell_same (at_column c r) (at_column c x)) eqn:Heq; [|done].
    apply list_elem_of_lookup in Hr as [i Hi].
    by assert (S i = 0%nat) by by eapply (Huniq (S i) 0%nat).
Qed.
End KeepFirst.

(** ** Schema mapper *)

Lemma getitem_absent df c : c ∉ columns df → getitem df c = Raise (KeyError [c]).
Proof. intros Hc. unfold getitem. by rewrite decide_False. Qed.

Lemma getitem_present df c :
  c ∈ columns df → getitem df c = Ok (at_column c <$> rows df).
Proof. intros Hc. unfold getitem. by rewrite decide_True. Qed.

(** The guarded access of the TESS and K2 mappers never raises, and
    yields [pd.NA] for an absent column. *)
Lemma optional_column_spec df c :
  optional_column df c =
  Ok (if decide (c ∈ columns df) then Series (at_column c <$> rows df)
      else Scalar NA).
Proof.
  unfold optional_column. destruct (decide _) as [Hc|Hc]; [|done].
  by rewrite (getitem_present _ _ Hc).
Qed.

Lemma DataFrame_of_columns_lookup n data i :
  i < n →
  rows (DataFrame_of_columns n data) !! i =
  Some (list_to_map (prod_map id (column_at i) <$> data)).
Proof.
  intros Hi. cbn [rows DataFrame_of_columns].
  by rewrite list_lookup_fmap, lookup_seq_lt.
Qed.

Lemma length_DataFrame_of_columns n data :
  length (rows (DataFrame_of_columns n data)) = n.
Proof. cbn. by rewrite length_fmap, length_seq. Qed.

(** The K2 mapper on a table without some of the optional source
    columns: nine columns, one row per input row, and [pd.NA] wherever
    the source column is absent. *)
Lemma convert_k2_optional df :
  "epic_name" ∈ columns df ∨ "epic_candname" ∈ columns df →
  "k2c_disp" ∈ columns df →
  ∃ out, convert_k2_to_standard df = Ok out ∧
    columns out = column_order ∧
    length (rows out) = length (rows df) ∧
    ∀ src c row, (src, c) ∈ physical_sources → src ∉ columns df →
      row ∈ rows out → row !! c = Some NA.
Proof.
  intros Hname Hdisp. unfold convert_k2_to_standard.
  assert (∃ names, (if decide ("epic_name" ∈ columns df)
                    then getitem df "epic_name"
                    else getitem df "epic_candname") = Ok names) as [names ->].
  { destruct (decide _) as [Hin|Hout].
    - rewrite (getitem_present _ _ Hin). by eexists.
    - destruct Hname as [?|Hin]; [done|].
      rewrite (getitem_present _ _ Hin). by eexists. }
  rewrite (getitem_present _ _ Hdisp), !optional_column_spec.
  cbn [mbind result_bind]. eexists. split; [reflexivity|].
  split; [reflexivity|]. split; [apply length_DataFrame_of_columns|].
  intros src c row Hsrc Habs [i Hi]%list_elem_of_lookup.
  pose proof (lookup_lt_Some _ _ _ Hi) as Hlt.
  rewrite length_DataFrame_of_columns in Hlt.
  rewrite DataFrame_of_columns_lookup in Hi by done.
  injection Hi as <-. unfold physical_sources in Hsrc.
  repeat (apply elem_of_cons in Hsrc as [[= -> ->]|Hsrc];
          [match type of Habs with
           | ?src ∉ _ => destruct (decide (src ∈ columns df)) as [?|_]
           end; [done|by_conversion]|]).
  by apply elem_of_nil in Hsrc.
Qed.

Lemma convert_tess_optional float_str df :
  "toi" ∈ columns df → "tfopwg_disp" ∈ columns df →
  ∃ out, convert_tess_to_standard float_str df = Ok out ∧
    columns out = column_order ∧
    length (rows out) = length (rows df) ∧
    ∀ src c row, (src, c) ∈ physical_sources → src ∉ columns df →
      row ∈ rows out → row !! c = Some NA.
Proof.
  intros Hname Hdisp. unfold convert_tess_to_standard.
  rewrite (getitem_present _ _ Hname), (getitem_present _ _ Hdisp),
    !optional_column_spec.
  cbn [mbind result_bind]. eexists. split; [reflexivity|].
  split; [reflexivity|]. split; [apply length_DataFrame_of_columns|].
  intros src c row Hsrc Habs [i Hi]%list_elem_of_lookup.
  pose proof (lookup_lt_Some _ _ _ Hi) as Hlt.
  rewrite length_DataFrame_of_columns in Hlt.
  rewrite DataFrame_of_columns_lookup in Hi by done.
  injection Hi as <-. unfold physical_sources in Hsrc.
  repeat (apply elem_of_cons in Hsrc as [[= -> ->]|Hsrc];
          [match type of Habs with
           | ?src ∉ _ => destruct (decide (src ∈ columns df)) as [?|_]
           end; [done|by_conversion]|]).
  by apply elem_of_nil in Hsrc.
Qed.

(** ** Disposition reconciler *)

Lemma setitem_fmap df c (f : gmap string cell → cell) :
  rows (setitem df c (f <$> rows df)) = (λ row, <[c := f row]> row) <$> rows df.
Proof.
  cbn [rows setitem]. apply list_eq. intros i.
  rewrite list_lookup_imap, !list_lookup_fmap.
  by destruct (rows df !! i).
Qed.

Lemma setitem_columns df c s c' :
  c' ∈ columns df → c' ∈ columns (setitem df c s).
Proof.
  intros Hc. cbn [columns setitem]. destruct (decide _); [done|].
  apply elem_of_app. by left.
Qed.

Section Reconciler.
Variable float_str : float → string.

(** The table after reconciliation, row by row: the raw value is kept
    under [disposition_original] and [disposition] holds its
    reconciled form. *)
Lemma normalize_disposition_extended_rows df mission :
  "disposition" ∈ columns df →
  ∃ out, normalize_disposition_extended float_str df mission = Ok out ∧
    ∀ i row, rows df !! i = Some row →
      ∃ row', rows out !! i = Some row' ∧
        row' !! "disposition" =
          Some (reconcile float_str mission (at_column "disposition" row)) ∧
        row' !! "disposition_original" = Some (at_column "disposition" row).
Proof.
  intros Hd. unfold normalize_disposition_extended.
  rewrite (getitem_present _ _ Hd). cbn [mbind result_bind].
  set (df1 := setitem df "disposition_original" _).
  assert ("disposition" ∈ columns df1) as Hd1 by by apply setitem_columns.
  rewrite (getitem_present _ _ Hd1). cbn [mbind result_bind].
  rewrite <- list_fmap_compose.
  set (df2 := setitem df1 "disposition" _).
  assert ("disposition" ∈ columns df2) as Hd2 by by apply setitem_columns.
  rewrite (getitem_present _ _ Hd2). cbn [mbind result_bind].
  rewrite <- list_fmap_compose.
  eexists. split; [reflexivity|]. intros i row Hrow.
  rewrite setitem_fmap. subst df2. rewrite setitem_fmap. subst df1.
  rewrite setitem_fmap, !list_lookup_fmap, Hrow. cbn [fmap option_fmap option_map].
  eexists. split; [reflexivity|]. split.
  - rewrite lookup_insert_eq. f_equal. unfold reconcile, at_column, compose.
    by rewrite lookup_insert_eq, lookup_insert_ne.
  - rewrite !lookup_insert_ne, lookup_insert_eq by done. done.
Qed.

(** TESS: any spelling of [CP] or [KP] reconciles to CONFIRMED. *)
Lemma reconcile_tess_confirmed s :
  Py.upper s = "CP" ∨ Py.upper s = "KP" →
  reconcile float_str "TESS" (Str s) = Str "CONFIRMED".
Proof. unfold reconcile. cbn [cell_str]. by intros [-> | ->]. Qed.

End Reconciler.

(** ** Deduplication engine, on frames *)

Lemma at_column_with_priority row :
  at_column "priority" (with_priority row) = priority (at_column "disposition" row).
Proof. unfold with_priority, at_column. by rewrite lookup_insert_eq. Qed.

Lemma at_column_with_priority_ne c row :
  c ≠ "priority" → at_column c (with_priority row) = at_column c row.
Proof. intros Hc. unfold with_priority, at_column. by rewrite lookup_insert_ne. Qed.

Lemma at_column_delete c c' row :
  c ≠ c' → at_column c (delete c' row) = at_column c row.
Proof. intros Hc. unfold at_column. by rewrite lookup_delete_ne. Qed.

(** The rows that the step keeps, still with their priority *)
Lemma deduplicate_cases all_data :
  deduplicate all_data =
  if decide ("disposition" ∈ columns all_data) then
    if decide ("object_name" ∈ columns all_data) then
      Ok {| columns :=
              filter (λ c, c ≠ "priority")
                (if decide ("priority" ∈ columns all_data) then columns all_data
                 else (columns all_data ++ ["priority"])%list);
            rows := delete "priority" <$> kept_rows all_data |}
    else Raise (KeyError ["object_name"])
  else Raise (KeyError ["disposition"]).
Proof.
  unfold deduplicate. destruct (decide ("disposition" ∈ _)) as [Hd|Hd];
    [|by rewrite (getitem_absent _ _ Hd)].
  rewrite (getitem_present _ _ Hd). cbn [mbind result_bind].
  rewrite <- list_fmap_compose.
  set (df1 := setitem all_data "priority" _).
  assert (columns df1 = if decide ("priority" ∈ columns all_data)
                        then columns all_data
                        else (columns all_data ++ ["priority"])%list) as Hcols by done.
  assert (rows df1 = with_priority <$> rows all_data) as Hrows
    by apply setitem_fmap.
  assert ("priority" ∈ columns df1) as Hp by apply added_column_if.
  unfold sort_values. rewrite !filter_cons, filter_nil.
  rewrite (decide_False (P := "priority" ∉ columns df1)) by (by intros ?).
  destruct (decide ("object_name" ∈ columns all_data)) as [Hn|Hn].
  - rewrite decide_False by (intros Hc; apply Hc, in_columns_if, Hn).
    cbn [mbind result_bind]. unfold drop_duplicates. cbn [columns rows].
    rewrite decide_True by apply in_columns_if, Hn.
    cbn [mbind result_bind]. unfold drop. cbn [columns rows].
    rewrite decide_True by done. by rewrite Hcols, Hrows.
  - rewrite decide_True; [done|]. rewrite Hcols.
    destruct (decide _); [done|].
    intros [?|[= ]%list_elem_of_singleton]%elem_of_app. done.
Qed.

Lemma kept_rows_source all_data r :
  r ∈ kept_rows all_data → ∃ r0, r0 ∈ rows all_data ∧ r = with_priority r0.
Proof.
  intros [Hr _]%keep_first_elem_of. rewrite stable_sort_perm in Hr.
  apply list_elem_of_fmap in Hr as (r0 & -> & Hr0). by exists r0.
Qed.

Lemma kept_rows_StronglySorted all_data :
  StronglySorted (λ r1 r2, lex_le ["object_name"; "priority"] r1 r2 = true)
    (kept_rows all_data).
Proof.
  apply keep_first_StronglySorted, stable_sort_StronglySorted.
  - apply lex_le_total.
  - apply lex_le_trans.
Qed.

(** Every input row is represented, under its own name, by a kept row
    whose priority is at least as good. *)
Lemma kept_rows_best all_data row :
  row ∈ rows all_data →
  ∃ r', r' ∈ kept_rows all_data ∧
    cell_same (at_column "object_name" r') (at_column "object_name" row) = true ∧
    cell_le (at_column "priority" r') (priority (at_column "disposition" row)) = true.
Proof.
  intros Hrow. unfold kept_rows.
  destruct (keep_first_first "object_name"
              (λ r1 r2, lex_le ["object_name"; "priority"] r1 r2 = true) []
              (stable_sort (lex_le ["object_name"; "priority"])
                 (with_priority <$> rows all_data))
              (with_priority row)) as (r' & Hin & Hname & Hle).
  - apply stable_sort_StronglySorted; [apply lex_le_total | apply lex_le_trans].
  - rewrite stable_sort_perm. apply list_elem_of_fmap. by exists row.
  - done.
  - exists r'. split; [done|]. rewrite <- (at_column_with_priority row).
    destruct Hle as [->|Hle].
    + split; [rewrite at_column_with_priority_ne by done; apply cell_same_refl|].
      by destruct (cell_le_total (at_column "priority" (with_priority row))
                     (at_column "priority" (with_priority row))).
    + split; [by rewrite at_column_with_priority_ne in Hname|].
      by apply lex_le_same_name; [apply cell_same_eqb|].
Qed.

(** The deduplicated table, read off the kept rows *)
Lemma deduplicate_rows all_data :
  "object_name" ∈ columns all_data → "disposition" ∈ columns all_data →
  ∃ out, deduplicate all_data = Ok out ∧
    rows out = delete "priority" <$> kept_rows all_data.
Proof.
  intros Hn Hd. rewrite deduplicate_cases, !decide_True by done.
  by eexists.
Qed.

Lemma deduplicate_Ok all_data out :
  deduplicate all_data = Ok out →
  "object_name" ∈ columns all_data ∧ "disposition" ∈ columns all_data ∧
  rows out = delete "priority" <$> kept_rows all_data ∧
  columns out = filter (λ c, c ≠ "priority") (columns all_data).
Proof.
  rewrite deduplicate_cases.
  destruct (decide ("disposition" ∈ columns all_data)); [|done].
  destruct (decide ("object_name" ∈ columns all_data)); [|done].
  intros [= <-]. cbn [rows columns]. do 3 (split; [done|]).
  destruct (decide ("priority" ∈ columns all_data)); [done|].
  rewrite filter_app, filter_cons, decide_False, filter_nil by (by intros ?).
  apply app_nil_r.
Qed.

Lemma filter_ne_absent (c : string) (l : list string) :
  c ∉ l → filter (λ c', c' ≠ c) l = l.
Proof.
  induction l as [|x l IH]; [done|].
  intros [Hx Hl]%not_elem_of_cons. rewrite filter_cons, decide_True by done.
  by rewrite IH.
Qed.

(** The priority cell of a kept row can be computed again from the row
    of the table. *)
Lemma with_priority_delete all_data k :
  k ∈ kept_rows all_data → with_priority (delete "priority" k) = k.
Proof.
  intros (r0 & _ & ->)%kept_rows_source. unfold with_priority at 1.
  rewrite at_column_delete, at_column_with_priority_ne by done.
  unfold with_priority. by rewrite delete_insert_eq, insert_delete_eq.
Qed.

(** The disposition of priority 1 is CONFIRMED. *)
Lemma priority_le_confirmed d :
  cell_le (priority d) (priority (Str "CONFIRMED")) = true → d = Str "CONFIRMED".
Proof.
  destruct d as [s|x|]; [|done..]. cbn [priority].
  destruct (priority_map !! s) as [v|] eqn:Hs; [|done].
  unfold priority_map in Hs. cbn [list_to_map foldr] in Hs.
  repeat (apply lookup_insert_Some in Hs as [[<- <-]|[_ Hs]]; [done|]).
  by rewrite lookup_empty in Hs.
Qed.

(** The row that the table keeps of a kept row: its cells but the
    priority. *)
Lemma kept_row_cells all_data k :
  k ∈ kept_rows all_data →
  at_column "object_name" (delete "priority" k) = at_column "object_name" k ∧
  at_column "priority" k = priority (at_column "disposition" (delete "priority" k)) ∧
  ∃ r0, r0 ∈ rows all_data ∧ delete "priority" k = delete "priority" r0.
Proof.
  intros (r0 & Hr0 & ->)%kept_rows_source.
  rewrite !at_column_delete by done.
  rewrite at_column_with_priority, (at_column_with_priority_ne "disposition")
    by done.
  split; [done|]. split; [done|]. exists r0. split; [done|].
  unfold with_priority. by rewrite delete_insert_eq.
Qed.

(** ** First-seen records *)

Lemma first_seen_first key records j r :
  records !! j = Some r →
  canonical_key (object_name r) = key →
  (∀ j' r', records !! j' = Some r' → (j' < j)%nat →
     canonical_key (object_name r') ≠ key) →
  first_seen key records = Some r.
Proof.
  intros Hj Hr Hfirst. unfold first_seen.
  assert (list_find (λ r, canonical_key (object_name r) = key) records
          = Some (j, r)) as ->; [|done].
  apply list_find_Some. eauto.
Qed.

Lemma first_seen_None key records :
  (∀ r, r ∈ records → canonical_key (object_name r) ≠ key) →
  first_seen key records = None.
Proof.
  intros Hno. unfold first_seen.
  assert (list_find (λ r, canonical_key (object_name r) = key) records = None)
    as ->; [|done].
  apply list_find_None, Forall_forall. auto.
Qed.

Lemma spec_row_disposition records threshold i p :
  spec_row records threshold i p !! "disposition" =
  Some (Str (predicted_disposition (predicted_probability p) threshold)).
Proof.
  unfold spec_row. by destruct (if decide _ then _ else _).
Qed.

(** The matcher on regular names and a table with a prediction at
    position [i]: it returns the nine columns, one row per prediction,
    and at [i] the row of the specification. *)
Lemma match_predictions_row predictions records threshold i p :
  Forall (λ p, regular (pred_object_name p) = true) predictions →
  Forall (λ r, regular (object_name r) = true) records →
  predictions !! i = Some p →
  ∃ out, match_predictions_with_data predictions records threshold = Ok out ∧
    columns out = column_order ∧
    rows out = imap (spec_row records threshold) predictions ∧
    length (rows out) = length predictions ∧
    rows out !! i = Some (spec_row records threshold i p).
Proof.
  intros Hpreds Hrecs Hp. destruct predictions as [|p0 predictions]; [done|].
  rewrite match_predictions_with_data_spec by done.
  eexists. split; [reflexivity|].
  cbn [columns rows]. split; [done|]. split; [done|].
  split; [by rewrite length_imap|]. by rewrite list_lookup_imap, Hp.
Qed.

(** * The claims *)

(** ** Deduplication engine *)

(** C1, as the code has it: the deduplication compares the cells of
    [object_name] as they are (two numbers by value, two texts letter by
    letter, a number and a text never equal), not the canonical keys.
    Its output has no two rows of the same name, holds only input rows,
    and represents every input row by a kept row of the same name whose
    priority (CONFIRMED=1, CANDIDATE=2, FALSE POSITIVE=3, any other
    disposition last) is at least as good. *)
Theorem deduplicate_unique_by_object_name all_data :
  "object_name" ∈ columns all_data → "disposition" ∈ columns all_data →
  ∃ out, deduplicate all_data = Ok out ∧
    (∀ i j r1 r2, rows out !! i = Some r1 → rows out !! j = Some r2 →
       cell_same (at_column "object_name" r1) (at_column "object_name" r2) = true →
       i = j) ∧
    (∀ r, r ∈ rows out → ∃ r0, r0 ∈ rows all_data ∧ r = delete "priority" r0) ∧
    (∀ row, row ∈ rows all_data →
       ∃ row', row' ∈ rows out ∧
         cell_same (at_column "object_name" row') (at_column "object_name" row) = true ∧
         cell_le (priority (at_column "disposition" row'))
                 (priority (at_column "disposition" row)) = true).
Proof.
  intros Hn Hd.
  destruct (deduplicate_rows all_data Hn Hd) as (out & Hout & Hrows).
  exists out. split; [done|]. rewrite Hrows. split; [|split].
  - intros i j r1 r2.
    rewrite !list_lookup_fmap.
    destruct (kept_rows all_data !! i) as [k1|] eqn:Hi; [|done].
    destruct (kept_rows all_data !! j) as [k2|] eqn:Hj; [|done].
    intros [= <-] [= <-].
    destruct (kept_row_cells _ _ (list_elem_of_lookup_2 _ _ _ Hi)) as (-> & _).
    destruct (kept_row_cells _ _ (list_elem_of_lookup_2 _ _ _ Hj)) as (-> & _).
    exact (keep_first_unique "object_name" [] _ i j k1 k2 Hi Hj).
  - intros r (k & -> & Hk)%list_elem_of_fmap.
    by destruct (kept_row_cells _ _ Hk) as (_ & _ & ?).
  - intros row Hrow.
    destruct (kept_rows_best all_data row Hrow) as (k & Hk & Hname & Hle).
    exists (delete "priority" k). split; [apply list_elem_of_fmap; by exists k|].
    destruct (kept_row_cells _ _ Hk) as (-> & <- & _). done.
Qed.

Lemma deduplicate_unique_by_object_name_witness :
  ∃ out, deduplicate triple_711 = Ok out ∧
    ∃ row', row' ∈ rows out ∧
      cell_same (at_column "object_name" row')
                (at_column "object_name" (record_row kepler_711)) = true ∧
      cell_le (priority (at_column "disposition" row'))
              (priority (at_column "disposition" (record_row kepler_711))) = true.
Proof.
  destruct (deduplicate_unique_by_object_name triple_711)
    as (out & Hout & _ & _ & Hbest).
  - unfold triple_711, column_order. cbn [columns]. right; left.
  - unfold triple_711, column_order. cbn [columns]. right; right; left.
  - exists out. split; [exact Hout|]. apply Hbest.
    unfold triple_711. cbn [rows fmap list_fmap]. right; right; left.
Defined.

(** C1, the scenario of the claim: Kepler [K00001.01] and TESS [1.01]
    share the canonical key [1.01], and both survive the deduplication,
    be the TESS name the text or, as in the archive's table, the
    number. *)
Lemma deduplicate_keeps_colliding_keys :
  deduplicate colliding_pair =
    Ok {| columns := column_order;
          rows := [record_row tess_1_01; record_row kepler_1_01] |} ∧
  deduplicate colliding_pair_toi =
    Ok {| columns := column_order;
          rows := [<["object_name" := Num 0x1.028f5c28f5c29p+0]> (record_row tess_1_01);
                   record_row kepler_1_01] |} ∧
  canonical_key (object_name kepler_1_01) = "1.01" ∧
  canonical_key (object_name tess_1_01) = "1.01".
Proof. by_compute. Qed.

Example deduplicate_triple :
  deduplicate triple_711 =
  Ok {| columns := column_order;
        rows := [record_row (with_disposition kepler_711 "CONFIRMED")] |}.
Proof. by_compute. Qed.

(** A number and the text that spells it are two names: both rows
    survive, the number first. *)
Example deduplicate_number_and_text :
  (λ out, at_column "object_name" <$> rows out) <$>
    deduplicate
      {| columns := ["object_name"; "disposition"];
         rows := [list_to_map [("object_name", Str "1.5"); ("disposition", Str "CANDIDATE")];
                  list_to_map [("object_name", Num 1.5); ("disposition", Str "CONFIRMED")];
                  list_to_map [("object_name", Num 1.5); ("disposition", Str "CANDIDATE")]] |} =
  Ok [Num 1.5; Str "1.5"].
Proof. by_compute. Qed.

(** ** Disposition reconciler *)

(** C2, as the code has it: the extended reconciler of tests/script.py
    maps every spelling of the TESS codes [CP] and [KP] to CONFIRMED,
    row by row; the converter of convert_to_standard_format.py maps [KP]
    to CONFIRMED and [CP] to CANDIDATE. *)
Theorem tess_cp_kp_by_path float_str df i row s :
  "disposition" ∈ columns df →
  rows df !! i = Some row →
  row !! "disposition" = Some (Str s) →
  Py.upper s = "CP" ∨ Py.upper s = "KP" →
  (∃ out row', normalize_disposition_extended float_str df "TESS" = Ok out ∧
     rows out !! i = Some row' ∧
     row' !! "disposition" = Some (Str "CONFIRMED")) ∧
  tess_disposition (Str "KP") = Str "CONFIRMED" ∧
  tess_disposition (Str "CP") = Str "CANDIDATE".
Proof.
  intros Hd Hi Hs Hcode. split; [|done].
  destruct (normalize_disposition_extended_rows float_str df "TESS" Hd)
    as (out & Hout & Hrows).
  destruct (Hrows i row Hi) as (row' & Hrow' & Hdisp & _).
  exists out, row'. split; [done|]. split; [done|].
  assert (at_column "disposition" row = Str s) as Hcell
    by (unfold at_column; by rewrite Hs).
  by rewrite Hdisp, Hcell, reconcile_tess_confirmed.
Qed.

Lemma tess_cp_kp_by_path_witness :
  ∃ out row', normalize_disposition_extended (λ _, "nan") tess_fetched "TESS" = Ok out ∧
     rows out !! 0 = Some row' ∧
     row' !! "disposition" = Some (Str "CONFIRMED").
Proof.
  refine (proj1 (tess_cp_kp_by_path (λ _, "nan") tess_fetched 0
                   (list_to_map [("toi", Str "1468.01"); ("disposition", Str "cp")])
                   "cp" _ _ _ _)).
  - unfold tess_fetched. cbn [columns]. repeat constructor.
  - reflexivity.
  - vm_compute. reflexivity.
  - left. reflexivity.
Defined.

(** C2, the converter path: the TESS code [CP] becomes CANDIDATE. *)
Lemma tess_converter_cp_candidate :
  tess_disposition (Str "CP") = Str "CANDIDATE".
Proof. reflexivity. Qed.

(** ** Prediction matcher *)

(** C3: for every prediction and every threshold, whenever the matcher
    returns a table, its row for the prediction has the disposition
    CONFIRMED when [predicted_probability >= threshold] and FALSE
    POSITIVE when [predicted_probability < threshold], a probability
    equal to the threshold giving CONFIRMED; and the matcher does return
    a table on regular names (on which the normalizer returns). *)
Theorem threshold_rule predictions records threshold i p :
  predictions !! i = Some p →
  (Forall (λ p, regular (pred_object_name p) = true) predictions →
   Forall (λ r, regular (object_name r) = true) records →
   ∃ out, match_predictions_with_data predictions records threshold = Ok out) ∧
  ∀ out, match_predictions_with_data predictions records threshold = Ok out →
    ∃ row d,
      rows out !! i = Some row ∧
      row !! "disposition" = Some (Str d) ∧
      ((threshold <=? predicted_probability p)%float = true → d = "CONFIRMED") ∧
      ((predicted_probability p <? threshold)%float = true → d = "FALSE POSITIVE") ∧
      ((predicted_probability p =? threshold)%float = true → d = "CONFIRMED").
Proof.
  intros Hp. split.
  - intros Hpreds Hrecs.
    destruct (match_predictions_row _ records threshold _ _ Hpreds Hrecs Hp)
      as (out & Hout & _).
    by exists out.
  - intros out [_ Hrows]%match_predictions_rows.
    exists (spec_row records threshold i p),
      (predicted_disposition (predicted_probability p) threshold).
    split; [by rewrite Hrows, list_lookup_imap, Hp|].
    split; [apply spec_row_disposition|].
    unfold predicted_disposition. split; [by intros ->|].
    split; [by intros ->%ltb_not_leb | by intros ->%eqb_leb].
Qed.

Lemma threshold_rule_witness :
  ∃ out row,
    match_predictions_with_data
      [{| pred_object_name := Some "711.03"; predicted_probability := 0.5 |}]
      [kepler_711] 0.5 = Ok out ∧
    rows out !! 0 = Some row ∧
    row !! "disposition" = Some (Str "CONFIRMED").
Proof.
  destruct (threshold_rule
              [{| pred_object_name := Some "711.03"; predicted_probability := 0.5 |}]
              [kepler_711] 0.5 0
              {| pred_object_name := Some "711.03"; predicted_probability := 0.5 |}
              eq_refl)
    as [Hreturns Hrule].
  destruct Hreturns as (out & Hout); [regular_names..|].
  destruct (Hrule out Hout) as (row & d & Hrow & Hd & _ & _ & Heq).
  exists out, row. split; [exact Hout|]. split; [exact Hrow|].
  rewrite Hd. rewrite (Heq eq_refl). reflexivity.
Defined.

Example threshold_just_below :
  predicted_disposition 0x1.fffffffffffffp-2 0.5 = "FALSE POSITIVE".
Proof. reflexivity. Qed.

Example threshold_nan : predicted_disposition nan 0.5 = "FALSE POSITIVE".
Proof. reflexivity. Qed.

(** C4: on tables of regular names, a prediction whose canonical key is
    that of an archival record (the empty key belongs to none, see C7)
    yields a copy of the first such record in input order, later ones
    being ignored, with the disposition overwritten by the predicted one
    and the other eight fields unchanged. *)
Theorem matched_record_carried predictions records threshold i p j r :
  Forall (λ p, regular (pred_object_name p) = true) predictions →
  Forall (λ r, regular (object_name r) = true) records →
  predictions !! i = Some p →
  canonical_key (pred_object_name p) ≠ "" →
  records !! j = Some r →
  canonical_key (object_name r) = canonical_key (pred_object_name p) →
  (∀ j' r', records !! j' = Some r' → (j' < j)%nat →
     canonical_key (object_name r') ≠ canonical_key (pred_object_name p)) →
  ∃ out row,
    match_predictions_with_data predictions records threshold = Ok out ∧
    rows out !! i = Some row ∧
    row = record_row
            (with_disposition r
               (predicted_disposition (predicted_probability p) threshold)) ∧
    row !! "disposition" =
      Some (Str (predicted_disposition (predicted_probability p) threshold)) ∧
    row !! "mission" = Some (Str (mission r)) ∧
    row !! "object_name" = Some (name_cell (object_name r)) ∧
    row !! "period" = Some (Num (period r)) ∧
    row !! "planet_radius" = Some (Num (planet_radius r)) ∧
    row !! "star_temp" = Some (Num (star_temp r)) ∧
    row !! "star_radius" = Some (Num (star_radius r)) ∧
    row !! "star_mass" = Some (Num (star_mass r)) ∧
    row !! "discovery_facility" = Some (Str (discovery_facility r)) ∧
    dom row = list_to_set column_order.
Proof.
  intros Hpreds Hrecs Hp Hkey Hj Hr Hfirst.
  destruct (match_predictions_row _ records threshold _ _ Hpreds Hrecs Hp)
    as (out & Hout & _ & _ & _ & Hrow).
  eexists out, _. split; [done|]. split; [done|].
  unfold spec_row. rewrite decide_False by done.
  rewrite (first_seen_first _ _ _ _ Hj Hr Hfirst).
  split; [done|].
  generalize (predicted_disposition (predicted_probability p) threshold).
  intros d. by_conversion.
Qed.

Lemma matched_record_carried_witness :
  ∃ out row,
    match_predictions_with_data
      [{| pred_object_name := Some "711.03"; predicted_probability := 0.875 |}]
      [kepler_711; tess_711] 0.5 = Ok out ∧
    rows out !! 0 = Some row ∧
    row !! "disposition" = Some (Str "CONFIRMED") ∧
    row !! "mission" = Some (Str "Kepler") ∧
    row !! "period" = Some (Num 124.5).
Proof.
  destruct (matched_record_carried
              [{| pred_object_name := Some "711.03"; predicted_probability := 0.875 |}]
              [kepler_711; tess_711] 0.5 0
              {| pred_object_name := Some "711.03"; predicted_probability := 0.875 |}
              0 kepler_711)
    as (out & row & Hout & Hrow & _ & Hd & Hm & _ & Hper & _).
  - regular_names.
  - regular_names.
  - reflexivity.
  - vm_compute. discriminate.
  - reflexivity.
  - vm_compute. reflexivity.
  - intros j' r' _ Hlt. lia.
  - exists out, row. repeat split; assumption.
Defined.

(** C5: on tables of regular names, a prediction whose canonical key
    belongs to no archival record is not dropped: the matcher returns
    one row per prediction, in input order, and at the prediction's
    zero-based position the placeholder ARCHIVE / PLANET_i / predicted
    disposition / five unknown measurements / UNKNOWN. *)
Theorem unmatched_prediction_placeholder predictions records threshold i p :
  Forall (λ p, regular (pred_object_name p) = true) predictions →
  Forall (λ r, regular (object_name r) = true) records →
  predictions !! i = Some p →
  (∀ r, r ∈ records →
     canonical_key (object_name r) ≠ canonical_key (pred_object_name p)) →
  ∃ out row,
    match_predictions_with_data predictions records threshold = Ok out ∧
    columns out = column_order ∧
    length (rows out) = length predictions ∧
    rows out = imap (spec_row records threshold) predictions ∧
    rows out !! i = Some row ∧
    row !! "mission" = Some (Str "ARCHIVE") ∧
    row !! "object_name" = Some (Str ("PLANET_" ++ Py.str_of_int (N.of_nat i))) ∧
    row !! "disposition" =
      Some (Str (predicted_disposition (predicted_probability p) threshold)) ∧
    row !! "period" = Some (Num nan) ∧
    row !! "planet_radius" = Some (Num nan) ∧
    row !! "star_temp" = Some (Num nan) ∧
    row !! "star_radius" = Some (Num nan) ∧
    row !! "star_mass" = Some (Num nan) ∧
    row !! "discovery_facility" = Some (Str "UNKNOWN") ∧
    dom row = list_to_set column_order.
Proof.
  intros Hpreds Hrecs Hp Hno.
  destruct (match_predictions_row _ records threshold _ _ Hpreds Hrecs Hp)
    as (out & Hout & Hcols & Hrows & Hlen & Hrow).
  eexists out, _. do 4 (split; [done|]). split; [done|].
  unfold spec_row. rewrite (first_seen_None _ _ Hno).
  generalize (predicted_disposition (predicted_probability p) threshold).
  intros d. destruct (decide _); by_conversion.
Qed.

Lemma unmatched_prediction_placeholder_witness :
  ∃ out row,
    match_predictions_with_data
      [{| pred_object_name := Some "711.03"; predicted_probability := 0.875 |};
       {| pred_object_name := Some "999.99"; predicted_probability := 0.25 |}]
      [kepler_711] 0.5 = Ok out ∧
    length (rows out) = 2 ∧
    rows out !! 1 = Some row ∧
    row !! "mission" = Some (Str "ARCHIVE") ∧
    row !! "object_name" = Some (Str "PLANET_1") ∧
    row !! "disposition" = Some (Str "FALSE POSITIVE") ∧
    row !! "period" = Some (Num nan).
Proof.
  destruct (unmatched_prediction_placeholder
              [{| pred_object_name := Some "711.03"; predicted_probability := 0.875 |};
               {| pred_object_name := Some "999.99"; predicted_probability := 0.25 |}]
              [kepler_711] 0.5 1
              {| pred_object_name := Some "999.99"; predicted_probability := 0.25 |})
    as (out & row & Hout & _ & Hlen & _ & Hrow & Hm & Hn & Hd & Hper & _).
  - regular_names.
  - regular_names.
  - reflexivity.
  - intros r Hr. apply list_elem_of_singleton in Hr. rewrite Hr.
    vm_compute. discriminate.
  - exists out, row. repeat split; assumption.
Defined.

Example placeholder_index_12 :
  placeholder 12 "CONFIRMED" !! "object_name" = Some (Str "PLANET_12").
Proof. reflexivity. Qed.

(** C10: without a prediction the matcher raises, whatever the records
    (for regular names: the table built from no record has no column,
    and selecting the nine columns is a [KeyError]); with at least one
    prediction, on regular names, it returns a table with the nine
    canonical columns. *)
Theorem match_predictions_requires_prediction records threshold p predictions :
  Forall (λ p, regular (pred_object_name p) = true) (p :: predictions) →
  Forall (λ r, regular (object_name r) = true) records →
  (∀ all_data, ∃ e, match_predictions_with_data [] all_data threshold = Raise e) ∧
  match_predictions_with_data [] records threshold = Raise (KeyError column_order) ∧
  ∃ out, match_predictions_with_data (p :: predictions) records threshold = Ok out ∧
         columns out = column_order ∧
         length (rows out) = length (p :: predictions).
Proof.
  intros Hpreds Hrecs. split; [|split].
  - intros all_data.
    destruct (match_predictions_with_data_nil all_data threshold) as (e & He & _).
    by exists e.
  - destruct (match_predictions_with_data_nil records threshold) as (e & He & Hk).
    by rewrite He, (Hk Hrecs).
  - rewrite match_predictions_with_data_spec by done.
    eexists. split; [reflexivity|].
    split; [reflexivity|]. cbn [rows]. by rewrite length_imap.
Qed.

Lemma match_predictions_requires_prediction_witness :
  match_predictions_with_data [] [kepler_711] 0.5 = Raise (KeyError column_order) ∧
  ∃ out, match_predictions_with_data [prediction_711] [kepler_711] 0.5 = Ok out ∧
         columns out = column_order ∧
         length (rows out) = 1%nat.
Proof.
  destruct (match_predictions_requires_prediction [kepler_711] 0.5
              prediction_711 [])
    as (_ & Hnil & Hcons); [regular_names..|].
  split; [exact Hnil | exact Hcons].
Defined.

(** ** Identifier normalizer *)

(** C6: the normalizer removes the first prefix of the list K, KOI-,
    KOI␣, TOI-, TOI␣, EPIC␣, EPIC- that starts the trimmed name,
    case-insensitively, and no second one; a first part made of digits,
    of no more than [int] converts, loses its redundant leading zeros;
    and the four names of the specification normalize as stated. *)
Theorem normalize_prefix_and_zeros name p0 tail :
  Py.isascii name = true →
  Py.isdigit p0 = true →
  (String.length p0 ≤ Py.int_max_str_digits)%nat →
  normalize_object_name (Some "K00711.03") = Ok "711.03" ∧
  normalize_object_name (Some "711.03") = Ok "711.03" ∧
  normalize_object_name (Some "TOI-1468.01") = Ok "1468.01" ∧
  normalize_object_name (Some "EPIC 201367065") = Ok "201367065" ∧
  normalize_object_name (Some "toi 0219.02") = Ok "219.02" ∧
  normalize_object_name (Some "KK00711.03") = Ok "K00711.03" ∧
  normalize_object_name (Some "KOI-0042.01") = Ok "OI-0042.01" ∧
  normalize_object_name (Some name) =
    (name' ← normalize_head (remove_prefix prefixes (Py.strip name));
     Ok (Py.strip name')) ∧
  remove_prefix prefixes name =
    match find (λ prefix, Py.startswith (Py.upper name) (Py.upper prefix))
               prefixes with
    | Some prefix => Py.slice_from (String.length prefix) name
    | None => name
    end ∧
  normalize_head (p0 ++ "." ++ tail) = Ok (drop_zeros p0 ++ "." ++ tail).
Proof.
  intros _ Hd Hlen. do 8 (split; [reflexivity|]).
  split; [apply remove_prefix_find | by apply normalize_head_digits].
Qed.

Lemma normalize_prefix_and_zeros_witness :
  Py.isdigit "00711" = true ∧
  remove_prefix prefixes "K00711.03" = "00711.03" ∧
  normalize_head ("00711" ++ "." ++ "03") = Ok "711.03".
Proof.
  split; [reflexivity|].
  assert (String.length "00711" ≤ Py.int_max_str_digits)%nat as Hlen
    by (apply Nat.leb_le; reflexivity).
  destruct (normalize_prefix_and_zeros "K00711.03" "00711" "03"
              eq_refl eq_refl Hlen)
    as (_ & _ & _ & _ & _ & _ & _ & _ & Hprefix & Hhead).
  split; [rewrite Hprefix; reflexivity | exact Hhead].
Defined.




(** C8, as the code has it: for a regular name whose normalized form
    starts with no recognised prefix, normalizing the normalized form
    gives it back exactly when that form has no numeric head that is
    zero-padded or that has more digits than [int] converts. *)
Theorem normalize_idempotent_iff name :
  regular name = true →
  has_prefix (canonical_key name) = false →
  normalize_object_name (Some (canonical_key name)) = Ok (canonical_key name) ↔
  zero_padded_head (canonical_key name) = false ∧
  within_int_limit (canonical_key name) = true.
Proof.
  intros _ Hp. apply normalize_stripped_key; [apply canonical_key_stripped | done].
Qed.

Lemma normalize_idempotent_iff_witness :
  has_prefix (canonical_key (Some "K00711.03")) = false ∧
  normalize_object_name (Some (canonical_key (Some "K00711.03"))) =
    Ok (canonical_key (Some "K00711.03")).
Proof.
  split; [reflexivity|].
  apply (proj2 (normalize_idempotent_iff (Some "K00711.03") eq_refl eq_refl)).
  split; reflexivity.
Defined.

(** C8, the claim as stated fails: the normalized form of [K 007.1]
    starts with no prefix, and normalizing it again changes it. *)
Lemma normalize_not_idempotent :
  normalize_object_name (Some "K 007.1") = Ok "007.1" ∧
  has_prefix "007.1" = false ∧
  normalize_object_name (Some "007.1") = Ok "7.1".
Proof. by_compute. Qed.

(** The second pass can also raise: behind a blank, a number of 4301
    digits is no digit string for the first pass, and is one for the
    second. *)
Example normalize_second_pass_raises :
  regular (Some ("K " ++ Py.repeat "1" 4301 ++ ".5")) = true ∧
  normalize_object_name (Some ("K " ++ Py.repeat "1" 4301 ++ ".5")) =
    Ok (Py.repeat "1" 4301 ++ ".5") ∧
  has_prefix (Py.repeat "1" 4301 ++ ".5") = false ∧
  zero_padded_head (Py.repeat "1" 4301 ++ ".5") = false ∧
  normalize_object_name (Some (Py.repeat "1" 4301 ++ ".5")) = Raise ValueError.
Proof. by_compute. Qed.

(** ** Schema mapper *)

(** C9, the Kepler mapper: when one of its five physical source columns
    is absent from the raw table, the mapping raises a [KeyError]. *)
Theorem kepler_mapper_raises_on_absent_column df c :
  c ∈ kepler_physical_sources → c ∉ columns df →
  ∃ missing, convert_kepler_to_standard df = Raise (KeyError missing).
Proof.
  intros Hc Habs. unfold convert_kepler_to_standard.
  destruct (decide ("kepoi_name" ∈ columns df)) as [H1|H1];
    [rewrite (getitem_present _ _ H1)|rewrite (getitem_absent _ _ H1); by eexists].
  destruct (decide ("koi_disposition" ∈ columns df)) as [H2|H2];
    [rewrite (getitem_present _ _ H2)|rewrite (getitem_absent _ _ H2); by eexists].
  cbn [mbind result_bind].
  repeat match goal with
  | |- context [getitem df ?col] =>
      let Hin := fresh "Hin" in
      destruct (decide (col ∈ columns df)) as [Hin|Hin];
      [rewrite (getitem_present _ _ Hin); cbn [mbind result_bind]
      |rewrite (getitem_absent _ _ Hin); by eexists]
  end.
  unfold kepler_physical_sources in Hc.
  repeat (apply elem_of_cons in Hc as [->|Hc]; [done|]).
  by apply elem_of_nil in Hc.
Qed.

Lemma kepler_mapper_raises_on_absent_column_witness :
  ∃ missing, convert_kepler_to_standard kepler_without_smass = Raise (KeyError missing).
Proof.
  apply (kepler_mapper_raises_on_absent_column kepler_without_smass "koi_smass").
  - unfold kepler_physical_sources. repeat constructor.
  - apply (bool_decide_unpack ("koi_smass" ∉ columns kepler_without_smass)).
    vm_compute. exact I.
Defined.

Example kepler_without_smass_raises :
  convert_kepler_to_standard kepler_without_smass = Raise (KeyError ["koi_smass"]).
Proof. by_compute. Qed.

(** The K2 mapper on the like table: a row with the unknown marker. *)
Example k2_without_mass_maps :
  (λ out, (columns out, (λ row, (row !! "period", row !! "star_mass")) <$> rows out))
    <$> convert_k2_to_standard k2_without_mass =
  Ok (column_order, [(Some (Num 8.5), Some NA)]).
Proof. by_compute. Qed.

(** * Further properties *)

(** ** Python strings, continued *)

Lemma append_assoc (a b c : string) : (a ++ b) ++ c = a ++ b ++ c.
Proof.
  induction a as [|x a IH]; [done|].
  change (String x ((a ++ b) ++ c) = String x (a ++ b ++ c)). by rewrite IH.
Qed.

Lemma upper_append a b : Py.upper (a ++ b) = Py.upper a ++ Py.upper b.
Proof.
  induction a as [|x a IH]; [done|].
  change (String (Py.upper_char x) (Py.upper (a ++ b)) =
          String (Py.upper_char x) (Py.upper a ++ Py.upper b)).
  by rewrite IH.
Qed.

Lemma isspace_upper_char c : Py.isspace (Py.upper_char c) = Py.isspace c.
Proof. by destruct c as [[] [] [] [] [] [] [] []]. Qed.

Lemma isdigit_char_facts c :
  Py.isdigit_char c = true →
  Py.isspace c = false ∧ Py.upper_char c = c ∧ c ≠ "."%char ∧
  has_prefix (String c "") = false.
Proof.
  destruct c as [[] [] [] [] [] [] [] []]; intros Hc; vm_compute in Hc;
    try discriminate Hc; repeat split; done.
Qed.

Lemma rstrip_cons_nonspace c t :
  Py.isspace c = false → Py.rstrip (String c t) = String c (Py.rstrip t).
Proof. intros Hc. cbn [Py.rstrip]. destruct (Py.rstrip t); by rewrite ?Hc. Qed.

Lemma rstrip_append a b :
  Py.rstrip b ≠ "" → Py.rstrip (a ++ b) = a ++ Py.rstrip b.
Proof.
  intros Hb. induction a as [|x a IH]; [done|].
  change (Py.rstrip (String x (a ++ b)) = String x (a ++ Py.rstrip b)).
  cbn [Py.rstrip]. rewrite IH. destruct (a ++ Py.rstrip b) eqn:Hab; [|done].
  destruct a; [|done]. by destruct Hb.
Qed.

(** Trailing whitespace after a point is all that [rstrip] removes. *)
Lemma rstrip_append_dot a t : Py.rstrip (a ++ "." ++ t) = a ++ "." ++ Py.rstrip t.
Proof.
  change ("." ++ t) with (String "." t).
  change ("." ++ Py.rstrip t) with (String "." (Py.rstrip t)).
  rewrite rstrip_append; by rewrite rstrip_cons_nonspace.
Qed.

Lemma rstrip_all_digits h : Py.all_digits h = true → Py.rstrip h = h.
Proof.
  induction h as [|c h IH]; [done|].
  cbn [Py.all_digits]. intros [Hc Hh]%andb_prop.
  destruct (isdigit_char_facts _ Hc) as (Hs & _).
  by rewrite rstrip_cons_nonspace, IH.
Qed.

Lemma lstrip_cons_nonspace c t :
  Py.isspace c = false → Py.lstrip (String c t) = String c t.
Proof. intros Hc. cbn [Py.lstrip]. by rewrite Hc. Qed.

Lemma all_digits_drop_zeros h :
  Py.all_digits h = true → Py.all_digits (drop_zeros h) = true.
Proof.
  induction h as [|c h IH]; [done|]. intros Hh.
  pose proof Hh as [Hc Hh']%andb_prop.
  destruct c as [[] [] [] [] [] [] [] []]; try done.
  destruct h as [|b h]; [done|]. by apply IH.
Qed.

Lemma isdigit_drop_zeros h : Py.isdigit h = true → Py.isdigit (drop_zeros h) = true.
Proof.
  intros Hd. assert (Py.all_digits h = true) as Ha by by destruct h.
  apply all_digits_drop_zeros in Ha.
  destruct (drop_zeros h) eqn:Hz; [|done].
  destruct h as [|c h]; [done|]. clear -Hz. exfalso.
  revert c Hz. induction h as [|b h IH]; intros c Hz.
  - by destruct c as [[] [] [] [] [] [] [] []].
  - destruct c as [[] [] [] [] [] [] [] []]; try done. by eapply IH.
Qed.

Lemma isdigit_cons h :
  Py.isdigit h = true →
  ∃ c r, h = String c r ∧ Py.isdigit_char c = true ∧ Py.all_digits r = true.
Proof.
  destruct h as [|c r]; [done|]. cbn [Py.isdigit Py.all_digits].
  intros [? ?]%andb_prop. eauto.
Qed.

(** A name that starts with a digit starts with no prefix. *)
Lemma has_prefix_digit c r : Py.isdigit_char c = true → has_prefix (String c r) = false.
Proof.
  intros Hc. destruct c as [[] [] [] [] [] [] [] []]; vm_compute in Hc;
    try discriminate Hc; reflexivity.
Qed.

Lemma strip_digits_dot h t :
  Py.isdigit h = true → Py.strip (h ++ "." ++ t) = h ++ "." ++ Py.rstrip t.
Proof.
  intros (c & r & -> & Hc & _)%isdigit_cons. unfold Py.strip.
  change (String c r ++ "." ++ t) with (String c (r ++ "." ++ t)).
  destruct (isdigit_char_facts _ Hc) as (Hs & _).
  rewrite lstrip_cons_nonspace by done.
  change (String c (r ++ "." ++ t)) with (String c r ++ "." ++ t).
  apply rstrip_append_dot.
Qed.

(** ** Identifier normalizer, continued *)

(** The key of a bare number with a point. *)
Lemma normalize_bare_number h t :
  Py.isdigit h = true → (String.length h ≤ Py.int_max_str_digits)%nat →
  normalize_object_name (Some (h ++ "." ++ t)) =
  Ok (drop_zeros h ++ "." ++ Py.rstrip t).
Proof.
  intros Hd Hlen. unfold normalize_object_name.
  rewrite (strip_digits_dot _ _ Hd).
  destruct (isdigit_cons _ Hd) as (c & r & -> & Hc & _).
  rewrite remove_prefix_none by by apply has_prefix_digit.
  rewrite (normalize_head_digits _ _ Hd Hlen). cbn [mbind result_bind].
  rewrite strip_digits_dot by by apply isdigit_drop_zeros.
  by rewrite rstrip_idemp.
Qed.

Lemma upper_length s : String.length (Py.upper s) = String.length s.
Proof. induction s as [|c s IH]; [done|]. cbn. by rewrite IH. Qed.

Lemma slice_from_append a b : Py.slice_from (String.length a) (a ++ b) = b.
Proof. induction a as [|x a IH]; [by destruct b|]. exact IH. Qed.

Lemma prefix_append q a b :
  (String.length q ≤ String.length a)%nat →
  String.prefix q (a ++ b) = String.prefix q a.
Proof.
  revert a. induction q as [|x q IH]; intros a Hlen; [by destruct a, b|].
  destruct a as [|y a]; [cbn in Hlen; lia|].
  change (String y a ++ b) with (String y (a ++ b)). cbn [String.prefix].
  destruct (ascii_dec x y); [|done]. apply IH. cbn in Hlen. lia.
Qed.

(** Whether a prefix starts the name is decided by the characters it
    covers. *)
Lemma startswith_upper_append a b q :
  (String.length q ≤ String.length a)%nat →
  Py.startswith (Py.upper (a ++ b)) q = Py.startswith (Py.upper a) q.
Proof.
  intros Hlen. unfold Py.startswith. rewrite upper_append.
  apply prefix_append. by rewrite upper_length.
Qed.

Lemma remove_prefix_effective p' rest :
  Py.upper p' ∈ effective_prefixes →
  remove_prefix prefixes (p' ++ rest) = rest.
Proof.
  intros Hin. unfold effective_prefixes in Hin.
  assert (∀ q, (String.length q ≤ String.length (Py.upper p'))%nat →
            Py.startswith (Py.upper (p' ++ rest)) q =
            Py.startswith (Py.upper p') q) as Hstart.
  { intros q Hq. apply startswith_upper_append. by rewrite upper_length in Hq. }
  pose proof (slice_from_append p' rest) as Hslice.
  rewrite <- (upper_length p') in Hslice.
  unfold prefixes. cbn [remove_prefix].
  repeat (apply elem_of_cons in Hin as [Hp|Hin];
          [rewrite Hp in Hstart, Hslice;
           rewrite !Hstart by (cbn; lia); exact Hslice|]).
  by apply elem_of_nil in Hin.
Qed.

Lemma upper_cons_nonspace p' x y :
  Py.upper p' = String x y → Py.isspace x = false →
  ∃ a r, p' = String a r ∧ Py.isspace a = false ∧ Py.upper r = y.
Proof.
  destruct p' as [|a r]; [done|]. cbn [Py.upper]. intros [= Ha Hr] Hx.
  exists a, r. by rewrite <- isspace_upper_char, Ha.
Qed.

Lemma effective_prefix_head p' :
  Py.upper p' ∈ effective_prefixes ∨ Py.upper p' ∈ shadowed_prefixes →
  ∃ a r, p' = String a r ∧ Py.isspace a = false.
Proof.
  unfold effective_prefixes, shadowed_prefixes. intros [Hin|Hin];
    repeat (apply elem_of_cons in Hin as [Hp|Hin];
            [destruct (upper_cons_nonspace _ _ _ Hp eq_refl) as (a & r & ? & ? & _);
             by eauto|]);
    by apply elem_of_nil in Hin.
Qed.

(** Trimming a prefixed name with a point only trims its tail. *)
Lemma strip_prefixed_dot p' h t :
  Py.upper p' ∈ effective_prefixes ∨ Py.upper p' ∈ shadowed_prefixes →
  Py.strip (p' ++ h ++ "." ++ t) = p' ++ h ++ "." ++ Py.rstrip t.
Proof.
  intros (a & r & -> & Ha)%effective_prefix_head. unfold Py.strip.
  change (String a r ++ h ++ "." ++ t) with (String a (r ++ h ++ "." ++ t)).
  rewrite lstrip_cons_nonspace by done.
  change (String a (r ++ h ++ "." ++ t)) with (String a r ++ h ++ "." ++ t).
  by rewrite <- !(append_assoc (String a r) h), rstrip_append_dot.
Qed.

(** A bare number of more digits than [int] converts has no key. *)
Lemma normalize_bare_number_over_limit h t :
  Py.isdigit h = true → (Py.int_max_str_digits < String.length h)%nat →
  normalize_object_name (Some (h ++ "." ++ t)) = Raise ValueError.
Proof.
  intros Hd Hlen. unfold normalize_object_name.
  rewrite (strip_digits_dot _ _ Hd).
  destruct (isdigit_cons _ Hd) as (c & r & -> & Hc & _).
  rewrite remove_prefix_none by by apply has_prefix_digit.
  by rewrite (normalize_head_over_limit _ _ Hd Hlen).
Qed.

Lemma prefixed_number_key_bare h t :
  Py.isdigit h = true → (String.length h ≤ Py.int_max_str_digits)%nat →
  canonical_key (Some (h ++ "." ++ t)) = drop_zeros h ++ "." ++ Py.rstrip t.
Proof.
  intros Hd Hlen. unfold canonical_key.
  by rewrite (normalize_bare_number _ _ Hd Hlen).
Qed.

Lemma prefixed_number_key_prefixed p' h t :
  Py.upper p' ∈ effective_prefixes →
  Py.isdigit h = true → (String.length h ≤ Py.int_max_str_digits)%nat →
  canonical_key (Some (p' ++ h ++ "." ++ t)) = drop_zeros h ++ "." ++ Py.rstrip t.
Proof.
  intros Hp Hd Hlen. unfold canonical_key, normalize_object_name.
  rewrite strip_prefixed_dot by by left.
  rewrite (remove_prefix_effective _ _ Hp), (normalize_head_digits _ _ Hd Hlen).
  cbn [mbind result_bind].
  rewrite strip_digits_dot by by apply isdigit_drop_zeros.
  by rewrite rstrip_idemp.
Qed.

(** X1: a number with a point, of no more digits than [int] converts,
    under a removable prefix (K, TOI-, TOI␣, EPIC␣, EPIC-, in any letter
    case) and before an ASCII tail, is normalized to the key of the bare
    number: the number without its redundant leading zeros, the point,
    and the tail without its trailing whitespace. *)
Theorem prefixed_number_key p' h t :
  Py.upper p' ∈ effective_prefixes →
  Py.isdigit h = true →
  (String.length h ≤ Py.int_max_str_digits)%nat →
  Py.isascii t = true →
  normalize_object_name (Some (p' ++ h ++ "." ++ t)) =
    Ok (drop_zeros h ++ "." ++ Py.rstrip t) ∧
  normalize_object_name (Some (h ++ "." ++ t)) =
    Ok (drop_zeros h ++ "." ++ Py.rstrip t).
Proof.
  intros Hp Hd Hlen _. split; [|by apply normalize_bare_number].
  unfold normalize_object_name.
  rewrite strip_prefixed_dot by by left.
  rewrite (remove_prefix_effective _ _ Hp), (normalize_head_digits _ _ Hd Hlen).
  cbn [mbind result_bind].
  rewrite strip_digits_dot by by apply isdigit_drop_zeros.
  by rewrite rstrip_idemp.
Qed.

Lemma prefixed_number_key_witness :
  normalize_object_name (Some ("toi-" ++ "001468" ++ "." ++ "01 ")) = Ok "1468.01" ∧
  normalize_object_name (Some ("001468" ++ "." ++ "01 ")) = Ok "1468.01".
Proof.
  apply (prefixed_number_key "toi-" "001468" "01 ").
  - unfold effective_prefixes. vm_compute Py.upper. repeat constructor.
  - reflexivity.
  - apply Nat.leb_le. reflexivity.
  - reflexivity.
Defined.

(** X2: without a point the leading zeros stay: a digit string under a
    removable prefix has itself as key, zeros included, and so has the
    bare digit string ([K00711] and [711] do not share a key). *)
Theorem prefixed_digits_key p' h :
  Py.upper p' ∈ effective_prefixes →
  Py.isdigit h = true →
  canonical_key (Some (p' ++ h)) = h ∧ canonical_key (Some h) = h.
Proof.
  intros Hp Hd.
  assert (∀ name key, normalize_object_name name = Ok key → canonical_key name = key)
    as Hkey by (intros name key Hn; unfold canonical_key; by rewrite Hn).
  destruct (isdigit_cons _ Hd) as (c & r & Hh & Hc & Hr).
  assert (Py.all_digits h = true) as Hall by (subst h; cbn; by rewrite Hc, Hr).
  destruct (isdigit_char_facts _ Hc) as (Hs & _).
  assert (Py.strip h = h) as Hstrip.
  { unfold Py.strip. subst h. rewrite lstrip_cons_nonspace by done.
    by apply rstrip_all_digits. }
  assert (normalize_head h = Ok h) as Hhead.
  { unfold normalize_head. by rewrite (all_digits_contains _ Hall). }
  split; apply Hkey; unfold normalize_object_name.
  - destruct (effective_prefix_head p' (or_introl Hp)) as (a & p'' & -> & Ha).
    assert (Py.strip (String a p'' ++ h) = String a p'' ++ h) as ->.
    { unfold Py.strip.
      change (String a p'' ++ h) with (String a (p'' ++ h)).
      rewrite lstrip_cons_nonspace by done.
      change (String a (p'' ++ h)) with (String a p'' ++ h).
      rewrite rstrip_append; rewrite (rstrip_all_digits _ Hall); [done|].
      by subst h. }
    rewrite (remove_prefix_effective _ _ Hp), Hhead. cbn [mbind result_bind].
    by rewrite Hstrip.
  - rewrite Hstrip, remove_prefix_none by (subst h; by apply has_prefix_digit).
    rewrite Hhead. cbn [mbind result_bind]. by rewrite Hstrip.
Qed.

Lemma prefixed_digits_key_witness :
  canonical_key (Some ("K" ++ "00711")) = "00711" ∧ canonical_key (Some "00711") = "00711".
Proof.
  apply (prefixed_digits_key "K" "00711").
  - unfold effective_prefixes. vm_compute Py.upper. repeat constructor.
  - reflexivity.
Defined.

Lemma normalize_head_letter c r :
  Py.isdigit_char c = false → normalize_head (String c r) = Ok (String c r).
Proof.
  intros Hc. unfold normalize_head. destruct (Py.contains _ _); [|done].
  pose proof (join_split "." (String c r)) as Hj.
  destruct (Py.split "." (String c r)) as [|p0 parts] eqn:Hs.
  { by destruct (split_nonempty "." (String c r)) as (? & ? & ?). }
  assert (Py.isdigit p0 = false) as ->; [|by cbn [mbind result_bind]; rewrite Hj].
  cbn [Py.split] in Hs. destruct (Ascii.eqb c "."); [by injection Hs as <- _|].
  destruct (Py.split "." r); injection Hs as <- _; cbn; by rewrite Hc.
Qed.

(** X3: the prefixes [KOI-] and [KOI␣] are never removed, because [K]
    is tried first: a name that starts with one of them, in any letter
    case, loses its first letter only, keeps the leading zeros of its
    number, and so never shares the key of the bare number. *)
Theorem koi_prefix_shadowed p' h t :
  Py.upper p' ∈ shadowed_prefixes →
  Py.isdigit h = true →
  canonical_key (Some (p' ++ h ++ "." ++ t)) =
    Py.slice_from 1 p' ++ h ++ "." ++ Py.rstrip t ∧
  remove_prefix prefixes (p' ++ h ++ "." ++ t) = Py.slice_from 1 (p' ++ h ++ "." ++ t) ∧
  canonical_key (Some (p' ++ h ++ "." ++ t)) ≠ canonical_key (Some (h ++ "." ++ t)).
Proof.
  intros Hp Hd.
  assert (∃ a b r, p' = String a (String b r) ∧ Py.upper_char a = "K"%char ∧
                   Py.upper_char b = "O"%char) as (a & b & r & -> & Ha & Hb).
  { unfold shadowed_prefixes in Hp.
    repeat (apply elem_of_cons in Hp as [Hp|Hp];
            [destruct p' as [|a [|b r]]; cbn [Py.upper] in Hp; try done;
             injection Hp as ? ? _; by eauto 10|]).
    by apply elem_of_nil in Hp. }
  assert (remove_prefix prefixes (String a "" ++ (String b r ++ h ++ "." ++ Py.rstrip t))
          = String b r ++ h ++ "." ++ Py.rstrip t) as Hrem.
  { apply remove_prefix_effective. cbn [Py.upper]. rewrite Ha. by left. }
  assert (canonical_key (Some (String a (String b r) ++ h ++ "." ++ t)) =
          String b r ++ h ++ "." ++ Py.rstrip t) as Hkey.
  { unfold canonical_key, normalize_object_name.
    rewrite strip_prefixed_dot by by right.
    change (String a (String b r) ++ h ++ "." ++ Py.rstrip t)
      with (String a "" ++ (String b r ++ h ++ "." ++ Py.rstrip t)).
    rewrite Hrem.
    change (String b r ++ h ++ "." ++ Py.rstrip t)
      with (String b (r ++ h ++ "." ++ Py.rstrip t)).
    rewrite normalize_head_letter
      by (destruct b as [[] [] [] [] [] [] [] []]; by vm_compute in Hb |- *).
    cbn [mbind result_bind]. unfold Py.strip.
    rewrite lstrip_cons_nonspace
      by (rewrite <- isspace_upper_char, Hb; reflexivity).
    change (String b (r ++ h ++ "." ++ Py.rstrip t))
      with (String b r ++ h ++ "." ++ Py.rstrip t).
    by rewrite <- !(append_assoc (String b r) h), rstrip_append_dot, rstrip_idemp. }
  split; [exact Hkey|]. split.
  - change (String a (String b r) ++ h ++ "." ++ t)
      with (String a "" ++ (String b r ++ h ++ "." ++ t)).
    apply remove_prefix_effective. cbn [Py.upper]. rewrite Ha. by left.
  - rewrite Hkey.
    change (String b r ++ h ++ "." ++ Py.rstrip t)
      with (String b (r ++ h ++ "." ++ Py.rstrip t)).
    destruct (decide (String.length h ≤ Py.int_max_str_digits)%nat) as [Hlen|Hlen].
    + rewrite (prefixed_number_key_bare h t Hd Hlen).
      destruct (isdigit_cons _ (isdigit_drop_zeros _ Hd)) as (c & z & -> & Hc & _).
      change (String c z ++ "." ++ Py.rstrip t)
        with (String c (z ++ "." ++ Py.rstrip t)).
      intros [= -> _]. destruct c as [[] [] [] [] [] [] [] []];
        by vm_compute in Hb, Hc.
    + unfold canonical_key.
      by rewrite (normalize_bare_number_over_limit h t Hd) by lia.
Qed.

Lemma koi_prefix_shadowed_witness :
  canonical_key (Some ("KOI-" ++ "00711" ++ "." ++ "03")) = "OI-00711.03".
Proof.
  refine (proj1 (koi_prefix_shadowed "KOI-" "00711" "03" _ eq_refl)).
  unfold shadowed_prefixes. vm_compute Py.upper. repeat constructor.
Defined.

(** X4: the key depends on a name only through its trimmed form, has no
    leading or trailing whitespace itself, and is empty for a name of
    whitespace only. *)
Theorem canonical_key_trimmed name s :
  Py.strip (canonical_key name) = canonical_key name ∧
  canonical_key (Some (Py.strip s)) = canonical_key (Some s) ∧
  (Py.strip s = "" → canonical_key (Some s) = "").
Proof.
  split; [apply canonical_key_stripped|].
  unfold canonical_key, normalize_object_name. rewrite strip_idemp.
  split; [done|]. by intros ->.
Qed.

Lemma canonical_key_trimmed_witness : canonical_key (Some "   ") = "".
Proof.
  exact (proj2 (proj2 (canonical_key_trimmed None "   ")) eq_refl).
Defined.

(** ** Prediction matcher, continued *)

Lemma spec_row_dom records threshold i p :
  dom (spec_row records threshold i p) = list_to_set column_order.
Proof.
  unfold spec_row.
  generalize (predicted_disposition (predicted_probability p) threshold).
  intros d. by destruct (if decide _ then _ else _).
Qed.

Lemma predicted_disposition_cases prob threshold :
  predicted_disposition prob threshold = "CONFIRMED" ∨
  predicted_disposition prob threshold = "FALSE POSITIVE".
Proof. unfold predicted_disposition. destruct (_ <=? _)%float; auto. Qed.

(** X5: whenever the matcher returns a table, it has the nine canonical
    columns and one row per prediction; every row binds exactly the nine
    columns and its disposition is CONFIRMED or FALSE POSITIVE (what
    test_final_output.py checks of the output file). *)
Theorem output_schema_and_dispositions predictions records threshold out row :
  match_predictions_with_data predictions records threshold = Ok out →
  row ∈ rows out →
  columns out = column_order ∧
  length (rows out) = length predictions ∧
  dom row = list_to_set column_order ∧
  (row !! "disposition" = Some (Str "CONFIRMED") ∨
   row !! "disposition" = Some (Str "FALSE POSITIVE")).
Proof.
  intros [Hcols Hrows]%match_predictions_rows Hrow.
  split; [done|]. rewrite Hrows in Hrow |- *. split; [by rewrite length_imap|].
  apply list_elem_of_lookup in Hrow as [i Hi].
  apply list_lookup_imap_Some in Hi as (p & _ & ->).
  split; [apply spec_row_dom|]. rewrite spec_row_disposition.
  destruct (predicted_disposition_cases (predicted_probability p) threshold)
    as [-> | ->]; auto.
Qed.

Lemma output_schema_and_dispositions_witness :
  columns output_711 = column_order ∧
  length (rows output_711) = length [prediction_711] ∧
  dom (record_row (with_disposition kepler_711 "CONFIRMED")) =
    list_to_set column_order ∧
  (record_row (with_disposition kepler_711 "CONFIRMED") !! "disposition" =
     Some (Str "CONFIRMED") ∨
   record_row (with_disposition kepler_711 "CONFIRMED") !! "disposition" =
     Some (Str "FALSE POSITIVE")).
Proof.
  apply (output_schema_and_dispositions [prediction_711] [kepler_711; tess_711] 0.5).
  - vm_compute. reflexivity.
  - unfold output_711. cbn [rows]. repeat constructor.
Defined.

Lemma first_seen_fmap (g : CanonicalRecord → CanonicalRecord) key records :
  (∀ r, object_name (g r) = object_name r) →
  first_seen key (g <$> records) = g <$> first_seen key records.
Proof.
  intros Hg. unfold first_seen. rewrite list_find_fmap.
  rewrite (list_find_ext _ (λ r, canonical_key (object_name r) = key))
    by (intros r; cbn; by rewrite Hg).
  by destruct (list_find _ records) as [[]|].
Qed.

Lemma mapM_fmap_ext {A A' B} (f : A → result B) (f' : A' → result B)
    (g : A → A') (l : list A) :
  (∀ x, f' (g x) = f x) → mapM f' (g <$> l) = mapM f l.
Proof.
  intros Hf. induction l as [|x l IH]; [done|].
  rewrite fmap_cons. cbn [mapM]. fold (mapM f' (g <$> l)) (mapM f l).
  by rewrite Hf, IH.
Qed.

(** Two archival tables whose names fail alike and that give every
    prediction the same row give the same result. *)
Lemma match_predictions_ext predictions records records' threshold :
  (∀ k : result DataFrame,
     (_ ← mapM (normalize_object_name ∘ object_name) records'; k) =
     (_ ← mapM (normalize_object_name ∘ object_name) records; k)) →
  (∀ i p, predictions !! i = Some p →
     spec_row records' threshold i p = spec_row records threshold i p) →
  match_predictions_with_data predictions records' threshold =
  match_predictions_with_data predictions records threshold.
Proof.
  intros Hnames Hrows. rewrite !match_predictions_with_data_eq.
  destruct (mapM _ predictions); [|done]. cbn [mbind result_bind].
  rewrite Hnames. destruct (mapM _ records); [|done]. cbn [mbind result_bind].
  destruct predictions as [|p predictions]; [done|]. do 2 f_equal.
  apply imap_ext. intros i q Hq. by apply Hrows.
Qed.

(** X6: the dispositions of the archival records never reach the output:
    relabelling the records in any way leaves the result of the matcher
    as it is. *)
Theorem archival_disposition_ignored (relabel : CanonicalRecord → string)
    predictions records threshold :
  match_predictions_with_data predictions
    ((λ r, with_disposition r (relabel r)) <$> records) threshold =
  match_predictions_with_data predictions records threshold.
Proof.
  apply match_predictions_ext.
  - intros k. by rewrite (mapM_fmap_ext (normalize_object_name ∘ object_name)).
  - intros i p _. unfold spec_row.
    rewrite first_seen_fmap by done.
    destruct (decide _); [done|]. by destruct (first_seen _ records).
Qed.

Lemma first_seen_app key records extra :
  first_seen key (records ++ extra) =
  match first_seen key records with
  | Some r => Some r
  | None => first_seen key extra
  end.
Proof.
  unfold first_seen.
  destruct (list_find _ records) as [[i r]|] eqn:Hf.
  - by rewrite (list_find_app_l _ _ _ _ _ Hf).
  - rewrite (list_find_app_r _ _ _ Hf).
    by destruct (list_find _ extra) as [[]|].
Qed.

Lemma first_seen_Some key records r :
  first_seen key records = Some r →
  r ∈ records ∧ canonical_key (object_name r) = key.
Proof.
  unfold first_seen. destruct (list_find _ records) as [[i r']|] eqn:Hf; [|done].
  intros [= <-]. apply list_find_Some in Hf as (Hi & Hr & _).
  split; [by eapply list_elem_of_lookup_2|done].
Qed.

(** X7: first wins.  Regular records appended to a regular archival
    table change nothing when each of them has an empty key or the key
    of a record already in the table. *)
Theorem later_duplicates_ignored predictions records extra threshold :
  Forall (λ r, regular (object_name r) = true) (records ++ extra) →
  (∀ r, r ∈ extra →
     canonical_key (object_name r) = "" ∨
     ∃ r0, r0 ∈ records ∧
           canonical_key (object_name r0) = canonical_key (object_name r)) →
  match_predictions_with_data predictions (records ++ extra) threshold =
  match_predictions_with_data predictions records threshold.
Proof.
  intros [_ Hreg]%Forall_app Hextra. apply match_predictions_ext.
  { intros k. apply (mapM_app_Ok _ (canonical_key ∘ object_name)).
    eapply Forall_impl; [exact Hreg|]. intros r Hr. by apply normalize_regular. }
  intros i p _. unfold spec_row.
  destruct (decide _) as [|Hkey]; [done|]. rewrite first_seen_app.
  destruct (first_seen _ records) as [r|] eqn:Hrec; [done|].
  destruct (first_seen _ extra) as [r|] eqn:Hext; [|done]. exfalso.
  apply first_seen_Some in Hext as [Hin Hr].
  destruct (Hextra r Hin) as [Hempty|(r0 & Hin0 & Hr0)]; [congruence|].
  unfold first_seen in Hrec.
  destruct (list_find _ records) as [|] eqn:Hf; [done|].
  apply list_find_None in Hf. eapply Forall_forall in Hf; [|exact Hin0].
  apply Hf. congruence.
Qed.

Lemma later_duplicates_ignored_witness :
  match_predictions_with_data [prediction_711] ([kepler_711] ++ [tess_711; nameless]) 0.5 =
  match_predictions_with_data [prediction_711] [kepler_711] 0.5.
Proof.
  apply later_duplicates_ignored; [regular_names|]. intros r Hr.
  apply elem_of_cons in Hr as [->|Hr].
  - right. exists kepler_711. split; [repeat constructor | reflexivity].
  - apply list_elem_of_singleton in Hr as ->. left. reflexivity.
Defined.

Lemma project_record_row r : project column_order (record_row r) = record_row r.
Proof. reflexivity. Qed.

(** The table loaded from two standard-format files holds the records of
    the first file, then those of the second. *)
Lemma load_standard_frames candidates false_positives :
  load_standard_data (Some (standard_frame candidates))
    (Some (standard_frame false_positives)) =
  Ok (standard_frame (candidates ++ false_positives)).
Proof.
  unfold load_standard_data, concat. f_equal.
  apply DataFrame_eq; [reflexivity|].
  cbn [rows concat_frames mbind list_bind]. unfold default, id.
  cbn [standard_frame rows columns].
  rewrite app_nil_r, fmap_app, <- !list_fmap_compose.
  f_equal; apply list_fmap_ext; intros ? r _; apply project_record_row.
Qed.

(** X8 (load_standard_data, match_predictions_with_data): the table
    loaded from the two standard-format files holds the records of the
    candidates file before those of the false-positives file, and on such
    a table of regular names a record of the candidates takes precedence
    over any record of the false positives with the same key. *)
Theorem candidates_take_precedence predictions candidates false_positives
    threshold i p r :
  Forall (λ p, regular (pred_object_name p) = true) predictions →
  Forall (λ r, regular (object_name r) = true) (candidates ++ false_positives) →
  predictions !! i = Some p →
  canonical_key (pred_object_name p) ≠ "" →
  first_seen (canonical_key (pred_object_name p)) candidates = Some r →
  load_standard_data (Some (standard_frame candidates))
    (Some (standard_frame false_positives)) =
    Ok (standard_frame (candidates ++ false_positives)) ∧
  ∃ out,
    match_predictions_with_data predictions (candidates ++ false_positives)
      threshold = Ok out ∧
    rows out !! i =
      Some (record_row
              (with_disposition r
                 (predicted_disposition (predicted_probability p) threshold))).
Proof.
  intros Hpreds Hrecs Hp Hkey Hr. split; [apply load_standard_frames|].
  destruct (match_predictions_row _ (candidates ++ false_positives) threshold _ _
              Hpreds Hrecs Hp)
    as (out & Hout & _ & _ & _ & Hrow).
  exists out. split; [done|]. rewrite Hrow. unfold spec_row.
  by rewrite decide_False, first_seen_app, Hr.
Qed.

Lemma candidates_take_precedence_witness :
  load_standard_data (Some (standard_frame [kepler_711]))
    (Some (standard_frame [tess_711])) =
    Ok (standard_frame ([kepler_711] ++ [tess_711])) ∧
  ∃ out,
    match_predictions_with_data [prediction_711] ([kepler_711] ++ [tess_711]) 0.5 =
      Ok out ∧
    rows out !! 0 = Some (record_row (with_disposition kepler_711 "CONFIRMED")).
Proof.
  refine (candidates_take_precedence [prediction_711] [kepler_711] [tess_711]
            0.5 0 prediction_711 kepler_711 _ _ eq_refl _ _).
  - regular_names.
  - regular_names.
  - vm_compute. discriminate.
  - vm_compute. reflexivity.
Defined.

(** X9: the names the loop collects in [unmatched] are, in input order,
    the raw names of exactly the predictions whose key is empty or
    belongs to no record, that is, of the predictions that get a
    placeholder. *)
Theorem unmatched_names records threshold idx predictions :
  (match_loop
     (build_lookup (zip records ((canonical_key ∘ object_name) <$> records)))
     threshold idx
     (zip predictions ((canonical_key ∘ pred_object_name) <$> predictions))).2 =
  pred_object_name <$>
    filter (λ p, unmatched_prediction records p = true) predictions.
Proof.
  revert idx. induction predictions as [|p predictions IH]; intros idx; [done|].
  cbn [fmap list_fmap zip zip_with match_loop snd]. rewrite IH, filter_cons.
  unfold match_step, compose. rewrite data_lookup_spec.
  pose proof (eq_refl (unmatched_prediction records p)) as Hu.
  unfold unmatched_prediction at 2 in Hu. cbv zeta in Hu.
  destruct (decide (canonical_key (pred_object_name p) = "")) as [He|Hne].
  - by rewrite decide_True.
  - destruct (first_seen _ records) as [r|]; cbn [fmap option_fmap option_map].
    + by rewrite decide_False by (rewrite Hu; discriminate).
    + by rewrite decide_True.
Qed.

Example unmatched_sample :
  (match_loop
     (build_lookup (zip [kepler_711] ((canonical_key ∘ object_name) <$> [kepler_711])))
     0.5 0
     (zip [prediction_999; prediction_711; prediction_999]
        ((canonical_key ∘ pred_object_name) <$>
           [prediction_999; prediction_711; prediction_999]))).2 =
  [Some "999.99"; Some "999.99"].
Proof. by_compute. Qed.

Lemma str_of_int_inj n m : Py.str_of_int n = Py.str_of_int m → n = m.
Proof.
  unfold Py.str_of_int. intros Heq. apply Unsigned.to_uint_inj.
  assert (∀ k, N.to_uint k ≠ Nil) as Hnil.
  { intros k. rewrite <- (Unsigned.of_to k), Unsigned.to_of. apply unorm_nonnil. }
  pose proof (NilZero.usu _ (Hnil n)) as Hn.
  pose proof (NilZero.usu _ (Hnil m)) as Hm.
  rewrite Heq in Hn. congruence.
Qed.

(** X10: predictions at different positions get different placeholder
    names [PLANET_i]. *)
Theorem placeholder_names_distinct i j d d' :
  i ≠ j →
  placeholder i d !! "object_name" ≠ placeholder j d' !! "object_name".
Proof.
  intros Hij Heq. apply Hij.
  assert (∀ k e, placeholder k e !! "object_name" =
                 Some (Str ("PLANET_" ++ Py.str_of_int (N.of_nat k)))) as Hname
    by reflexivity.
  rewrite !Hname in Heq.
  assert ("PLANET_" ++ Py.str_of_int (N.of_nat i) =
          "PLANET_" ++ Py.str_of_int (N.of_nat j)) as Hs by congruence.
  apply (inj (String.append "PLANET_")) in Hs.
  by apply Nat2N.inj, str_of_int_inj.
Qed.

Lemma placeholder_names_distinct_witness :
  9 ≠ 10 ∧
  placeholder 9 "CONFIRMED" !! "object_name" ≠
  placeholder 10 "CONFIRMED" !! "object_name".
Proof.
  assert (9 ≠ 10) as Hne by discriminate.
  split; [exact Hne|].
  exact (placeholder_names_distinct 9 10 "CONFIRMED" "CONFIRMED" Hne).
Defined.

(** X11: on tables of regular names, a prediction and an archival record
    that name the same number, each under a removable prefix of its own
    (or under none), are matched whatever the zero padding of either:
    the first record of the table is carried to the prediction's row. *)
Theorem number_matches_across_prefixes predictions records threshold i p r
    q' p' h h' t :
  Forall (λ p, regular (pred_object_name p) = true) predictions →
  Forall (λ r, regular (object_name r) = true) records →
  predictions !! i = Some p →
  Py.upper q' ∈ effective_prefixes ∨ q' = "" →
  Py.upper p' ∈ effective_prefixes ∨ p' = "" →
  Py.isdigit h = true → Py.isdigit h' = true →
  drop_zeros h = drop_zeros h' →
  pred_object_name p = Some (q' ++ h ++ "." ++ t) →
  records !! 0 = Some r →
  object_name r = Some (p' ++ h' ++ "." ++ t) →
  ∃ out,
    match_predictions_with_data predictions records threshold = Ok out ∧
    rows out !! i =
      Some (record_row
              (with_disposition r
                 (predicted_disposition (predicted_probability p) threshold))).
Proof.
  intros Hpreds Hrecs Hp Hq' Hp' Hd Hd' Hz Hname Hr Hrname.
  assert (∀ x k, Py.upper x ∈ effective_prefixes ∨ x = "" → Py.isdigit k = true →
            regular (Some (x ++ k ++ "." ++ t)) = true →
            canonical_key (Some (x ++ k ++ "." ++ t)) =
            drop_zeros k ++ "." ++ Py.rstrip t) as Hkey.
  { intros x k Hx Hk Hreg.
    assert (String.length k ≤ Py.int_max_str_digits)%nat as Hlen.
    { destruct (decide (String.length k ≤ Py.int_max_str_digits)%nat) as [|Hlong];
        [done|exfalso].
      apply normalize_regular in Hreg.
      assert (normalize_object_name (Some (x ++ k ++ "." ++ t)) = Raise ValueError)
        as Hraise; [|congruence].
      destruct Hx as [Hx| ->];
        [|by apply normalize_bare_number_over_limit; [|lia]].
      unfold normalize_object_name. rewrite strip_prefixed_dot by by left.
      rewrite (remove_prefix_effective _ _ Hx).
      by rewrite normalize_head_over_limit by (done || lia). }
    destruct Hx as [Hx| ->].
    - by apply prefixed_number_key_prefixed.
    - by apply prefixed_number_key_bare. }
  pose proof (proj1 (Forall_lookup _ _) Hpreds _ _ Hp) as Hpreg.
  pose proof (proj1 (Forall_lookup _ _) Hrecs _ _ Hr) as Hrreg.
  cbn beta in Hpreg, Hrreg. rewrite Hname in Hpreg. rewrite Hrname in Hrreg.
  destruct (match_predictions_row _ records threshold _ _ Hpreds Hrecs Hp)
    as (out & Hout & _ & _ & _ & Hrow).
  exists out. split; [done|]. rewrite Hrow. unfold spec_row.
  rewrite Hname, (Hkey _ _ Hq' Hd Hpreg).
  destruct (isdigit_cons _ (isdigit_drop_zeros _ Hd)) as (c & z & Hc & _).
  rewrite decide_False by (rewrite Hc; discriminate).
  rewrite (first_seen_first _ _ 0 r Hr); [done| |intros; lia].
  by rewrite Hrname, (Hkey _ _ Hp' Hd' Hrreg), Hz.
Qed.

Lemma number_matches_across_prefixes_witness :
  ∃ out,
    match_predictions_with_data [prediction_711] [kepler_711; tess_711] 0.5 = Ok out ∧
    rows out !! 0 = Some (record_row (with_disposition kepler_711 "CONFIRMED")).
Proof.
  refine (number_matches_across_prefixes [prediction_711] [kepler_711; tess_711]
            0.5 0 prediction_711 kepler_711 "" "K" "711" "00711" "03"
            _ _ eq_refl _ _ eq_refl eq_refl eq_refl eq_refl eq_refl eq_refl).
  - regular_names.
  - regular_names.
  - right. reflexivity.
  - left. unfold effective_prefixes. vm_compute Py.upper. repeat constructor.
Defined.

(** ** Schema mapper, continued *)

Lemma column_at_series c (df : DataFrame) i row :
  rows df !! i = Some row →
  column_at i (Series (at_column c <$> rows df)) = at_column c row.
Proof. intros Hrow. cbn [column_at]. by rewrite list_lookup_fmap, Hrow. Qed.

Lemma column_at_optional df c i row :
  rows df !! i = Some row →
  column_at i (if decide (c ∈ columns df) then Series (at_column c <$> rows df)
               else Scalar NA) = optional_cell df c row.
Proof.
  intros Hrow. unfold optional_cell. destruct (decide _); [|done].
  by apply column_at_series.
Qed.

(** X12: on a table with its seven source columns the Kepler mapper
    returns the nine canonical columns and one row per input row, in
    order: the source cells under their canonical labels, with mission
    and discovery facility Kepler. *)
Theorem convert_kepler_rows df :
  Forall (λ c, c ∈ columns df) kepler_columns →
  ∃ out, convert_kepler_to_standard df = Ok out ∧
    columns out = column_order ∧
    length (rows out) = length (rows df) ∧
    ∀ i row, rows df !! i = Some row → rows out !! i = Some (kepler_row row).
Proof.
  intros Hcols. unfold convert_kepler_to_standard, kepler_columns in *.
  repeat match goal with
  | H : Forall _ (_ :: _) |- _ =>
      let Hc := fresh "Hc" in
      apply Forall_cons in H as [Hc H]; rewrite (getitem_present _ _ Hc)
  end.
  cbn [mbind result_bind]. eexists. split; [reflexivity|].
  split; [reflexivity|]. split; [apply length_DataFrame_of_columns|].
  intros i row Hrow. pose proof (lookup_lt_Some _ _ _ Hrow) as Hlt.
  rewrite DataFrame_of_columns_lookup by done. f_equal.
  cbn [fmap list_fmap prod_map fst snd id].
  by rewrite !(column_at_series _ _ _ _ Hrow).
Qed.

Lemma convert_kepler_rows_witness :
  ∃ out, convert_kepler_to_standard kepler_full = Ok out ∧
    columns out = column_order ∧
    length (rows out) = 1 ∧
    ∀ i row, rows kepler_full !! i = Some row → rows out !! i = Some (kepler_row row).
Proof.
  apply (convert_kepler_rows kepler_full).
  unfold kepler_full. cbn [columns]. unfold kepler_columns.
  repeat (apply Forall_cons; split; [repeat constructor|]). apply Forall_nil_2.
Defined.

(** X13: the TESS mapper needs the columns [toi] and [tfopwg_disp] and
    nothing else.  Without [toi], or with it and without [tfopwg_disp],
    it raises the [KeyError] of that column; with both it returns the
    nine canonical columns and one row per input row, in order: the name
    stringified, the disposition through the converter's table, and each
    physical measurement from its source column, or [pd.NA] when the
    table has no such column. *)
Theorem convert_tess_rows float_str df :
  ("toi" ∉ columns df →
     convert_tess_to_standard float_str df = Raise (KeyError ["toi"])) ∧
  ("toi" ∈ columns df → "tfopwg_disp" ∉ columns df →
     convert_tess_to_standard float_str df = Raise (KeyError ["tfopwg_disp"])) ∧
  ("toi" ∈ columns df → "tfopwg_disp" ∈ columns df →
     ∃ out, convert_tess_to_standard float_str df = Ok out ∧
       columns out = column_order ∧
       length (rows out) = length (rows df) ∧
       ∀ i row, rows df !! i = Some row →
         rows out !! i = Some (tess_row float_str df row)).
Proof.
  unfold convert_tess_to_standard. split; [|split].
  - intros Hn. by rewrite (getitem_absent _ _ Hn).
  - intros Hn Hd. by rewrite (getitem_present _ _ Hn), (getitem_absent _ _ Hd).
  - intros Hn Hd.
    rewrite (getitem_present _ _ Hn), (getitem_present _ _ Hd),
      !optional_column_spec.
    cbn [mbind result_bind]. eexists. split; [reflexivity|].
    split; [reflexivity|]. split; [apply length_DataFrame_of_columns|].
    intros i row Hrow. pose proof (lookup_lt_Some _ _ _ Hrow) as Hlt.
    rewrite DataFrame_of_columns_lookup by done. f_equal.
    cbn [fmap list_fmap prod_map fst snd id].
    rewrite !(column_at_optional _ _ _ _ Hrow).
    cbn [column_at]. by rewrite !list_lookup_fmap, Hrow.
Qed.

Lemma convert_tess_rows_witness :
  ∃ out, convert_tess_to_standard (λ _, "nan") tess_raw = Ok out ∧
    columns out = column_order ∧
    length (rows out) = 2 ∧
    ∀ i row, rows tess_raw !! i = Some row →
      rows out !! i = Some (tess_row (λ _, "nan") tess_raw row).
Proof.
  apply (proj2 (proj2 (convert_tess_rows (λ _, "nan") tess_raw)));
    unfold tess_raw; cbn [columns]; repeat constructor.
Defined.

Example convert_tess_sample :
  (λ out, (λ row, (row !! "object_name", row !! "disposition",
                   row !! "period", row !! "star_mass")) <$> rows out)
    <$> convert_tess_to_standard (λ _, "nan") tess_raw =
  Ok [(Some (Str "1468.01"), Some (Str "CANDIDATE"), Some (Num 15.5), Some NA);
      (Some (Str "5150.01"), Some (Str "FA"), Some (Num 1.75), Some NA)].
Proof. by_compute. Qed.

(** X14: the K2 mapper takes the name from [epic_name] when the table
    has it and from [epic_candname] otherwise, and raises the [KeyError]
    of [epic_candname] when the table has neither; with a name column
    and [k2c_disp] it returns the nine canonical columns and one row per
    input row, in order, the disposition being the raw [k2c_disp] value
    and each physical measurement its source cell or [pd.NA]. *)
Theorem convert_k2_rows df :
  ("epic_name" ∉ columns df → "epic_candname" ∉ columns df →
     convert_k2_to_standard df = Raise (KeyError ["epic_candname"])) ∧
  ("epic_name" ∈ columns df ∨ "epic_candname" ∈ columns df →
   "k2c_disp" ∈ columns df →
     ∃ out, convert_k2_to_standard df = Ok out ∧
       columns out = column_order ∧
       length (rows out) = length (rows df) ∧
       ∀ i row, rows df !! i = Some row → rows out !! i = Some (k2_row df row)).
Proof.
  unfold convert_k2_to_standard. split.
  - intros Hn Hc. by rewrite decide_False, (getitem_absent _ _ Hc).
  - intros Hname Hd.
    assert ((if decide ("epic_name" ∈ columns df) then getitem df "epic_name"
             else getitem df "epic_candname") =
            Ok ((λ row, if decide ("epic_name" ∈ columns df)
                        then at_column "epic_name" row
                        else at_column "epic_candname" row) <$> rows df)) as ->.
    { destruct (decide _) as [Hin|Hout].
      - by rewrite (getitem_present _ _ Hin).
      - destruct Hname as [?|Hin]; [done|]. by rewrite (getitem_present _ _ Hin). }
    rewrite (getitem_present _ _ Hd), !optional_column_spec.
    cbn [mbind result_bind]. eexists. split; [reflexivity|].
    split; [reflexivity|]. split; [apply length_DataFrame_of_columns|].
    intros i row Hrow. pose proof (lookup_lt_Some _ _ _ Hrow) as Hlt.
    rewrite DataFrame_of_columns_lookup by done. f_equal.
    cbn [fmap list_fmap prod_map fst snd id].
    rewrite !(column_at_optional _ _ _ _ Hrow).
    cbn [column_at]. by rewrite !list_lookup_fmap, Hrow.
Qed.

Lemma convert_k2_rows_witness :
  ∃ out, convert_k2_to_standard k2_without_mass = Ok out ∧
    columns out = column_order ∧
    length (rows out) = 1 ∧
    ∀ i row, rows k2_without_mass !! i = Some row →
      rows out !! i = Some (k2_row k2_without_mass row).
Proof.
  apply (proj2 (convert_k2_rows k2_without_mass)).
  - left. unfold k2_without_mass. cbn [columns]. repeat constructor.
  - unfold k2_without_mass. cbn [columns]. repeat constructor.
Defined.

(** ** The converter's disposition table *)

Lemma disposition_map_values s v :
  disposition_map !! s = Some v →
  v ∈ canonical_dispositions ∧ disposition_map !! v = None.
Proof.
  unfold disposition_map. cbn [list_to_map foldr]. intros Hs.
  repeat (apply lookup_insert_Some in Hs as [[_ <-]|[_ Hs]];
          [cbn [snd]; split; [unfold canonical_dispositions; set_solver|reflexivity]|]).
  by rewrite lookup_empty in Hs.
Qed.

(** X15: the disposition column of the TESS converter.  A cell is either
    one of the five codes of the table, and becomes a canonical
    disposition, or it is left exactly as it is (any other code, any
    other letter case, a missing value); converting twice is converting
    once. *)
Theorem tess_disposition_spec c :
  tess_disposition (tess_disposition c) = tess_disposition c ∧
  ((∃ s v, c = Str s ∧ disposition_map !! s = Some v ∧
           v ∈ canonical_dispositions ∧ tess_disposition c = Str v) ∨
   ((∀ s, c = Str s → disposition_map !! s = None) ∧ tess_disposition c = c)).
Proof.
  assert (∀ s v, disposition_map !! s = Some v → tess_disposition (Str s) = Str v)
    as Hcode by (intros s v Hs; unfold tess_disposition, series_map; by rewrite Hs).
  assert (∀ s, disposition_map !! s = None → tess_disposition (Str s) = Str s)
    as Hother by (intros s Hs; unfold tess_disposition, series_map; by rewrite Hs).
  destruct c as [s|x|]; [|split; [|right; split]; done..].
  destruct (disposition_map !! s) as [v|] eqn:Hs.
  - destruct (disposition_map_values _ _ Hs) as [Hv Hnone].
    rewrite (Hcode _ _ Hs), (Hother _ Hnone). split; [done|]. left. by exists s, v.
  - rewrite !(Hother _ Hs). split; [done|]. right. split; [|done].
    by intros ? [= <-].
Qed.

Example tess_disposition_raw_codes :
  tess_disposition <$> [Str "FA"; Str "NTP"; Str "EB"; Str "cp"; Num nan; NA] =
  [Str "FA"; Str "NTP"; Str "EB"; Str "cp"; Num nan; NA].
Proof. reflexivity. Qed.

(** ** Concatenation of tables *)

Lemma filter_absent_nil (l : list string) : filter (λ c, c ∉ []) l = l.
Proof.
  induction l as [|c l IH]; [done|].
  rewrite filter_cons, decide_True by apply not_elem_of_nil. by rewrite IH.
Qed.

Lemma filter_absent_self (l : list string) : filter (λ c, c ∉ l) l = [].
Proof.
  assert (∀ l', (∀ c, c ∈ l' → c ∈ l) → filter (λ c, c ∉ l) l' = []) as H.
  { induction l' as [|c l' IH]; [done|]. intros Hin.
    rewrite filter_cons, decide_False by (intros Hc; apply Hc, Hin; by left).
    apply IH. intros c' Hc'. apply Hin. by right. }
  by apply H.
Qed.

Lemma concat_columns_uniform cols frames :
  frames ≠ [] → Forall (λ df, columns df = cols) frames →
  columns (concat_frames frames) = cols.
Proof.
  intros Hne Hall. cbn [columns concat_frames].
  destruct frames as [|df frames]; [done|].
  apply Forall_cons in Hall as [Hdf Hall]. cbn [foldl].
  rewrite Hdf, filter_absent_nil. clear Hne Hdf.
  induction Hall as [|df' frames Hdf' _ IH]; [done|].
  cbn [foldl]. by rewrite Hdf', filter_absent_self, app_nil_r.
Qed.

Lemma concat_length frames :
  length (rows (concat_frames frames)) = sum_list ((length ∘ rows) <$> frames).
Proof.
  cbn [rows concat_frames]. induction frames as [|df frames IH]; [done|].
  cbn [mbind list_bind fmap list_fmap sum_list sum_list_with compose].
  rewrite length_app, length_fmap. cbn in IH. by rewrite IH.
Qed.

Lemma at_column_project cols c row :
  at_column c (project cols row) =
  if decide (c ∈ cols) then at_column c row else Num nan.
Proof.
  unfold at_column, project. induction cols as [|c' cols IH].
  { by rewrite decide_False by apply not_elem_of_nil. }
  rewrite fmap_cons, list_to_map_cons. cbn [fst snd].
  destruct (decide (c' = c)) as [->|Hne].
  - rewrite lookup_insert_eq, decide_True by left. done.
  - rewrite lookup_insert_ne by done. rewrite IH.
    destruct (decide (c ∈ cols)) as [Hin|Hin].
    + rewrite decide_True by (by right). done.
    + rewrite decide_False; [done|]. intros [?|?]%elem_of_cons; [congruence|done].
Qed.

Lemma concat_columns_elem_of frames c :
  c ∈ columns (concat_frames frames) ↔ ∃ df, df ∈ frames ∧ c ∈ columns df.
Proof.
  cbn [columns concat_frames].
  assert (∀ acc : list string,
    c ∈ foldl (λ (acc : list string) df,
                 (acc ++ filter (λ c, c ∉ acc) (columns df))%list) acc frames ↔
    c ∈ acc ∨ ∃ df, df ∈ frames ∧ c ∈ columns df) as H.
  { induction frames as [|df frames IH]; intros acc; cbn [foldl].
    - split; [by left|]. intros [?|(df & Hdf & _)]; [done|].
      by apply elem_of_nil in Hdf.
    - rewrite IH, elem_of_app, list_elem_of_filter. split.
      + intros [[?|[_ ?]]|(df' & ? & ?)]; [by left| |].
        * right. exists df. split; [by left|done].
        * right. exists df'. split; [by right|done].
      + intros [?|(df' & [->|?]%elem_of_cons & Hc)]; [by left; left| |].
        * left. destruct (decide (c ∈ acc)); [by left|by right].
        * right. by exists df'. }
  rewrite H. split; [|by right]. intros [Hnil|?]; [|done].
  by apply elem_of_nil in Hnil.
Qed.

(** The series of a concatenation: each frame contributes its own column,
    or NaN where it has none. *)
Lemma getitem_concat frames c :
  (∃ df, df ∈ frames ∧ c ∈ columns df) →
  getitem (concat_frames frames) c =
  Ok (frames ≫= (λ df, (λ row, if decide (c ∈ columns df) then at_column c row
                                else Num nan) <$> rows df)).
Proof.
  intros Hin. rewrite getitem_present by by apply concat_columns_elem_of.
  f_equal. cbn [rows concat_frames]. clear Hin.
  induction frames as [|df frames IH]; [done|].
  cbn [mbind list_bind] in *. rewrite fmap_app, IH. f_equal.
  rewrite <- list_fmap_compose. apply list_fmap_ext. intros i row _.
  cbn [compose]. apply at_column_project.
Qed.

Lemma getitem_Ok df c s :
  getitem df c = Ok s → c ∈ columns df ∧ s = at_column c <$> rows df.
Proof. unfold getitem. destruct (decide _); [|done]. by intros [= <-]. Qed.

(** X16 (load_standard_data): the function never raises; under every
    label the loaded table holds the candidates' column followed by the
    false positives' column; a missing file contributes nothing, and with
    both files missing the table has no column at all, so that reading
    any label from it (the matcher begins with [all_data['object_name']])
    is a [KeyError]. *)
Theorem load_standard_data_series (candidates false_positives : DataFrame) (l : string) :
  (all_data ← load_standard_data None None; getitem all_data l) =
    Raise (KeyError [l]) ∧
  (all_data ← load_standard_data (Some candidates) None; getitem all_data l) =
    getitem candidates l ∧
  (all_data ← load_standard_data None (Some false_positives); getitem all_data l) =
    getitem false_positives l ∧
  (∃ all_data,
     load_standard_data (Some candidates) (Some false_positives) = Ok all_data ∧
     length (rows all_data) =
       (length (rows candidates) + length (rows false_positives))%nat ∧
     ∀ sc sf, getitem candidates l = Ok sc → getitem false_positives l = Ok sf →
       getitem all_data l = Ok (sc ++ sf)%list).
Proof.
  unfold load_standard_data. cbn [default concat mbind result_bind].
  split; [done|]. split; [|split].
  - destruct (decide (l ∈ columns candidates)) as [Hl|Hl].
    + rewrite getitem_concat by (exists candidates; split; [by left|done]).
      rewrite (getitem_present candidates) by done. f_equal.
      cbn [mbind list_bind empty_frame rows fmap list_fmap].
      rewrite !app_nil_r. apply list_fmap_ext. intros i row _.
      by rewrite decide_True.
    + rewrite !getitem_absent; [done|done|].
      rewrite concat_columns_elem_of.
      intros (df & [->|[->|Hdf]%elem_of_cons]%elem_of_cons & Hc); [done| |].
      * by apply elem_of_nil in Hc.
      * by apply elem_of_nil in Hdf.
  - destruct (decide (l ∈ columns false_positives)) as [Hl|Hl].
    + rewrite getitem_concat
        by (exists false_positives; split; [by right; left|done]).
      rewrite (getitem_present false_positives) by done. f_equal.
      cbn [mbind list_bind empty_frame rows fmap list_fmap app].
      rewrite !app_nil_r. apply list_fmap_ext. intros i row _.
      by rewrite decide_True.
    + rewrite !getitem_absent; [done|done|].
      rewrite concat_columns_elem_of.
      intros (df & [->|[->|Hdf]%elem_of_cons]%elem_of_cons & Hc); [|done|].
      * by apply elem_of_nil in Hc.
      * by apply elem_of_nil in Hdf.
  - eexists. split; [reflexivity|]. split.
    { rewrite concat_length. cbn. lia. }
    intros sc sf [Hc ->]%getitem_Ok [Hf ->]%getitem_Ok.
    rewrite getitem_concat by (exists candidates; split; [by left|done]).
    f_equal. cbn [mbind list_bind]. rewrite app_nil_r. f_equal.
    + apply list_fmap_ext. intros i row _. by rewrite decide_True.
    + apply list_fmap_ext. intros i row _. by rewrite decide_True.
Qed.

Lemma load_standard_data_series_witness :
  ∃ all_data,
    load_standard_data (Some standard_table) (Some standard_table) = Ok all_data ∧
    getitem all_data "mission" =
      Ok [Str "Kepler"; Str "TESS"; Str "Kepler"; Str "TESS"].
Proof.
  destruct (load_standard_data_series standard_table standard_table "mission")
    as (_ & _ & _ & all_data & Hload & _ & Hseries).
  exists all_data. split; [exact Hload|].
  apply (Hseries [Str "Kepler"; Str "TESS"] [Str "Kepler"; Str "TESS"]);
    reflexivity.
Defined.

(** X17 (combine_all_data): the output file is written exactly when some
    input file exists, with the concatenation of the existing inputs in
    their order, and it is written also when the function then raises:
    the function returns the written table when some input has a
    [disposition] column and some input a [mission] column, and
    otherwise raises [KeyError] for the first of the two that no input
    has; when no input exists it returns [None]. *)
Theorem combine_all_data_outcome (files : list (option DataFrame)) :
  match combine_all_data files with
  | (None, r) => r = Ok None ∧ ∀ df, Some df ∉ files
  | (Some written, r) =>
      written = concat_frames (omap id files) ∧ (∃ df, Some df ∈ files) ∧
      match r with
      | Ok returned =>
          returned = Some written ∧
          (∃ df, Some df ∈ files ∧ "disposition" ∈ columns df) ∧
          (∃ df, Some df ∈ files ∧ "mission" ∈ columns df)
      | Raise e =>
          (e = KeyError ["disposition"] ∧
           ∀ df, Some df ∈ files → "disposition" ∉ columns df) ∨
          (e = KeyError ["mission"] ∧
           (∃ df, Some df ∈ files ∧ "disposition" ∈ columns df) ∧
           ∀ df, Some df ∈ files → "mission" ∉ columns df)
      end
  end.
Proof.
  assert (∀ df, df ∈ omap id files ↔ Some df ∈ files) as Hex.
  { intros df. rewrite list_elem_of_omap. split.
    - by intros ([df'|] & Hin & [= ->]).
    - intros Hin. by exists (Some df). }
  assert (∀ c, c ∈ columns (concat_frames (omap id files)) ↔
               ∃ df, Some df ∈ files ∧ c ∈ columns df) as Hcol.
  { intros c. rewrite concat_columns_elem_of. by setoid_rewrite Hex. }
  unfold combine_all_data. destruct (omap id files) as [|df0 existing] eqn:Hfiles.
  { split; [done|]. intros df Hdf%Hex. by apply elem_of_nil in Hdf. }
  cbn [concat]. split; [done|]. split; [exists df0; apply Hex; by left|].
  set (combined_df := concat_frames (df0 :: existing)) in *.
  destruct (decide ("disposition" ∈ columns combined_df)) as [Hd|Hd].
  - rewrite (getitem_present _ "disposition") by done. cbn [mbind result_bind].
    destruct (decide ("mission" ∈ columns combined_df)) as [Hm|Hm].
    + rewrite (getitem_present _ "mission") by done. cbn [mbind result_bind].
      split; [done|]. split; by apply Hcol.
    + rewrite (getitem_absent _ "mission") by done. cbn [mbind result_bind].
      right. split; [done|]. split; [by apply Hcol|].
      intros df Hdf Hc. apply Hm, Hcol. by exists df.
  - rewrite (getitem_absent _ "disposition") by done. cbn [mbind result_bind].
    left. split; [done|]. intros df Hdf Hc. apply Hd, Hcol. by exists df.
Qed.

(** X18 (combine_all_data): from inputs in the standard format, at least
    one of which exists, the function writes and returns one table with
    the nine canonical columns and as many rows as the existing inputs
    have together. *)
Theorem combine_all_data_standard (files : list (option DataFrame)) (df0 : DataFrame) :
  Some df0 ∈ files →
  (∀ df, Some df ∈ files → columns df = column_order) →
  ∃ combined_df,
    combine_all_data files = (Some combined_df, Ok (Some combined_df)) ∧
    columns combined_df = column_order ∧
    length (rows combined_df) = sum_list ((length ∘ rows) <$> omap id files).
Proof.
  intros H0 Hall. exists (concat_frames (omap id files)).
  assert (df0 ∈ omap id files) as Hin.
  { apply list_elem_of_omap. by exists (Some df0). }
  assert (columns (concat_frames (omap id files)) = column_order) as Hcols.
  { apply concat_columns_uniform.
    - intros Hnil. rewrite Hnil in Hin. by apply elem_of_nil in Hin.
    - apply Forall_forall. intros df ([df'|] & Hdf & [= ->])%list_elem_of_omap.
      by apply Hall. }
  split; [|split; [done|apply concat_length]].
  unfold combine_all_data. destruct (omap id files) as [|df1 existing] eqn:Hfiles.
  { by apply elem_of_nil in Hin. }
  cbn [concat].
  assert ("disposition" ∈ column_order ∧ "mission" ∈ column_order) as [Hd Hm].
  { unfold column_order. split; [right; right; left|left]. }
  rewrite <- Hcols in Hd, Hm. by rewrite !getitem_present by done.
Qed.

Lemma combine_all_data_standard_witness :
  ∃ combined_df,
    combine_all_data [Some standard_table; None; Some standard_table] =
      (Some combined_df, Ok (Some combined_df)) ∧
    columns combined_df = column_order ∧
    length (rows combined_df) =
      sum_list ((length ∘ rows) <$> omap id [Some standard_table; None; Some standard_table]).
Proof.
  apply (combine_all_data_standard _ standard_table).
  - by left.
  - by intros df [[= ->]|[?|[[= ->]|?%elem_of_nil]%elem_of_cons]%elem_of_cons]%elem_of_cons.
Defined.

(** ** Deduplication engine: order and repetition *)

(** X19 (main_fixed_fetch, deduplication): the deduplicated table is in
    ascending order of the name, numbers in numeric order before text in
    code point order before the missing names, and deduplicating it
    again changes nothing. *)
Theorem deduplicate_sorted_once (all_data out : DataFrame) :
  deduplicate all_data = Ok out →
  StronglySorted name_le (rows out) ∧ deduplicate out = Ok out.
Proof.
  intros (Hn & Hd & Hrows & Hcols)%deduplicate_Ok.
  assert ("priority" ∉ columns out) as Hp.
  { rewrite Hcols. intros [Hne _]%list_elem_of_filter. by apply Hne. }
  pose proof (kept_rows_StronglySorted all_data) as Hsorted.
  split.
  - rewrite Hrows. eapply StronglySorted_fmap; [|exact Hsorted].
    intros x y Hxy%lex_le_name. unfold name_le.
    by rewrite !at_column_delete by done.
  - assert (kept_rows out = kept_rows all_data) as Hkept.
    { unfold kept_rows at 1. rewrite Hrows, <- list_fmap_compose.
      assert (with_priority ∘ delete "priority" <$> kept_rows all_data =
              kept_rows all_data) as ->.
      { rewrite <- (list_fmap_id (kept_rows all_data)) at 2.
        apply list_fmap_ext. intros i k Hk%list_elem_of_lookup_2.
        by apply (with_priority_delete all_data). }
      rewrite stable_sort_sorted by done. apply keep_first_id; [|done].
      intros i j r1 r2 Hi Hj Heq.
      exact (keep_first_unique "object_name" [] _ i j r1 r2 Hi Hj Heq). }
    rewrite deduplicate_cases.
    rewrite !decide_True
      by (rewrite Hcols; apply list_elem_of_filter; split; [done|done]).
    rewrite (decide_False (P := "priority" ∈ columns out)) by done.
    f_equal. apply DataFrame_eq; cbn [columns rows].
    + rewrite filter_app, filter_cons, decide_False, filter_nil by (by intros ?).
      rewrite app_nil_r. by apply filter_ne_absent.
    + by rewrite Hkept.
Qed.

Lemma deduplicate_sorted_once_witness :
  StronglySorted name_le (rows mixed_names_sorted) ∧
  deduplicate mixed_names_sorted = Ok mixed_names_sorted.
Proof.
  apply (deduplicate_sorted_once mixed_names). vm_compute. reflexivity.
Defined.

Example deduplicate_mixed_names :
  (λ out, at_column "object_name" <$> rows out) <$> deduplicate mixed_names =
  Ok [Num 9.5; Num 10.25; Str "5"; Str "K1"; Num nan].
Proof. by_compute. Qed.

(** X20 (main_fixed_fetch, deduplication): a name that some input row
    gives as CONFIRMED is CONFIRMED in the deduplicated table, whatever
    other rows say about it. *)
Theorem confirmed_never_shadowed (all_data out : DataFrame)
    (row row' : gmap string cell) :
  deduplicate all_data = Ok out →
  row ∈ rows all_data → at_column "disposition" row = Str "CONFIRMED" →
  row' ∈ rows out →
  cell_same (at_column "object_name" row') (at_column "object_name" row) = true →
  at_column "disposition" row' = Str "CONFIRMED".
Proof.
  intros (_ & _ & Hrows & _)%deduplicate_Ok Hrow Hd Hrow' Hname.
  rewrite Hrows in Hrow'. apply list_elem_of_fmap in Hrow' as (k' & -> & Hk').
  destruct (kept_rows_best all_data row Hrow) as (k & Hk & Hkname & Hle).
  destruct (kept_row_cells _ _ Hk') as (Hn' & _ & _). rewrite Hn' in Hname.
  assert (k' = k) as ->.
  { apply list_elem_of_lookup in Hk as [i Hi].
    apply list_elem_of_lookup in Hk' as [j Hj].
    assert (j = i) as ->; [|congruence].
    apply (keep_first_unique "object_name" [] _ j i k' k Hj Hi).
    rewrite (cell_same_sym (at_column "object_name" k)) in Hkname.
    by apply (cell_same_trans _ _ _ Hname). }
  destruct (kept_row_cells _ _ Hk) as (_ & Hp & _).
  rewrite Hp, Hd in Hle. by apply priority_le_confirmed.
Qed.

Lemma confirmed_never_shadowed_witness :
  at_column "disposition" (record_row (with_disposition kepler_711 "CONFIRMED")) =
  Str "CONFIRMED".
Proof.
  apply (confirmed_never_shadowed conflicting conflicting_deduplicated
           (record_row (with_disposition kepler_711 "CONFIRMED"))
           (record_row (with_disposition kepler_711 "CONFIRMED"))).
  - vm_compute. reflexivity.
  - unfold conflicting. cbn [rows fmap list_fmap]. right; left.
  - reflexivity.
  - unfold conflicting_deduplicated. cbn [rows]. right; left.
  - reflexivity.
Defined.

(** ** Disposition reconciler: frame and repetition *)

Lemma upper_char_idemp a : Py.upper_char (Py.upper_char a) = Py.upper_char a.
Proof. by destruct a as [[] [] [] [] [] [] [] []]. Qed.

Lemma upper_idemp s : Py.upper (Py.upper s) = Py.upper s.
Proof.
  induction s as [|a s IH]; [done|]. cbn [Py.upper].
  by rewrite upper_char_idemp, IH.
Qed.

Section ReconcilerFacts.
Variable float_str : float → string.

(** Every table maps into the three canonical dispositions. *)
Lemma disposition_mapping_values mission k v :
  disposition_mapping mission !! k = Some v → v ∈ canonical_dispositions.
Proof.
  unfold disposition_mapping, canonical_dispositions.
  repeat destruct (decide _); intros Hkv%elem_of_list_to_map_2;
    repeat (apply elem_of_cons in Hkv as [[= _ <-]|Hkv];
            [set_solver|]);
    by apply elem_of_nil in Hkv.
Qed.

(** A canonical disposition is a fixed point of every table's
    reconciliation. *)
Lemma reconcile_canonical mission v :
  v ∈ canonical_dispositions → reconcile float_str mission (Str v) = Str v.
Proof.
  unfold canonical_dispositions, reconcile, disposition_mapping.
  intros Hv. repeat (apply elem_of_cons in Hv as [->|Hv]);
    [| | |by apply elem_of_nil in Hv];
    repeat destruct (decide _); reflexivity.
Qed.

Lemma reconcile_eq mission c :
  reconcile float_str mission c =
  match disposition_mapping mission !! Py.upper (cell_str float_str c) with
  | Some v => Str v
  | None => Str (Py.upper (cell_str float_str c))
  end.
Proof.
  unfold reconcile. cbn [series_map].
  by destruct (disposition_mapping mission !! _).
Qed.

Lemma reconcile_idemp mission c :
  reconcile float_str mission (reconcile float_str mission c) =
  reconcile float_str mission c.
Proof.
  rewrite (reconcile_eq mission c).
  destruct (disposition_mapping mission !! _) as [v|] eqn:Hu.
  - apply reconcile_canonical. by eapply disposition_mapping_values.
  - rewrite reconcile_eq. cbn [cell_str]. by rewrite upper_idemp, Hu.
Qed.

(** The reconciled table in closed form. *)
Lemma normalize_disposition_extended_eq df mission :
  "disposition" ∈ columns df →
  normalize_disposition_extended float_str df mission =
  Ok {| columns := if decide ("disposition_original" ∈ columns df)
                   then columns df else columns df ++ ["disposition_original"];
        rows := (λ row,
                  <["disposition" :=
                      reconcile float_str mission (at_column "disposition" row)]>
                    (<["disposition_original" := at_column "disposition" row]> row))
                <$> rows df |}.
Proof.
  intros Hd. unfold normalize_disposition_extended.
  rewrite (getitem_present _ _ Hd). cbn [mbind result_bind].
  set (df1 := setitem df "disposition_original" _).
  assert ("disposition" ∈ columns df1) as Hd1 by by apply setitem_columns.
  rewrite (getitem_present _ _ Hd1). cbn [mbind result_bind].
  rewrite <- list_fmap_compose.
  set (df2 := setitem df1 "disposition" _).
  assert ("disposition" ∈ columns df2) as Hd2 by by apply setitem_columns.
  rewrite (getitem_present _ _ Hd2). cbn [mbind result_bind].
  rewrite <- list_fmap_compose. f_equal.
  assert (∀ d c s, columns (setitem d c s) =
            if decide (c ∈ columns d) then columns d else (columns d ++ [c])%list)
    as Hcols by done.
  assert (∀ d c s (H : c ∈ columns d), columns (setitem d c s) = columns d) as Hsame.
  { intros d c s H. rewrite Hcols. by rewrite decide_True. }
  apply DataFrame_eq; cbn [columns rows].
  - rewrite Hsame by done. subst df2. rewrite Hsame by done. subst df1.
    by rewrite Hcols.
  - rewrite setitem_fmap. subst df2. rewrite setitem_fmap. subst df1.
    rewrite setitem_fmap, <- !list_fmap_compose.
    apply list_fmap_ext. intros i row _. cbn [compose].
    unfold reconcile, at_column.
    rewrite lookup_insert_eq, insert_insert_eq. cbn [default].
    by rewrite lookup_insert_ne by done.
Qed.

(** X21 (normalize_disposition_extended): the reconciler needs only the
    [disposition] column, and raises [KeyError] without it; it returns
    the table with the same rows in the same order, adds the column
    [disposition_original] when the table has none, and leaves every
    other cell as it is. *)
Theorem normalize_disposition_extended_frame (df : DataFrame) (mission : string) :
  ("disposition" ∉ columns df →
   normalize_disposition_extended float_str df mission =
   Raise (KeyError ["disposition"])) ∧
  ("disposition" ∈ columns df →
   ∃ out, normalize_disposition_extended float_str df mission = Ok out ∧
     (∀ c, c ∈ columns out ↔ c ∈ columns df ∨ c = "disposition_original") ∧
     length (rows out) = length (rows df) ∧
     ∀ c, c ≠ "disposition" → c ≠ "disposition_original" →
       at_column c <$> rows out = at_column c <$> rows df).
Proof.
  split.
  - intros Hd. unfold normalize_disposition_extended.
    by rewrite (getitem_absent _ _ Hd).
  - intros Hd. eexists. split; [by apply normalize_disposition_extended_eq|].
    cbn [columns rows]. split; [|split].
    + intros c. destruct (decide ("disposition_original" ∈ columns df)) as [Ho|Ho].
      * split; [by left|]. by intros [?| ->].
      * rewrite elem_of_app, list_elem_of_singleton. done.
    + by rewrite length_fmap.
    + intros c Hc Hc'. rewrite <- list_fmap_compose.
      apply list_fmap_ext. intros i row _. cbn [compose]. unfold at_column.
      by rewrite !lookup_insert_ne by done.
Qed.

(** X22 (normalize_disposition_extended): reconciling a reconciled table
    again leaves the [disposition] column as it is, and overwrites
    [disposition_original] with the reconciled values: the raw values
    are kept by the first run only. *)
Theorem normalize_disposition_extended_twice (df : DataFrame) (mission : string) :
  "disposition" ∈ columns df →
  ∃ out1 out2,
    normalize_disposition_extended float_str df mission = Ok out1 ∧
    normalize_disposition_extended float_str out1 mission = Ok out2 ∧
    getitem out2 "disposition" = getitem out1 "disposition" ∧
    getitem out2 "disposition_original" = getitem out1 "disposition" ∧
    getitem out1 "disposition" =
      Ok (reconcile float_str mission <$> (at_column "disposition" <$> rows df)).
Proof.
  intros Hd. eexists. eexists.
  split; [by apply normalize_disposition_extended_eq|].
  set (out1 := mkDataFrame _ _).
  assert ("disposition" ∈ columns out1) as Hd1 by by apply in_columns_if.
  split; [by apply normalize_disposition_extended_eq|].
  set (out2 := mkDataFrame _ _).
  assert ("disposition" ∈ columns out2) as Hd2 by by apply in_columns_if.
  assert ("disposition_original" ∈ columns out2) as Ho2 by apply added_column_if.
  rewrite !getitem_present by done.
  assert (∀ row, at_column "disposition"
            (<["disposition" :=
                 reconcile float_str mission (at_column "disposition" row)]>
               (<["disposition_original" := at_column "disposition" row]> row)) =
          reconcile float_str mission (at_column "disposition" row)) as Hat.
  { intros row. unfold at_column at 1. by rewrite lookup_insert_eq. }
  assert (at_column "disposition" <$> rows out1 =
          reconcile float_str mission <$> (at_column "disposition" <$> rows df)) as H1.
  { cbn [rows out1]. rewrite <- !list_fmap_compose. apply list_fmap_ext.
    intros i row _. cbn [compose]. apply Hat. }
  split; [|split; [|by rewrite H1]]; f_equal.
  - cbn [rows out2]. rewrite <- list_fmap_compose.
    apply list_fmap_ext. intros i row Hrow.
    cbn [compose]. rewrite Hat.
    apply (f_equal (λ l, l !! i)) in H1.
    rewrite !list_lookup_fmap, Hrow in H1.
    destruct (rows df !! i) as [row0|]; [|done].
    injection H1 as ->. apply reconcile_idemp.
  - cbn [rows out2]. rewrite <- list_fmap_compose. apply list_fmap_ext.
    intros i row _. cbn [compose]. unfold at_column at 1.
    by rewrite lookup_insert_ne, lookup_insert_eq by done.
Qed.

End ReconcilerFacts.

Lemma normalize_disposition_extended_frame_witness :
  ∃ out, normalize_disposition_extended (λ _, "nan") tess_fetched_named "TESS" = Ok out ∧
    at_column "object_name" <$> rows out = [Str "711.03"; Str "712.01"].
Proof.
  destruct (proj2 (normalize_disposition_extended_frame (λ _, "nan")
                     tess_fetched_named "TESS"))
    as (out & Hout & _ & _ & Hframe).
  - right; left.
  - exists out. split; [exact Hout|]. by apply (Hframe "object_name").
Defined.

Lemma normalize_disposition_extended_twice_witness :
  ∃ out1 out2,
    normalize_disposition_extended (λ _, "nan") tess_fetched_named "TESS" = Ok out1 ∧
    normalize_disposition_extended (λ _, "nan") out1 "TESS" = Ok out2 ∧
    getitem out2 "disposition" = Ok [Str "CONFIRMED"; Str "AMBIGUOUS"] ∧
    getitem out2 "disposition_original" = Ok [Str "CONFIRMED"; Str "AMBIGUOUS"].
Proof.
  destruct (normalize_disposition_extended_twice (λ _, "nan")
              tess_fetched_named "TESS")
    as (out1 & out2 & H1 & H2 & Hd & Ho & Hr).
  - right; left.
  - exists out1, out2. split; [exact H1|]. split; [exact H2|].
    rewrite Hd, Ho, Hr. split; reflexivity.
Defined.

(** ** Download with retries *)

Section FetchFacts.
Import Fetch.
Variable server : nat → response.
Variable possible_dispo_cols : list string.

Local Abbreviation step :=
  (λ attempt : nat, [Request; Sleep (2 ^ attempt)]).

Lemma attempts_first_usable max_retries k df dispo_col :
  ∀ attempt remaining,
    attempt + remaining = max_retries → k < remaining →
    (∀ j, j < k → usable possible_dispo_cols (server (attempt + j)) = false) →
    server (attempt + k) = Status200 df →
    find_dispo_col possible_dispo_cols df = Some dispo_col →
    attempts server possible_dispo_cols max_retries remaining attempt =
    ((seq attempt k ≫= step) ++ [Request], Return (Some (df, dispo_col)))%list.
Proof.
  induction k as [|k IH]; intros attempt remaining Hmax Hk Hbad Hgood Hcol;
    (destruct remaining as [|remaining]; [lia|]); cbn [attempts].
  - rewrite Nat.add_0_r in Hgood. by rewrite Hgood, Hcol.
  - rewrite !decide_False by lia.
    rewrite (IH (S attempt) remaining); [| lia | lia | | |done].
    + pose proof (Hbad 0 ltac:(lia)) as H0. rewrite Nat.add_0_r in H0.
      destruct (server attempt) as [df'| |];
        repeat (rewrite decide_False by lia); [|reflexivity..].
      cbn [usable] in H0. apply bool_decide_eq_false in H0.
      destruct (find_dispo_col possible_dispo_cols df') as [c|]; [|reflexivity].
      destruct H0. by eexists.
    + intros j Hj. rewrite Nat.add_succ_comm. apply Hbad. lia.
    + by rewrite Nat.add_succ_comm.
Qed.

Lemma attempts_all_unusable max_retries remaining :
  ∀ attempt,
    attempt + S remaining = max_retries →
    (∀ j, j < S remaining →
       usable possible_dispo_cols (server (attempt + j)) = false) →
    attempts server possible_dispo_cols max_retries (S remaining) attempt =
    (((seq attempt remaining ≫= step) ++ [Request])%list,
     Raises (failure (server (attempt + remaining)))).
Proof.
  induction remaining as [|remaining IH]; intros attempt Hmax Hbad.
  - pose proof (Hbad 0 ltac:(lia)) as H0. rewrite Nat.add_0_r in *.
    cbn [attempts].
    destruct (server attempt) as [df'| |];
      repeat (rewrite decide_True by lia); [|reflexivity..].
    cbn [usable] in H0. apply bool_decide_eq_false in H0.
    destruct (find_dispo_col possible_dispo_cols df') as [c|]; [|reflexivity].
    destruct H0. by eexists.
  - pose proof (Hbad 0 ltac:(lia)) as H0. rewrite Nat.add_0_r in H0.
    assert (attempts server possible_dispo_cols max_retries (S remaining)
              (S attempt) =
            (((seq (S attempt) remaining ≫= step) ++ [Request])%list,
             Raises (failure (server (attempt + S remaining))))) as Hrest.
    { rewrite <- Nat.add_succ_comm. apply IH; [lia|].
      intros j Hj. rewrite Nat.add_succ_comm. apply Hbad. lia. }
    remember (S remaining) as remaining' eqn:Hrem.
    cbn [attempts]. rewrite Hrest. subst remaining'.
    destruct (server attempt) as [df'| |];
      repeat (rewrite decide_False by lia); [|reflexivity..].
    cbn [usable] in H0. apply bool_decide_eq_false in H0.
    destruct (find_dispo_col possible_dispo_cols df') as [c|]; [|reflexivity].
    destruct H0. by eexists.
Qed.

Lemma slept_backoff_from attempt k :
  slept ((seq attempt k ≫= step) ++ [Request])%list + 2 ^ attempt = 2 ^ (attempt + k) ∧
  requests ((seq attempt k ≫= step) ++ [Request])%list = S k.
Proof.
  assert (∀ s l, slept (Request :: Sleep s :: l) = s + slept l ∧
                 requests (Request :: Sleep s :: l) = S (requests l)) as Hcons.
  { intros s l. split; reflexivity. }
  revert attempt. induction k as [|k IH]; intros attempt.
  { rewrite Nat.add_0_r. done. }
  destruct (IH (S attempt)) as [Hs Hr].
  change ((seq attempt (S k) ≫= step) ++ [Request])%list
    with (Request :: Sleep (2 ^ attempt) ::
            ((seq (S attempt) k ≫= step) ++ [Request]))%list.
  destruct (Hcons (2 ^ attempt) ((seq (S attempt) k ≫= step) ++ [Request])%list)
    as [-> ->].
  rewrite Hr. split; [|done].
  replace (attempt + S k) with (S attempt + k) by lia.
  rewrite <- Hs, Nat.pow_succ_r'. lia.
Qed.

Lemma first_usable (n : nat) :
  (∀ j, j < n → usable possible_dispo_cols (server j) = false) ∨
  ∃ k, k < n ∧ usable possible_dispo_cols (server k) = true ∧
       ∀ j, j < k → usable possible_dispo_cols (server j) = false.
Proof.
  induction n as [|n [IH|(k & Hk & Hu & Hbad)]].
  - left. intros j Hj. lia.
  - destruct (usable possible_dispo_cols (server n)) eqn:Hn.
    + right. exists n. split; [lia|]. done.
    + left. intros j Hj. destruct (decide (j = n)) as [->|]; [done|].
      apply IH. lia.
  - right. exists k. split; [lia|done].
Qed.

Lemma usable_true r :
  usable possible_dispo_cols r = true →
  ∃ df dispo_col, r = Status200 df ∧
    find_dispo_col possible_dispo_cols df = Some dispo_col.
Proof.
  destruct r as [df| |]; [|done..]. cbn [usable].
  intros [c Hc]%bool_decide_eq_true. by exists df, c.
Qed.

Lemma find_dispo_col_columns df dispo_col :
  find_dispo_col possible_dispo_cols df = Some dispo_col →
  dispo_col ∈ columns df.
Proof.
  unfold find_dispo_col.
  destruct (list_find _ possible_dispo_cols) as [[i c]|] eqn:Hfind.
  - intros [= <-]. by apply list_find_Some in Hfind as (_ & Hc & _).
  - destruct (filter _ (columns df)) as [|c l] eqn:Hfilter; [done|].
    intros [= <-].
    assert (c ∈ filter (λ col, contains_str "disp" (lower col) = true) (columns df))
      as Hc by (rewrite Hfilter; by left).
    by apply list_elem_of_filter in Hc as [_ Hc].
Qed.

(** X23 (fetch_table_with_retry): when attempt [k], counted from 0, is
    the first whose response has status 200 and a table with a
    disposition column, the function returns that table under the column
    found, which is one of its columns, after [k + 1] requests and pauses
    of 1, 2, ..., 2^(k-1) seconds between them, [2^k - 1] seconds in
    all. *)
Theorem fetch_returns_first_usable (max_retries k : nat) (df : DataFrame)
    (dispo_col : string) :
  k < max_retries →
  (∀ j, j < k → usable possible_dispo_cols (server j) = false) →
  server k = Status200 df →
  find_dispo_col possible_dispo_cols df = Some dispo_col →
  fetch_table_with_retry server possible_dispo_cols max_retries =
    (backoff k, Return (Some (df, dispo_col))) ∧
  dispo_col ∈ columns df ∧
  requests (backoff k) = S k ∧ slept (backoff k) + 1 = 2 ^ k.
Proof.
  intros Hk Hbad Hgood Hcol. split; [|split].
  - by apply (attempts_first_usable max_retries k df dispo_col 0 max_retries).
  - by apply find_dispo_col_columns.
  - destruct (slept_backoff_from 0 k) as [Hs Hr]. done.
Qed.

(** X24 (fetch_table_with_retry): when none of the [max_retries >= 1]
    attempts gives a usable table, the function makes exactly
    [max_retries] requests, pausing 1, 2, ..., 2^(max_retries-2) seconds
    between them, and raises the exception of the last attempt:
    [ConnectionError] for a status other than 200, [ValueError] for a
    table without a disposition column, and the exception of the request
    itself otherwise.  A table without a disposition column is asked for
    again like a failed request. *)
Theorem fetch_gives_up (n : nat) :
  (∀ j, j < S n → usable possible_dispo_cols (server j) = false) →
  fetch_table_with_retry server possible_dispo_cols (S n) =
    (backoff n, Raises (failure (server n))) ∧
  requests (backoff n) = S n ∧ slept (backoff n) + 1 = 2 ^ n.
Proof.
  intros Hbad. split.
  - by apply (attempts_all_unusable (S n) n 0).
  - destruct (slept_backoff_from 0 n) as [Hs Hr]. done.
Qed.

(** X25 (fetch_table_with_retry): for any integer [max_retries], the
    function returns [None] exactly when [max_retries] is zero or
    negative, and then without any request; with a positive
    [max_retries] it returns a table or raises. *)
Theorem fetch_returns_none_iff (max_retries : Z) :
  (fetch_table_with_retry_Z server possible_dispo_cols max_retries).2 = Return None ↔
  (max_retries ≤ 0)%Z ∧
  fetch_table_with_retry_Z server possible_dispo_cols max_retries = ([], Return None).
Proof.
  unfold fetch_table_with_retry_Z. split; [|by intros [_ ->]].
  destruct (Z.to_nat max_retries) as [|n] eqn:Hn; [intros _; split; [lia|done]|].
  intros Hnone. exfalso.
  destruct (first_usable (S n)) as [Hbad|(k & Hk & Hu & Hbad)].
  - unfold fetch_table_with_retry in Hnone.
    by rewrite (attempts_all_unusable (S n) n 0) in Hnone.
  - apply usable_true in Hu as (df & c & Hgood & Hcol).
    unfold fetch_table_with_retry in Hnone.
    by rewrite (attempts_first_usable (S n) k df c 0 (S n)) in Hnone.
Qed.

Example fetch_negative_retries :
  fetch_table_with_retry_Z flaky ["tfopwg_disp"] (-1) = ([], Return None) ∧
  fetch_table_with_retry_Z flaky ["tfopwg_disp"] 0 = ([], Return None).
Proof. by_compute. Qed.

End FetchFacts.

Lemma fetch_returns_first_usable_witness :
  Fetch.fetch_table_with_retry Fetch.flaky ["disposition"; "tfopwg_disp"] 3 =
    (Fetch.backoff 2, Fetch.Return (Some (tess_raw, "tfopwg_disp"))) ∧
  "tfopwg_disp" ∈ columns tess_raw ∧
  Fetch.requests (Fetch.backoff 2) = 3 ∧ Fetch.slept (Fetch.backoff 2) + 1 = 2 ^ 2.
Proof.
  apply (fetch_returns_first_usable Fetch.flaky ["disposition"; "tfopwg_disp"]
           3 2 tess_raw "tfopwg_disp"); [lia| |reflexivity|reflexivity].
  intros [|[|j]] Hj; [reflexivity|reflexivity|lia].
Defined.

Lemma fetch_gives_up_witness :
  Fetch.fetch_table_with_retry (λ _, Fetch.StatusOther 503) ["koi_disposition"] 3 =
    (Fetch.backoff 2, Fetch.Raises Fetch.ConnectionError) ∧
  Fetch.requests (Fetch.backoff 2) = 3 ∧ Fetch.slept (Fetch.backoff 2) + 1 = 2 ^ 2.
Proof.
  apply (fetch_gives_up (λ _, Fetch.StatusOther 503) ["koi_disposition"] 2).
  intros j Hj. reflexivity.
Defined.

(** ** Combination of the fetched sources *)

Lemma filter_present_absent (cols l : list string) :
  filter (λ c, c ∉ cols) (filter (λ c, c ∈ cols) l) = [].
Proof.
  induction l as [|c l IH]; [done|]. rewrite (filter_cons (λ c, c ∈ cols)).
  destruct (decide (c ∈ cols)) as [Hc|Hc]; [|done].
  rewrite filter_cons, decide_False by (by intros ?). done.
Qed.

Lemma filter_absent_nil_iff (cols l : list string) :
  filter (λ c, c ∉ cols) l = [] ↔ ∀ c, c ∈ l → c ∈ cols.
Proof.
  induction l as [|c l IH].
  { split; [|done]. intros _ c Hc. by apply elem_of_nil in Hc. }
  rewrite filter_cons. destruct (decide (c ∉ cols)) as [Hc|Hc].
  - split; [done|]. intros Hall. destruct Hc. apply Hall. by left.
  - rewrite IH. apply dec_stable in Hc. split.
    + by intros Hall c' [->|?]%elem_of_cons; [|apply Hall].
    + intros Hall c' Hc'. apply Hall. by right.
Qed.

Lemma select_available df :
  select df (available_cols df) =
  match filter (λ c, c ∉ columns df) base_cols with
  | [] => Ok {| columns := available_cols df;
                rows := project (available_cols df) <$> rows df |}
  | missing => Raise (KeyError missing)
  end.
Proof.
  unfold select, available_cols at 1.
  by rewrite filter_app, filter_present_absent, app_nil_r.
Qed.

Lemma mapM_select (l : list DataFrame) :
  ((∀ df, df ∈ l → ∀ c, c ∈ base_cols → c ∈ columns df) ∧
   mapM (λ df, select df (available_cols df)) l =
   Ok ((λ df, {| columns := available_cols df;
                 rows := project (available_cols df) <$> rows df |}) <$> l)) ∨
  ∃ df, df ∈ l ∧ (∃ c, c ∈ base_cols ∧ c ∉ columns df) ∧
    mapM (λ df, select df (available_cols df)) l =
    Raise (KeyError (filter (λ c, c ∉ columns df) base_cols)).
Proof.
  induction l as [|df l IH].
  { left. split; [|done]. intros df Hdf. by apply elem_of_nil in Hdf. }
  cbn [mapM]. fold (mapM (λ df, select df (available_cols df)) l).
  rewrite select_available.
  destruct (filter (λ c, c ∉ columns df) base_cols) as [|m missing] eqn:Hmiss.
  - pose proof (proj1 (filter_absent_nil_iff _ _) Hmiss) as Hbase.
    cbn [mbind result_bind].
    destruct IH as [[Hall ->]|(df' & Hdf' & Hc & ->)].
    + left. split; [|done]. by intros df' [->|?]%elem_of_cons; [|apply Hall].
    + right. exists df'. split; [by right|]. done.
  - right. exists df. split; [by left|]. split; [|by rewrite Hmiss].
    assert (m ∈ filter (λ c, c ∉ columns df) base_cols) as Hm
      by (rewrite Hmiss; by left).
    apply list_elem_of_filter in Hm as [Hm Hin]. by exists m.
Qed.

(** X26 (main_fixed_fetch, step 5): the combination of the fetched
    sources raises [ValueError] when there is no source and [KeyError],
    naming the absent columns, when a source lacks one of [mission],
    [object_name] and [disposition]; otherwise
    the combined table has these three columns, each of the six
    optional columns that some source has and no other column, and as
    many rows as the sources have together. *)
Theorem combine_sources_spec (all_dataframes : list DataFrame) :
  match combine_sources all_dataframes with
  | Ok all_data =>
      all_dataframes ≠ [] ∧
      (∀ df, df ∈ all_dataframes → ∀ c, c ∈ base_cols → c ∈ columns df) ∧
      (∀ c, c ∈ columns all_data ↔
            c ∈ base_cols ∨
            c ∈ optional_cols ∧ ∃ df, df ∈ all_dataframes ∧ c ∈ columns df) ∧
      length (rows all_data) = sum_list ((length ∘ rows) <$> all_dataframes)
  | Raise e =>
      all_dataframes = [] ∧ e = ValueError ∨
      ∃ df, df ∈ all_dataframes ∧ (∃ c, c ∈ base_cols ∧ c ∉ columns df) ∧
            e = KeyError (filter (λ c, c ∉ columns df) base_cols)
  end.
Proof.
  unfold combine_sources. destruct all_dataframes as [|df0 dfs]; [by left|].
  destruct (mapM_select (df0 :: dfs)) as [[Hall ->]|(df & Hdf & Hc & ->)];
    cbn [mbind result_bind].
  - assert (∀ g : DataFrame → DataFrame,
              concat (g <$> df0 :: dfs) = Ok (concat_frames (g <$> df0 :: dfs)))
      as -> by done.
    split; [done|]. split; [done|]. split.
    + intros c. rewrite concat_columns_elem_of. split.
      * intros (d & (df & -> & Hdf)%list_elem_of_fmap & Hin).
        cbn [columns] in Hin. unfold available_cols in Hin.
        apply elem_of_app in Hin as [?|[Hpresent Hopt]%list_elem_of_filter];
          [by left|].
        right. split; [done|]. by exists df.
      * intros [Hbase|(Hopt & df & Hdf & Hin)].
        -- eexists. split; [apply list_elem_of_fmap; exists df0; split;
                            [reflexivity|by left]|].
           cbn [columns]. apply elem_of_app. by left.
        -- eexists. split; [apply list_elem_of_fmap; exists df; split;
                            [reflexivity|done]|].
           cbn [columns]. apply elem_of_app. right.
           by apply list_elem_of_filter.
    + rewrite concat_length, <- list_fmap_compose. f_equal.
      apply list_fmap_ext. intros i df _. cbn [compose rows].
      by rewrite length_fmap.
  - right. by exists df.
Qed.
